(** * Internet connectivity monitor

    A model of [internet-monitor.py]: the probe aggregation of
    [InternetMonitor.comprehensive_check], the outage tracker
    [InternetMonitor.detect_status_change], the local backup file
    ([save_local_backup], [attempt_backup_recovery]) and the Google Sheets
    delivery code of [GoogleSheetsLogger] ([_execute_with_retry], the
    failed-upload queue, the [_log_*_direct] writers and
    [recover_from_backup]), [Config.validate_config] and the loop of
    [InternetMonitor.run_continuous].

    Python objects are modelled by value.  Everything the program reads from
    outside (the probes, the clocks, the Sheets service, the ISO-8601 parser
    of the standard library) is gathered in one [Environment]; the effects
    (attribute updates, sheet contents, sleeps, log messages, the backup
    file) are threaded explicitly through a small state-and-exception
    monad in which the state survives a raised exception, as it does in
    Python. *)

From Stdlib Require Import String Ascii List ZArith QArith Qreduction.
From Stdlib Require Import Bool Arith Lia Permutation Sorting.Sorted.
From Stdlib Require Import DecimalString.
Import ListNotations.

Local Close Scope Q_scope.
Local Open Scope string_scope.
Local Open Scope list_scope.

(** ** Python helpers *)

Module Py.

(** [any(...)] over a generator of booleans. *)
Definition any {A} (f : A -> bool) (l : list A) : bool := existsb f l.

(** [l[-n:]] for a positive [n]: the last [n] elements, the whole list
    when it is shorter. *)
Definition last_n {A} (n : nat) (l : list A) : list A :=
  skipn (length l - n) l.

(** [sep.join(l)]. *)
Definition join (sep : string) (l : list string) : string :=
  String.concat sep l.

(** [s.replace('Z', '+00:00')]. *)
Fixpoint replace_Z (s : string) : string :=
  match s with
  | EmptyString => EmptyString
  | String c s' =>
      if Ascii.eqb c "Z"%char then ("+00:00" ++ replace_Z s')%string
      else String c (replace_Z s')
  end.

(** Truth value of a string: the empty string is falsy. *)
Definition truthy (s : string) : bool :=
  match s with EmptyString => false | _ => true end.

(** [sorted(l, key=key)] with string keys: a stable insertion sort
    ([x] goes before the first element whose key is not smaller). *)
Section Sorted.
Context {A : Type} (key : A -> string).

Fixpoint insert (x : A) (l : list A) : list A :=
  match l with
  | [] => [x]
  | y :: l' =>
      if String.ltb (key y) (key x) then y :: insert x l'
      else x :: y :: l'
  end.

Definition sorted (l : list A) : list A := fold_right insert [] l.

End Sorted.

(** [l.remove(x)] when [x in l]: drops the first element equal to [x];
    [l] is returned unchanged when there is none (the caller tests
    [x in l] first). *)
Section Remove.
Context {A : Type} (eq_dec : forall x y : A, {x = y} + {x <> y}).

Fixpoint remove_first (x : A) (l : list A) : list A :=
  match l with
  | [] => []
  | y :: l' => if eq_dec x y then l' else y :: remove_first x l'
  end.
End Remove.

End Py.

(** ** Exceptions and the state monad *)

Inductive exn :=
| HttpError (status : Z)      (* googleapiclient.errors.HttpError, e.resp.status *)
| Exception (msg : string).   (* any other exception *)

Inductive result (A : Type) :=
| Ok (a : A)
| Raise (e : exn).
Arguments Ok {A} a.
Arguments Raise {A} e.

Definition str_exn (e : exn) : string :=
  match e with
  | HttpError _ => "HttpError"
  | Exception msg => msg
  end.

(** A computation over a mutable state [S]: the state reached is returned
    also when the computation raises. *)
Definition M (S A : Type) : Type := S -> result A * S.

Definition ret {S A} (a : A) : M S A := fun s => (Ok a, s).

Definition raise {S A} (e : exn) : M S A := fun s => (Raise e, s).

Definition bind {S A B} (m : M S A) (k : A -> M S B) : M S B :=
  fun s =>
    match m s with
    | (Ok a, s') => k a s'
    | (Raise e, s') => (Raise e, s')
    end.

Definition try_except {S A} (body : M S A) (handler : exn -> M S A) : M S A :=
  fun s =>
    match body s with
    | (Ok a, s') => (Ok a, s')
    | (Raise e, s') => handler e s'
    end.

Definition gets {S A} (f : S -> A) : M S A := fun s => (Ok (f s), s).

Definition modify {S} (f : S -> S) : M S unit := fun s => (Ok tt, f s).

Declare Scope monad_scope.
Delimit Scope monad_scope with monad.
Notation "x <- m ;; k" := (bind m (fun x => k))
  (at level 61, m at next level, right associativity) : monad_scope.
Notation "m ;; k" := (bind m (fun _ => k))
  (at level 61, right associativity) : monad_scope.
Local Open Scope monad_scope.

Definition when {S} (b : bool) (m : M S unit) : M S unit :=
  if b then m else ret tt.

(** ** Data model *)

(** The dictionary returned by [ping_test], [http_test] and [dns_test].
    [target] stands for the key ['target'], ['url'] or ['server'];
    the keys that are written but never read again (['status_code'],
    ['response_time_ms'], ['resolved_ips']) are left out. *)
Record ProbeResult := mkProbe {
  success : bool;
  latency_ms : option Q;
  target : string;
  error : option string;
  timeout_used : Z
}.

(** The ['status_change'] dictionary, tagged by its ['type']. *)
Inductive StatusChange :=
| OutageStartEvent (ts location : string)
| OutageEndEvent (ts location outage_start : string) (duration_seconds : Q).

(** The dictionary built by [comprehensive_check] and stored in the backup
    file.  [connected] is optional because [recover_from_backup] tests
    [record.get('connected') is not None]; a missing ['timestamp'] reads
    as the empty string ([record.get('timestamp', '')]). *)
Record CheckResult := mkCheck {
  timestamp : string;
  location_id : string;
  connected : option bool;
  ping_results : list ProbeResult;
  http_results : list ProbeResult;
  dns_results : list ProbeResult;
  status_change : option StatusChange
}.

Record Config := mkConfig {
  LOCATION_ID : string;
  PING_TIMEOUT : Z;
  HTTP_TIMEOUT : Z;
  DNS_TIMEOUT : Z;
  PING_TARGETS : list string;
  HTTP_TARGETS : list string;
  DNS_SERVERS : list string
}.

(** A [datetime] object read from [datetime.now()]: its instant in
    microseconds and its [isoformat()] rendering. *)
Record datetime := mkDatetime {
  dt_us : Z;
  dt_iso : string
}.

(** A [datetime] object parsed from a string: its microseconds since the
    epoch (those of its wall clock when it is offset-naive) and whether it
    is offset-aware. *)
Record Instant := mkInstant {
  i_us : Z;
  i_aware : bool
}.

(** [timedelta.total_seconds()]: the exact quotient of the microsecond count
    by 10^6, in lowest terms (Python rounds it to the nearest float, which
    keeps its sign and is exact for whole seconds). *)
Definition total_seconds (us : Z) : Q := Qred (us # 1000000).

(** What the Sheets service answers to one request. *)
Inductive Outcome :=
| Success
| Failure (e : exn).

(** ** The environment *)

Record Environment := mkEnv {
  (** [self.ping_test(target)] in check cycle [n]; [Raise] when the probe
      itself raises *)
  ping_test : nat -> string -> result ProbeResult;
  http_test : nat -> string -> result ProbeResult;
  dns_test : nat -> string -> result ProbeResult;
  (** [datetime.now(timezone.utc).isoformat()] in check cycle [n] *)
  utc_now : nat -> string;
  (** the [n]-th reading of [datetime.now()] *)
  local_now : nat -> datetime;
  (** [datetime.fromisoformat]: the datetime read, [None] for
      [ValueError] *)
  fromisoformat : string -> option Instant;
  (** [round(x, 2)] *)
  round2 : Q -> Q;
  (** the answer of the Sheets service to the [n]-th request sent to it *)
  api_outcome : nat -> Outcome;
  (** [self.credentials.expired], read after [n] requests were sent *)
  credentials_expired : nat -> bool;
  (** whether the [n]-th call of [_build_service] succeeds *)
  build_ok : nat -> bool
}.

(** ** ProbeEngine: [comprehensive_check] *)

Section ProbeEngine.
Variable E : Environment.
Variable config : Config.

(** One [try: result = probe(t) / except Exception as e: {...}] body. *)
Definition probe_or_failure (probe : string -> result ProbeResult)
    (timeout : Z) (t : string) : ProbeResult :=
  match probe t with
  | Ok r => r
  | Raise e => mkProbe false None t (Some (str_exn e)) timeout
  end.

Definition comprehensive_check (cycle : nat) : CheckResult :=
  let ts := utc_now E cycle in
  let pings :=
    map (probe_or_failure (ping_test E cycle) (PING_TIMEOUT config))
        (PING_TARGETS config) in
  let https :=
    map (probe_or_failure (http_test E cycle) (HTTP_TIMEOUT config))
        (HTTP_TARGETS config) in
  let dnss :=
    map (probe_or_failure (dns_test E cycle) (DNS_TIMEOUT config))
        (DNS_SERVERS config) in
  let ping_success := Py.any success pings in
  let http_success := Py.any success https in
  let dns_success := Py.any success dnss in
  let overall_connected := ping_success && (http_success || dns_success) in
  mkCheck ts (LOCATION_ID config) (Some overall_connected)
          pings https dnss None.

End ProbeEngine.

(** ** The Sheets service and the state of [GoogleSheetsLogger] *)

Inductive Cell :=
| CStr (s : string)
| CNum (q : Q).

Definition Row := list Cell.

Inductive Sheet := Connectivity_Checks | Outages.

(** The requests the program sends: [values().append] on a sheet,
    [values().get] of [Outages!A:G] and [values().update] of
    [Outages!C{i+1}:G{i+1}] ([i] counts rows from 0). *)
Inductive ApiCall :=
| ValuesAppend (sheet : Sheet) (row : Row)
| ValuesGet
| ValuesUpdate (i : nat) (cells : Row).

(** The payload of a queued upload: ['operation_type'] with its ['data']. *)
Inductive Upload :=
| ConnectivityCheck (data : CheckResult)
| OutageStart (location start_time : string)
| OutageEnd (location start_time end_time : string) (duration_seconds : Q).

Definition operation_type (u : Upload) : string :=
  match u with
  | ConnectivityCheck _ => "connectivity_check"
  | OutageStart _ _ => "outage_start"
  | OutageEnd _ _ _ _ => "outage_end"
  end.

Record FailedUpload := mkFailed {
  fu_timestamp : string;
  upload : Upload;
  retry_count : nat
}.

(** Everything outside the process that the logger acts on. *)
Record World := mkWorld {
  checks_sheet : list Row;      (* rows of Connectivity_Checks *)
  outages_sheet : list Row;     (* rows of Outages *)
  calls : list ApiCall;         (* requests sent so far, oldest first *)
  sleeps : list Q;              (* lengths of the sleeps, oldest first *)
  clock_reads : nat;            (* readings of datetime.now() so far *)
  builds : nat                  (* calls of _build_service so far *)
}.

Record GoogleSheetsLogger := mkLogger {
  service : bool;               (* self.service is not None *)
  last_successful_upload : option datetime;
  failed_uploads : list FailedUpload
}.

Record LState := mkLState {
  logger : GoogleSheetsLogger;
  world : World
}.

Definition set_world (f : World -> World) (s : LState) : LState :=
  mkLState (logger s) (f (world s)).

Definition set_logger (f : GoogleSheetsLogger -> GoogleSheetsLogger)
    (s : LState) : LState :=
  mkLState (f (logger s)) (world s).

Definition set_service (b : bool) (l : GoogleSheetsLogger) :=
  mkLogger b (last_successful_upload l) (failed_uploads l).

Definition set_last_successful_upload (d : option datetime)
    (l : GoogleSheetsLogger) :=
  mkLogger (service l) d (failed_uploads l).

Definition set_failed_uploads (q : list FailedUpload)
    (l : GoogleSheetsLogger) :=
  mkLogger (service l) (last_successful_upload l) q.

Definition set_retry_count (n : nat) (u : FailedUpload) : FailedUpload :=
  mkFailed (fu_timestamp u) (upload u) n.

Definition log_call (c : ApiCall) (w : World) : World :=
  mkWorld (checks_sheet w) (outages_sheet w) (calls w ++ [c]) (sleeps w)
          (clock_reads w) (builds w).

Definition add_sleep (d : Q) (w : World) : World :=
  mkWorld (checks_sheet w) (outages_sheet w) (calls w) (sleeps w ++ [d])
          (clock_reads w) (builds w).

Definition tick_clock (w : World) : World :=
  mkWorld (checks_sheet w) (outages_sheet w) (calls w) (sleeps w)
          (S (clock_reads w)) (builds w).

Definition tick_builds (w : World) : World :=
  mkWorld (checks_sheet w) (outages_sheet w) (calls w) (sleeps w)
          (clock_reads w) (S (builds w)).

Definition set_outages (rows : list Row) (w : World) : World :=
  mkWorld (checks_sheet w) rows (calls w) (sleeps w)
          (clock_reads w) (builds w).

Definition set_checks (rows : list Row) (w : World) : World :=
  mkWorld rows (outages_sheet w) (calls w) (sleeps w)
          (clock_reads w) (builds w).

(** The effect of an accepted request on the sheets.  An append adds the
    row below the last one; an update of [C{i+1}:G{i+1}] overwrites the
    third to seventh cell of row [i]. *)
Definition update_CG (cells : Row) (row : Row) : Row :=
  firstn 2 row ++ cells ++ skipn 7 row.

Fixpoint update_row (i : nat) (cells : Row) (rows : list Row) : list Row :=
  match rows, i with
  | [], _ => []
  | row :: rows', O => update_CG cells row :: rows'
  | row :: rows', S j => row :: update_row j cells rows'
  end.

Definition apply_call (c : ApiCall) (w : World) : World :=
  match c with
  | ValuesAppend Connectivity_Checks row =>
      set_checks (checks_sheet w ++ [row]) w
  | ValuesAppend Outages row =>
      set_outages (outages_sheet w ++ [row]) w
  | ValuesGet => w
  | ValuesUpdate i cells =>
      set_outages (update_row i cells (outages_sheet w)) w
  end.

(** Equality of queue entries, as [list.remove] and [in] compare
    dictionaries: by value.  Numbers are compared as fractions; the
    durations the program computes are in lowest terms
    ([total_seconds]), where this is equality of the numbers. *)
Definition Q_eq_dec (x y : Q) : {x = y} + {x <> y}.
Proof. decide equality; [ apply Pos.eq_dec | apply Z.eq_dec ]. Defined.

Definition ProbeResult_eq_dec (x y : ProbeResult) : {x = y} + {x <> y}.
Proof.
  decide equality;
    try apply Z.eq_dec; try apply string_dec; try apply bool_dec;
    decide equality; try apply string_dec; apply Q_eq_dec.
Defined.

Definition StatusChange_eq_dec (x y : StatusChange) : {x = y} + {x <> y}.
Proof. decide equality; try apply string_dec; apply Q_eq_dec. Defined.

Definition CheckResult_eq_dec (x y : CheckResult) : {x = y} + {x <> y}.
Proof.
  decide equality; try apply string_dec;
    try (apply list_eq_dec; apply ProbeResult_eq_dec);
    decide equality; try apply bool_dec; apply StatusChange_eq_dec.
Defined.

Definition Upload_eq_dec (x y : Upload) : {x = y} + {x <> y}.
Proof.
  decide equality; try apply string_dec; try apply Q_eq_dec;
    apply CheckResult_eq_dec.
Defined.

Definition FailedUpload_eq_dec (x y : FailedUpload) : {x = y} + {x <> y}.
Proof.
  decide equality;
    [ apply Nat.eq_dec | apply Upload_eq_dec | apply string_dec ].
Defined.

(** ** GoogleSheetsLogger *)

Section Logger.
Variable E : Environment.

(** One request through [self.service]: with no service object the
    attribute access raises before anything is sent; otherwise the
    request is sent and the service accepts it or answers with an
    error. *)
Definition request (c : ApiCall) : M LState unit :=
  fun s =>
    if service (logger s) then
      let n := length (calls (world s)) in
      let s1 := set_world (log_call c) s in
      match api_outcome E n with
      | Success => (Ok tt, set_world (apply_call c) s1)
      | Failure e => (Raise e, s1)
      end
    else (Raise (Exception "'NoneType' object has no attribute 'spreadsheets'"), s).

(** [datetime.now()]. *)
Definition now : M LState datetime :=
  fun s =>
    (Ok (local_now E (clock_reads (world s))), set_world tick_clock s).

(** [time.sleep(d)], which raises [ValueError] on a negative length. *)
Definition sleep (d : Q) : M LState unit :=
  if Qle_bool 0 d then modify (set_world (add_sleep d))
  else raise (Exception "sleep length must be non-negative").

Definition _build_service : M LState bool :=
  fun s =>
    let n := builds (world s) in
    let s1 := set_world tick_builds s in
    if build_ok E n then (Ok true, set_logger (set_service true) s1)
    else (Ok false, s1).

Definition _append_row (sheet_name : Sheet) (row_data : Row) : M LState unit :=
  request (ValuesAppend sheet_name row_data).

(** [_generate_notes]. *)
Definition failures (results : list ProbeResult) : list string :=
  map target (filter (fun r => negb (success r)) results).

Definition note (label : string) (failed : list string) : list string :=
  match failed with
  | [] => []
  | _ => [(label ++ Py.join ", " failed)%string]
  end.

Definition _generate_notes (data : CheckResult) : string :=
  let notes :=
    note "Ping failed: " (failures (ping_results data)) ++
    note "HTTP failed: " (failures (http_results data)) ++
    note "DNS failed: " (failures (dns_results data)) in
  match notes with
  | [] => "All tests passed"
  | _ => Py.join "; " notes
  end.

Definition bool_cell (b : bool) : Cell :=
  CStr (if b then "TRUE" else "FALSE").

Definition ping_times (data : CheckResult) : list Q :=
  flat_map (fun r =>
              if success r then
                match latency_ms r with Some x => [x] | None => [] end
              else [])
           (ping_results data).

Definition avg_ping (data : CheckResult) : Q :=
  match ping_times data with
  | [] => 0%Q
  | l => round2 E (fold_right Qplus 0 l / inject_Z (Z.of_nat (length l)))%Q
  end.

(** The [row_data] of [_log_connectivity_check_direct]. *)
Definition connectivity_row (data : CheckResult) : Row :=
  let ping_success := Py.any success (ping_results data) in
  let http_success := Py.any success (http_results data) in
  let dns_success := Py.any success (dns_results data) in
  [ CStr (timestamp data);
    CStr (location_id data);
    bool_cell (match connected data with Some b => b | None => false end);
    bool_cell ping_success;
    bool_cell http_success;
    bool_cell dns_success;
    CNum (avg_ping data);
    CStr (_generate_notes data) ].

Definition _log_connectivity_check_direct (data : CheckResult)
    : M LState unit :=
  _append_row Connectivity_Checks (connectivity_row data).

(** The [row_data] of [_log_outage_start_direct]. *)
Definition ongoing_row (location start_time : string) : Row :=
  [ CStr location; CStr start_time;
    CStr ""; CStr ""; CStr ""; CStr ""; CStr "ONGOING" ].

Definition _log_outage_start_direct (location start_time : string)
    : M LState unit :=
  _append_row Outages (ongoing_row location start_time).

(** [row[k] == s] for a string [s]. *)
Definition cell_is (s : string) (c : option Cell) : bool :=
  match c with
  | Some (CStr s') => String.eqb s' s
  | _ => false
  end.

Definition is_ongoing (location start_time : string) (row : Row) : bool :=
  (7 <=? length row)%nat &&
  cell_is location (nth_error row 0) &&
  cell_is start_time (nth_error row 1) &&
  cell_is "ONGOING" (nth_error row 6).

(** The index of the first row that the loop over [enumerate(values)]
    accepts. *)
Fixpoint find_ongoing (location start_time : string) (values : list Row)
    (i : nat) : option nat :=
  match values with
  | [] => None
  | row :: values' =>
      if is_ongoing location start_time row then Some i
      else find_ongoing location start_time values' (S i)
  end.

(** [values().get(range='Outages!A:G')]: the first seven cells of every
    row. *)
Definition values_get : M LState (list Row) :=
  request ValuesGet;;
  rows <- gets (fun s => outages_sheet (world s));;
  ret (map (firstn 7) rows).

Definition _log_outage_end_direct
    (location start_time end_time : string) (duration_seconds : Q)
    : M LState unit :=
  values <- values_get;;
  let duration_minutes := round2 E (duration_seconds / 60)%Q in
  let duration_hours := round2 E (duration_seconds / 3600)%Q in
  match find_ongoing location start_time values 0 with
  | Some i =>
      let update_data :=
        [ CStr end_time; CNum duration_seconds; CNum duration_minutes;
          CNum duration_hours; CStr "RESOLVED" ] in
      request (ValuesUpdate i update_data)
  | None =>
      let row_data :=
        [ CStr location; CStr start_time; CStr end_time;
          CNum duration_seconds; CNum duration_minutes;
          CNum duration_hours; CStr "RESOLVED" ] in
      _append_row Outages row_data
  end.

(** The [if/elif] chain of [_process_failed_uploads] and the three
    lambdas passed to [_execute_with_retry]. *)
Definition deliver_direct (u : Upload) : M LState unit :=
  match u with
  | ConnectivityCheck data => _log_connectivity_check_direct data
  | OutageStart location start_time =>
      _log_outage_start_direct location start_time
  | OutageEnd location start_time end_time duration_seconds =>
      _log_outage_end_direct location start_time end_time duration_seconds
  end.

(** The loop of [_process_failed_uploads] over the copy
    [self.failed_uploads[:]].  [done] are the entries already visited
    (with their counts raised), [todo] those still to visit; raising
    ['retry_count'] updates the dictionary that the queue holds, so the
    queue is rewritten in place.  The result is [successful_uploads]. *)
Fixpoint process_loop (done todo successful : list FailedUpload)
    : M LState (list FailedUpload) :=
  match todo with
  | [] => ret successful
  | u :: rest =>
      let u' := set_retry_count (retry_count u + 1) u in
      modify (set_logger (set_failed_uploads (done ++ u' :: rest)));;
      delivered <-
        try_except (deliver_direct (upload u');; ret true)
                   (fun _ => ret false);;
      let successful' :=
        if delivered then successful ++ [u']
        else if (5 <=? retry_count u')%nat then successful ++ [u']
        else successful in
      process_loop (done ++ [u']) rest successful'
  end.

Definition remove_uploads (successful queue : list FailedUpload)
    : list FailedUpload :=
  fold_left (fun q u => Py.remove_first FailedUpload_eq_dec u q)
            successful queue.

Definition _process_failed_uploads : M LState unit :=
  queue <- gets (fun s => failed_uploads (logger s));;
  match queue with
  | [] => ret tt
  | _ =>
      successful_uploads <- process_loop [] queue [];;
      modify (set_logger (fun l =>
        set_failed_uploads (remove_uploads successful_uploads
                                           (failed_uploads l)) l))
  end.

(** [_execute_with_retry(operation, max_retries, backoff_factor)]. *)
Section Retry.
Variable operation : M LState unit.
Variable max_retries : nat.
Variable backoff_factor : Z.

(** [if self.service is None or self.credentials.expired: ...]. *)
Definition ensure_service : M LState unit :=
  available <- gets (fun s => service (logger s));;
  n <- gets (fun s => length (calls (world s)));;
  if negb available || credentials_expired E n then
    built <- _build_service;;
    if built then ret tt
    else raise (Exception "Failed to build Google Sheets service")
  else ret tt.

(** The body of the [try]. *)
Definition attempt_once : M LState unit :=
  ensure_service;;
  operation;;
  t <- now;;
  modify (set_logger (set_last_successful_upload (Some t)));;
  _process_failed_uploads.

(** [backoff_factor ** attempt], and five times as much after a rate
    limit. *)
Definition backoff (attempt : nat) : Q :=
  inject_Z (backoff_factor ^ Z.of_nat attempt).

Definition rate_limit_backoff (attempt : nat) : Q :=
  inject_Z (backoff_factor ^ Z.of_nat attempt * 5).

(** The [except] clauses; [attempt < max_retries - 1] guards every
    sleep, and in every case the loop goes on to the next attempt. *)
Definition on_error (attempt : nat) (e : exn) : M LState unit :=
  let again := (attempt <? max_retries - 1)%nat in
  match e with
  | HttpError status =>
      if (status =? 401)%Z || (status =? 403)%Z then
        when again (_build_service;; sleep (backoff attempt))
      else if (status =? 429)%Z then
        when again (sleep (rate_limit_backoff attempt))
      else
        when again (sleep (backoff attempt))
  | Exception _ =>
      when again (_build_service;; sleep (backoff attempt))
  end.

Definition retries_exhausted : exn :=
  Exception ("Failed to execute operation after "
             ++ NilEmpty.string_of_uint (Nat.to_uint max_retries)
             ++ " attempts")%string.

(** [for attempt in range(max_retries)]: [remaining] attempts are left,
    the next one is number [attempt]. *)
Fixpoint retry_loop (remaining attempt : nat) : M LState unit :=
  match remaining with
  | O => raise retries_exhausted
  | S k =>
      try_except attempt_once
        (fun e => on_error attempt e;; retry_loop k (S attempt))
  end.

Definition _execute_with_retry : M LState unit :=
  retry_loop max_retries 0.

End Retry.

Definition _store_failed_upload (u : Upload) : M LState unit :=
  t <- now;;
  let failed_upload := mkFailed (dt_iso t) u 0 in
  queue <- gets (fun s => failed_uploads (logger s));;
  when (100 <=? length queue)%nat
       (modify (set_logger (set_failed_uploads (Py.last_n 50 queue))));;
  modify (set_logger (fun l =>
    set_failed_uploads (failed_uploads l ++ [failed_upload]) l)).

(** [log_connectivity_check], [log_outage_start] and [log_outage_end]:
    the upload with the default three attempts and factor 2, queued when
    it fails. *)
Definition log_upload (u : Upload) : M LState unit :=
  try_except (_execute_with_retry (deliver_direct u) 3 2)
             (fun _ => _store_failed_upload u).

Definition log_connectivity_check (data : CheckResult) : M LState unit :=
  log_upload (ConnectivityCheck data).

Definition log_outage_start (location start_time : string)
    : M LState unit :=
  log_upload (OutageStart location start_time).

Definition log_outage_end (location start_time end_time : string)
    (duration_seconds : Q) : M LState unit :=
  log_upload (OutageEnd location start_time end_time duration_seconds).

End Logger.

(** ** [recover_from_backup] *)

Record RecoveryStats := mkStats {
  connectivity_checks : nat;
  outages_started : nat;
  outages_completed : nat;
  errors : nat
}.

Definition no_stats : RecoveryStats := mkStats 0 0 0 0.

(** The state of the recovery loop: the logger and the world, the
    [recovery_stats] dictionary and the [ongoing_outages] dictionary,
    both updated in place. *)
Record RState := mkRState {
  r_lstate : LState;
  recovery_stats : RecoveryStats;
  ongoing_outages : list (string * string)
}.

Definition count_check (s : RState) : RState :=
  let st := recovery_stats s in
  mkRState (r_lstate s)
    (mkStats (connectivity_checks st + 1) (outages_started st)
             (outages_completed st) (errors st))
    (ongoing_outages s).

Definition count_started (s : RState) : RState :=
  let st := recovery_stats s in
  mkRState (r_lstate s)
    (mkStats (connectivity_checks st) (outages_started st + 1)
             (outages_completed st) (errors st))
    (ongoing_outages s).

Definition count_completed (s : RState) : RState :=
  let st := recovery_stats s in
  mkRState (r_lstate s)
    (mkStats (connectivity_checks st) (outages_started st)
             (outages_completed st + 1) (errors st))
    (ongoing_outages s).

Definition count_error (s : RState) : RState :=
  let st := recovery_stats s in
  mkRState (r_lstate s)
    (mkStats (connectivity_checks st) (outages_started st)
             (outages_completed st) (errors st + 1))
    (ongoing_outages s).

(** [d[k] = v] and [del d[k]] on a dictionary with string keys. *)
Fixpoint dict_set (k v : string) (d : list (string * string))
    : list (string * string) :=
  match d with
  | [] => [(k, v)]
  | (k', v') :: d' =>
      if String.eqb k k' then (k, v) :: d' else (k', v') :: dict_set k v d'
  end.

Definition dict_del (k : string) (d : list (string * string))
    : list (string * string) :=
  filter (fun kv => negb (String.eqb k (fst kv))) d.

Definition set_ongoing (f : list (string * string) -> list (string * string))
    (s : RState) : RState :=
  mkRState (r_lstate s) (recovery_stats s) (f (ongoing_outages s)).

Definition lift_logger {A} (m : M LState A) : M RState A :=
  fun s =>
    let (r, ls) := m (r_lstate s) in
    (r, mkRState ls (recovery_stats s) (ongoing_outages s)).

Section Recovery.
Variable E : Environment.

(** [self.last_successful_upload and record.get('timestamp') and
    record['timestamp'] < self.last_successful_upload.isoformat()]. *)
Definition already_uploaded (record : CheckResult) (l : GoogleSheetsLogger)
    : bool :=
  match last_successful_upload l with
  | Some d =>
      Py.truthy (timestamp record) &&
      String.ltb (timestamp record) (dt_iso d)
  | None => false
  end.

(** The body of [for record in sorted_data]. *)
Definition recover_record (record : CheckResult) : M RState unit :=
  try_except
    (skip <- gets (fun s => already_uploaded record (logger (r_lstate s)));;
     if skip then ret tt
     else
       match connected record with
       | Some _ =>
           lift_logger
             (_execute_with_retry E
                (_log_connectivity_check_direct E record) 2 2);;
           modify count_check
       | None => ret tt
       end;;
       match status_change record with
       | Some (OutageStartEvent ts location) =>
           lift_logger
             (_execute_with_retry E
                (_log_outage_start_direct E location ts) 2 2);;
           modify (set_ongoing (dict_set location ts));;
           modify count_started
       | Some (OutageEndEvent ts location start duration_seconds) =>
           lift_logger
             (_execute_with_retry E
                (_log_outage_end_direct E location start ts
                                        duration_seconds) 2 2);;
           modify (set_ongoing (dict_del location));;
           modify count_completed
       | None => ret tt
       end;;
       lift_logger (sleep (1 # 10)))
    (fun _ => modify count_error).

Fixpoint recover_loop (records : list CheckResult) : M RState unit :=
  match records with
  | [] => ret tt
  | record :: rest => recover_record record;; recover_loop rest
  end.

Definition recover_from_backup (backup_data : list CheckResult)
    : M LState RecoveryStats :=
  match backup_data with
  | [] => ret no_stats
  | _ =>
      fun ls =>
        let sorted_data := Py.sorted timestamp backup_data in
        let (_, s) := recover_loop sorted_data (mkRState ls no_stats []) in
        (Ok (recovery_stats s), r_lstate s)
  end.

End Recovery.

(** ** InternetMonitor *)

(** What [open(BACKUP_FILE)] followed by [json.load] finds in an existing
    backup file: a list of records, some other JSON value (with its truth
    value), text that is not JSON ([json.JSONDecodeError]), or a file that
    cannot be read ([OSError]). *)
Inductive BackupFile :=
| JsonList (records : list CheckResult)
| JsonOther (truth : bool)
| Corrupt
| Unreadable.

Inductive LogLevel := INFO | WARNING | ERROR.

Record InternetMonitor := mkMonitor {
  last_status : option bool;
  outage_start_time : option string;
  connectivity_restored_recently : bool;
  last_backup_recovery : option datetime;
  sheets_logger : option GoogleSheetsLogger
}.

(** The monitor with what it acts on: the world of the logger, the backup
    file ([None] when it does not exist), whether a write of the file
    completes, the messages given to [self.logger], and the number of
    check cycles started.  A write that does not complete fails either in
    [open(BACKUP_FILE, 'w')], which leaves the file as it was, or after
    it, in [json.dump]: [open] has then truncated the file, and what is
    left of it is empty or a part of the text, not valid JSON;
    [fails_after_open] tells which. *)
Record MState := mkMState {
  monitor : InternetMonitor;
  m_world : World;
  backup_file : option BackupFile;
  writable : bool;
  fails_after_open : bool;
  logged : list (LogLevel * string);
  cycle : nat
}.

Definition set_monitor (f : InternetMonitor -> InternetMonitor)
    (s : MState) : MState :=
  mkMState (f (monitor s)) (m_world s) (backup_file s) (writable s)
           (fails_after_open s)
           (logged s) (cycle s).

Definition set_m_world (w : World) (s : MState) : MState :=
  mkMState (monitor s) w (backup_file s) (writable s) (fails_after_open s)
           (logged s) (cycle s).

Definition set_backup_file (f : option BackupFile) (s : MState) : MState :=
  mkMState (monitor s) (m_world s) f (writable s) (fails_after_open s)
           (logged s) (cycle s).

Definition add_log (level : LogLevel) (msg : string) (s : MState) : MState :=
  mkMState (monitor s) (m_world s) (backup_file s) (writable s)
           (fails_after_open s)
           (logged s ++ [(level, msg)]) (cycle s).

Definition next_cycle (s : MState) : MState :=
  mkMState (monitor s) (m_world s) (backup_file s) (writable s)
           (fails_after_open s)
           (logged s) (S (cycle s)).

Definition set_last_status (b : option bool) (m : InternetMonitor) :=
  mkMonitor b (outage_start_time m) (connectivity_restored_recently m)
            (last_backup_recovery m) (sheets_logger m).

Definition set_outage_start_time (t : option string) (m : InternetMonitor) :=
  mkMonitor (last_status m) t (connectivity_restored_recently m)
            (last_backup_recovery m) (sheets_logger m).

Definition set_connectivity_restored_recently (b : bool)
    (m : InternetMonitor) :=
  mkMonitor (last_status m) (outage_start_time m) b
            (last_backup_recovery m) (sheets_logger m).

Definition set_last_backup_recovery (d : option datetime)
    (m : InternetMonitor) :=
  mkMonitor (last_status m) (outage_start_time m)
            (connectivity_restored_recently m) d (sheets_logger m).

Definition set_sheets_logger (l : option GoogleSheetsLogger)
    (m : InternetMonitor) :=
  mkMonitor (last_status m) (outage_start_time m)
            (connectivity_restored_recently m) (last_backup_recovery m) l.

(** [self.logger.info], [.warning] and [.error]; the values formatted
    into the messages are left out. *)
Definition log (level : LogLevel) (msg : string) : M MState unit :=
  modify (add_log level msg).

(** A method call on [self.sheets_logger]. *)
Definition call_logger {A} (l : GoogleSheetsLogger) (m : M LState A)
    : M MState A :=
  fun s =>
    let (r, ls) := m (mkLState l (m_world s)) in
    (r, set_monitor (set_sheets_logger (Some (logger ls)))
          (set_m_world (world ls) s)).

(** [if self.sheets_logger: self.sheets_logger.m(...)]. *)
Definition if_sheets_logger (m : M LState unit) : M MState unit :=
  fun s =>
    match sheets_logger (monitor s) with
    | Some l => call_logger l m s
    | None => (Ok tt, s)
    end.

Definition Qgt_bool (x y : Q) : bool := negb (Qle_bool x y).

Section Monitor.
Variable E : Environment.
Variable config : Config.

(** [datetime.fromisoformat(s.replace('Z', '+00:00'))]. *)
Definition parse_timestamp (s : string) : M MState Instant :=
  match fromisoformat E (Py.replace_Z s) with
  | Some dt => ret dt
  | None => raise (Exception "Invalid isoformat string")
  end.

(** [end_dt - start_dt], in microseconds: a [TypeError] when one of the
    two is offset-naive and the other offset-aware. *)
Definition subtract (end_dt start_dt : Instant) : M MState Z :=
  if Bool.eqb (i_aware end_dt) (i_aware start_dt) then
    ret (i_us end_dt - i_us start_dt)%Z
  else
    raise (Exception
             "can't subtract offset-naive and offset-aware datetimes").

Definition detect_status_change (current_status : bool) (timestamp : string)
    : M MState (option StatusChange) :=
  last <- gets (fun s => last_status (monitor s));;
  match last with
  | None =>
      modify (set_monitor (set_last_status (Some current_status)));;
      ret None
  | Some last =>
      status_change <-
        (if last && negb current_status then
           (* Connection lost *)
           modify (set_monitor (set_outage_start_time (Some timestamp)));;
           modify (set_monitor (set_connectivity_restored_recently false));;
           log WARNING "Internet outage detected";;
           if_sheets_logger
             (log_outage_start E (LOCATION_ID config) timestamp);;
           ret (Some (OutageStartEvent timestamp (LOCATION_ID config)))
         else if negb last && current_status then
           (* Connection restored *)
           modify (set_monitor (set_connectivity_restored_recently true));;
           start <- gets (fun s => outage_start_time (monitor s));;
           match start with
           | Some start_time =>
               if Py.truthy start_time then
                 start_dt <- parse_timestamp start_time;;
                 end_dt <- parse_timestamp timestamp;;
                 delta <- subtract end_dt start_dt;;
                 let duration := total_seconds delta in
                 log INFO "Internet restored";;
                 if_sheets_logger
                   (log_outage_end E (LOCATION_ID config) start_time
                                   timestamp duration);;
                 modify (set_monitor (set_outage_start_time None));;
                 ret (Some (OutageEndEvent timestamp (LOCATION_ID config)
                                           start_time duration))
               else ret None
           | None => ret None
           end
         else ret None);;
      modify (set_monitor (set_last_status (Some current_status)));;
      ret status_change
  end.

(** [datetime.now()] read by the monitor. *)
Definition m_now : M MState datetime :=
  fun s =>
    (Ok (local_now E (clock_reads (m_world s))),
     set_m_world (tick_clock (m_world s)) s).

(** [self.last_backup_recovery is None or
    (now - self.last_backup_recovery).total_seconds() > 300]. *)
Definition cooldown_over (t : datetime) (last : option datetime) : bool :=
  match last with
  | None => true
  | Some d => Qgt_bool (total_seconds (dt_us t - dt_us d)) 300
  end.

Definition attempt_backup_recovery : M MState unit :=
  l <- gets (fun s => sheets_logger (monitor s));;
  match l with
  | None => ret tt
  | Some _ =>
      try_except
        (t <- m_now;;
         restored <-
           gets (fun s => connectivity_restored_recently (monitor s));;
         last <- gets (fun s => last_backup_recovery (monitor s));;
         if restored && cooldown_over t last then
           file <- gets backup_file;;
           match file with
           | None => ret tt
           | Some content =>
               log INFO "Attempting to recover data from local backup...";;
               match content with
               | Corrupt =>
                   log ERROR "Backup file is corrupted, skipping recovery"
               | Unreadable => log ERROR "Error reading backup file"
               | JsonOther truth =>
                   (* a true value that is not a list of records makes
                      recover_from_backup raise *)
                   if truth then
                     raise (Exception "backup data is not a list of records")
                   else ret tt
               | JsonList [] => ret tt
               | JsonList backup_data =>
                   l' <- gets (fun s => sheets_logger (monitor s));;
                   match l' with
                   | Some l' =>
                       call_logger l' (recover_from_backup E backup_data);;
                       log INFO "Backup recovery completed";;
                       modify (set_monitor
                                 (set_last_backup_recovery (Some t)));;
                       modify (set_monitor
                                 (set_connectivity_restored_recently false))
                   | None => ret tt
                   end
               end
           end
         else ret tt)
        (fun _ => log ERROR "Error during backup recovery")
  end.

(** [json.load] of the backup file in [save_local_backup], followed by
    [local_data.append(data)], which raises on a value that is not a
    list. *)
Definition load_and_append (data : CheckResult)
    : M MState (list CheckResult) :=
  file <- gets backup_file;;
  match file with
  | None => ret [data]
  | Some (JsonList local_data) => ret (local_data ++ [data])
  | Some (JsonOther _) =>
      raise (Exception "object has no attribute 'append'")
  | Some Corrupt => raise (Exception "JSONDecodeError")
  | Some Unreadable => raise (Exception "OSError")
  end.

Definition save_local_backup (data : CheckResult) : M MState unit :=
  try_except
    (local_data <- load_and_append data;;
     (* Keep only last 1000 entries *)
     let local_data :=
       if (1000 <? length local_data)%nat then Py.last_n 1000 local_data
       else local_data in
     can_write <- gets writable;;
     if can_write then modify (set_backup_file (Some (JsonList local_data)))
     else
       truncated <- gets fails_after_open;;
       when truncated (modify (set_backup_file (Some Corrupt)));;
       raise (Exception "OSError"))
    (fun _ => log ERROR "Failed to save local backup").

Definition with_status_change (sc : option StatusChange) (r : CheckResult)
    : CheckResult :=
  match sc with
  | Some _ =>
      mkCheck (timestamp r) (location_id r) (connected r) (ping_results r)
              (http_results r) (dns_results r) sc
  | None => r
  end.

Definition run_check : M MState (option CheckResult) :=
  try_except
    (n <- gets cycle;;
     modify next_cycle;;
     let result := comprehensive_check E config n in
     status_change <-
       detect_status_change
         (match connected result with Some b => b | None => false end)
         (timestamp result);;
     let result := with_status_change status_change result in
     save_local_backup result;;
     if_sheets_logger (log_connectivity_check E result);;
     restored <-
       gets (fun s => connectivity_restored_recently (monitor s));;
     when restored attempt_backup_recovery;;
     log INFO "Check completed";;
     ret (Some result))
    (fun _ => log ERROR "Error during connectivity check";; ret None).

End Monitor.

(** The monitor as [__init__] leaves it, with or without a Sheets logger,
    before the first check. *)
Definition initial_monitor (l : option GoogleSheetsLogger)
    : InternetMonitor :=
  mkMonitor None None false None l.

(** ** A parser for the timestamps the monitor writes

    [datetime.now(timezone.utc).isoformat()] prints
    [YYYY-MM-DDTHH:MM:SS[.ffffff]+00:00].  [Iso.parse] reads this format
    (with any [+HH:MM] or [-HH:MM] offset, or none) as microseconds since
    1970-01-01T00:00:00 UTC, offset-aware when there is an offset; it is
    the [fromisoformat] of the concrete environments below. *)

Module Iso.

Definition digit (c : ascii) : option Z :=
  let n := nat_of_ascii c in
  if (48 <=? n)%nat && (n <=? 57)%nat then Some (Z.of_nat (n - 48))
  else None.

(** Reads exactly [n] decimal digits. *)
Fixpoint digits (n : nat) (acc : Z) (s : string) : option (Z * string) :=
  match n with
  | O => Some (acc, s)
  | S n' =>
      match s with
      | String c s' =>
          match digit c with
          | Some d => digits n' (10 * acc + d) s'
          | None => None
          end
      | EmptyString => None
      end
  end.

Definition expect (c : ascii) (s : string) : option string :=
  match s with
  | String c' s' => if Ascii.eqb c c' then Some s' else None
  | EmptyString => None
  end.

(** Days from 1970-01-01 to the given day of the proleptic Gregorian
    calendar. *)
Definition days_from_civil (y m d : Z) : Z :=
  let y' := if (m <=? 2)%Z then (y - 1)%Z else y in
  let era := (y' / 400)%Z in
  let yoe := (y' - era * 400)%Z in
  let mp := if (m <=? 2)%Z then (m + 9)%Z else (m - 3)%Z in
  let doy := ((153 * mp + 2) / 5 + d - 1)%Z in
  let doe := (yoe * 365 + yoe / 4 - yoe / 100 + doy)%Z in
  (era * 146097 + doe - 719468)%Z.

Definition fraction (s : string) : option (Z * string) :=
  match s with
  | String "." s' => digits 6 0 s'
  | _ => Some (0%Z, s)
  end.

(** The offset in seconds; [Some None] when there is none. *)
Definition offset (s : string) : option (option Z) :=
  match s with
  | EmptyString => Some None
  | String sign s1 =>
      match digits 2 0 s1 with
      | Some (h, s2) =>
          match expect ":" s2 with
          | Some s3 =>
              match digits 2 0 s3 with
              | Some (m, EmptyString) =>
                  let secs := (h * 3600 + m * 60)%Z in
                  if Ascii.eqb sign "+" then Some (Some secs)
                  else if Ascii.eqb sign "-" then Some (Some (- secs)%Z)
                  else None
              | _ => None
              end
          | None => None
          end
      | None => None
      end
  end.

Definition bind_opt {A B} (o : option A) (k : A -> option B) : option B :=
  match o with
  | Some a => k a
  | None => None
  end.

Definition parse (s : string) : option Instant :=
  bind_opt (digits 4 0 s) (fun '(y, s) =>
  bind_opt (expect "-" s) (fun s =>
  bind_opt (digits 2 0 s) (fun '(mo, s) =>
  bind_opt (expect "-" s) (fun s =>
  bind_opt (digits 2 0 s) (fun '(d, s) =>
  bind_opt (expect "T" s) (fun s =>
  bind_opt (digits 2 0 s) (fun '(h, s) =>
  bind_opt (expect ":" s) (fun s =>
  bind_opt (digits 2 0 s) (fun '(mi, s) =>
  bind_opt (expect ":" s) (fun s =>
  bind_opt (digits 2 0 s) (fun '(sec, s) =>
  bind_opt (fraction s) (fun '(us, s) =>
  bind_opt (offset s) (fun off =>
  let secs :=
    (((days_from_civil y mo d * 24 + h) * 60 + mi) * 60 + sec
     - match off with Some o => o | None => 0 end)%Z in
  Some (mkInstant (secs * 1000000 + us)
                  (match off with Some _ => true | None => false end))))))))))))))).

End Iso.

(** ** Concrete environments and states for the examples *)

Definition probe_up (t : string) : result ProbeResult :=
  Ok (mkProbe true (Some (12 # 1)%Q) t None 5).

Definition probe_down (t : string) : result ProbeResult :=
  Ok (mkProbe false None t (Some "timeout") 5).

(** A host whose local clock is five hours behind UTC, read a minute
    apart, on the morning of 2024-01-01. *)
Definition clock_west (n : nat) : datetime :=
  mkDatetime (1704085200000000 + Z.of_nat n * 60000000)
             ("2024-01-01T05:0" ++ NilEmpty.string_of_uint (Nat.to_uint n)
              ++ ":00.000001")%string.

(** An environment in which every probe succeeds, given the answers of the
    Sheets service; credentials never expire and the service can always
    be built. *)
Definition env_with (api : nat -> Outcome) : Environment :=
  mkEnv (fun _ => probe_up) (fun _ => probe_up) (fun _ => probe_up)
        (fun n => ("2024-01-01T10:0"
                   ++ NilEmpty.string_of_uint (Nat.to_uint n)
                   ++ ":00+00:00")%string)
        clock_west Iso.parse Qred api (fun _ => false) (fun _ => true).

Definition env_ok : Environment := env_with (fun _ => Success).

(** Every ping fails. *)
Definition env_no_ping : Environment :=
  mkEnv (fun _ => probe_down) (fun _ => probe_up) (fun _ => probe_up)
        (utc_now env_ok) clock_west Iso.parse Qred (fun _ => Success)
        (fun _ => false) (fun _ => true).

(** Pings succeed, HTTP and DNS fail. *)
Definition env_ping_only : Environment :=
  mkEnv (fun _ => probe_up) (fun _ => probe_down) (fun _ => probe_down)
        (utc_now env_ok) clock_west Iso.parse Qred (fun _ => Success)
        (fun _ => false) (fun _ => true).

Definition house1 : Config :=
  mkConfig "house1" 5 5 5
           ["8.8.8.8"; "1.1.1.1"; "208.67.222.222"]
           ["https://google.com"; "https://cloudflare.com";
            "https://github.com"]
           ["8.8.8.8"; "1.1.1.1"].

Definition empty_world : World := mkWorld [] [] [] [] 0 0.

Definition fresh_logger : GoogleSheetsLogger := mkLogger true None [].

(** A monitor before its first check, with a working Sheets logger and no
    backup file yet. *)
Definition fresh_state : MState :=
  mkMState (initial_monitor (Some fresh_logger)) empty_world None true false
           [] 0.

(** ** [Config.validate_config] *)

(** The attributes of [Config] that the check cycle does not read, next
    to those it reads. *)
Record Settings := mkSettings {
  probes : Config;
  CHECK_INTERVAL : Z;
  GOOGLE_SPREADSHEET_ID : string
}.

(** The complaints that [validate_config] prints, by kind. *)
Inductive Complaint :=
| SpreadsheetIdRequired
| TimeoutsNotPositive
| IntervalNotPositive
| PingTargetRequired
| HttpTargetRequired
| DnsServerRequired.

Definition is_empty {A} (l : list A) : bool :=
  match l with [] => true | _ => false end.

(** [if condition: print(...); config_valid = False] on the pair of
    [config_valid] and what was printed so far. *)
Definition complain (condition : bool) (c : Complaint)
    (st : bool * list Complaint) : bool * list Complaint :=
  if condition then (false, snd st ++ [c]) else st.

Definition validate_config (c : Settings) : bool * list Complaint :=
  let st := (true, []) in
  let st := complain (negb (Py.truthy (GOOGLE_SPREADSHEET_ID c)))
                     SpreadsheetIdRequired st in
  let st := complain ((PING_TIMEOUT (probes c) <=? 0)%Z
                      || (HTTP_TIMEOUT (probes c) <=? 0)%Z
                      || (DNS_TIMEOUT (probes c) <=? 0)%Z)
                     TimeoutsNotPositive st in
  let st := complain (CHECK_INTERVAL c <=? 0)%Z IntervalNotPositive st in
  let st := complain (is_empty (PING_TARGETS (probes c)))
                     PingTargetRequired st in
  let st := complain (is_empty (HTTP_TARGETS (probes c)))
                     HttpTargetRequired st in
  let st := complain (is_empty (DNS_SERVERS (probes c)))
                     DnsServerRequired st in
  st.

(** ** [run_continuous] *)

(** The monitor with the attribute that the loop of [run_continuous]
    adds to it: [check_count] does not exist before the first pass
    ([hasattr(self, 'check_count')]). *)
Record Agent := mkAgent {
  a_state : MState;
  check_count : option nat
}.

Definition lift_monitor {A} (m : M MState A) : M Agent A :=
  fun a =>
    let (r, s) := m (a_state a) in
    (r, mkAgent s (check_count a)).

Definition set_check_count (n : nat) (a : Agent) : Agent :=
  mkAgent (a_state a) (Some n).

Section Continuous.
Variable E : Environment.
Variable c : Settings.

(** [time.sleep(self.config.CHECK_INTERVAL)], which raises [ValueError]
    on a negative length. *)
Definition interval_sleep : M MState unit :=
  if (CHECK_INTERVAL c <? 0)%Z then
    raise (Exception "sleep length must be non-negative")
  else
    modify (fun s =>
      set_m_world (add_sleep (inject_Z (CHECK_INTERVAL c)) (m_world s)) s).

(** [if self.sheets_logger.failed_uploads: self.logger.info(...);
    self.sheets_logger._process_failed_uploads()], under
    [if self.sheets_logger]. *)
Definition process_pending (msg : string) : M MState unit :=
  l <- gets (fun s => sheets_logger (monitor s));;
  match l with
  | Some l =>
      if is_empty (failed_uploads l) then ret tt
      else log INFO msg;; call_logger l (_process_failed_uploads E)
  | None => ret tt
  end.

(** One pass of [while True]. *)
Definition loop_pass : M Agent unit :=
  lift_monitor interval_sleep;;
  lift_monitor (run_check E (probes c));;
  count <- gets check_count;;
  let n := match count with Some n => n + 1 | None => 1 end in
  modify (set_check_count n);;
  if (n mod 10 =? 0)%nat then
    lift_monitor (process_pending "Attempting to process failed uploads...")
  else ret tt.

Fixpoint loop (passes : nat) : M Agent unit :=
  match passes with
  | O => ret tt
  | S k => loop_pass;; loop k
  end.

(** [run_continuous] when the loop completes [passes] passes and the
    user's interrupt arrives during the sleep that follows: the
    [except KeyboardInterrupt] clause runs after the [try]; the
    [except Exception] clause logs and raises again. *)
Definition run_continuous (passes : nat) : M Agent unit :=
  lift_monitor
    (log INFO "Starting Internet Monitor";;
     log INFO "Check interval";;
     run_check E (probes c);;
     ret tt);;
  try_except
    (loop passes;; lift_monitor interval_sleep)
    (fun e =>
       lift_monitor (log ERROR "Monitor stopped due to error");;
       raise e);;
  lift_monitor
    (log INFO "Monitor stopped by user";;
     process_pending "Final attempt to upload pending data...").

End Continuous.

(** ** Notions used in the statements *)

(** The tracker fed a sequence of verdicts with their timestamps: the
    result of every call, and the final state. *)
Fixpoint feed (E : Environment) (config : Config)
    (inputs : list (bool * string)) (s : MState)
    : list (result (option StatusChange)) * MState :=
  match inputs with
  | [] => ([], s)
  | (verdict, t) :: rest =>
      let (r, s1) := detect_status_change E config verdict t s in
      let (rs, s2) := feed E config rest s1 in
      (r :: rs, s2)
  end.

(** The events the calls returned, in order. *)
Definition emitted (rs : list (result (option StatusChange)))
    : list StatusChange :=
  flat_map (fun r => match r with Ok (Some e) => [e] | _ => [] end) rs.

Definition is_start (e : StatusChange) : bool :=
  match e with OutageStartEvent _ _ => true | _ => false end.

Definition is_end (e : StatusChange) : bool :=
  match e with OutageEndEvent _ _ _ _ => true | _ => false end.

Definition count {A} (p : A -> bool) (l : list A) : nat :=
  length (filter p l).

(** The number of places where verdict [a] is directly followed by
    verdict [b]. *)
Fixpoint transitions (a b : bool) (vs : list bool) : nat :=
  match vs with
  | [] => 0
  | x :: rest =>
      match rest with
      | y :: _ =>
          (if Bool.eqb x a && Bool.eqb y b then 1 else 0)
          + transitions a b rest
      | [] => 0
      end
  end.

(** The verdicts from the first [true] on. *)
Fixpoint from_first_up (vs : list bool) : list bool :=
  match vs with
  | [] => []
  | false :: rest => from_first_up rest
  | true :: _ => vs
  end.

(** The timestamps the tracker can handle: not empty, and accepted by
    [fromisoformat] after the replacement of [Z]; [aware] tells whether
    the datetime read is offset-aware (as the stamps of the monitor are)
    or offset-naive.  Two stamps that differ in this cannot be
    subtracted. *)
Definition well_formed (E : Environment) (aware : bool) (t : string)
    : Prop :=
  Py.truthy t = true
  /\ exists dt, fromisoformat E (Py.replace_Z t) = Some dt
               /\ i_aware dt = aware.

(** Rows of the Outages sheet that are open for a location and start
    time. *)
Definition open_rows (location start_time : string) (w : World) : nat :=
  count (is_ongoing location start_time) (outages_sheet w).

(** The records in the backup file, when it holds a list (none when the
    file does not exist). *)
Definition buffered (s : MState) : option (list CheckResult) :=
  match backup_file s with
  | None => Some []
  | Some (JsonList l) => Some l
  | Some _ => None
  end.

(** The tracker seen through the two attributes that decide its events,
    [last_status] and [outage_start_time]: one call of
    [detect_status_change] as a function of them
    ([detect_status_change_tracker] below shows that it is). *)
Definition tracker (s : MState) : option bool * option string :=
  (last_status (monitor s), outage_start_time (monitor s)).

Definition tracker_step (E : Environment) (config : Config)
    (st : option bool * option string) (v : bool) (t : string)
    : result (option StatusChange) * (option bool * option string) :=
  match st with
  | (None, start) => (Ok None, (Some v, start))
  | (Some true, start) =>
      if v then (Ok None, (Some true, start))
      else (Ok (Some (OutageStartEvent t (LOCATION_ID config))),
            (Some false, Some t))
  | (Some false, start) =>
      if v then
        match start with
        | Some start_time =>
            if Py.truthy start_time then
              match fromisoformat E (Py.replace_Z start_time),
                    fromisoformat E (Py.replace_Z t) with
              | Some a, Some b =>
                  if Bool.eqb (i_aware b) (i_aware a) then
                    (Ok (Some (OutageEndEvent t (LOCATION_ID config)
                                 start_time
                                 (total_seconds (i_us b - i_us a)))),
                     (Some true, None))
                  else
                    (Raise (Exception
                       "can't subtract offset-naive and offset-aware datetimes"),
                     (Some false, start))
              | _, _ => (Raise (Exception "Invalid isoformat string"),
                         (Some false, start))
              end
            else (Ok None, (Some true, start))
        | None => (Ok None, (Some true, None))
        end
      else (Ok None, (Some false, start))
  end.

Fixpoint tracker_feed (E : Environment) (config : Config)
    (inputs : list (bool * string)) (st : option bool * option string)
    : list (result (option StatusChange)) :=
  match inputs with
  | [] => []
  | (v, t) :: rest =>
      let (r, st') := tracker_step E config st v t in
      r :: tracker_feed E config rest st'
  end.

(** Events that alternate, beginning with an end when an outage is
    [open] and with a start otherwise. *)
Fixpoint alternates (open : bool) (es : list StatusChange) : bool :=
  match es with
  | [] => true
  | e :: es' =>
      if open then is_end e && alternates false es'
      else is_start e && alternates true es'
  end.

Definition is_some {A} (o : option A) : bool :=
  match o with Some _ => true | None => false end.

Definition is_ok {A} (r : result A) : bool :=
  match r with Ok _ => true | Raise _ => false end.

(** The first request that the delivery of an upload sends. *)
Definition first_request (E : Environment) (u : Upload) : ApiCall :=
  match u with
  | ConnectivityCheck data =>
      ValuesAppend Connectivity_Checks (connectivity_row E data)
  | OutageStart location start_time =>
      ValuesAppend Outages (ongoing_row location start_time)
  | OutageEnd _ _ _ _ => ValuesGet
  end.

(** [u['retry_count'] = u.get('retry_count', 0) + 1]. *)
Definition bump (u : FailedUpload) : FailedUpload :=
  set_retry_count (retry_count u + 1) u.





(** The length of the queue of failed uploads, in the logger and in the
    recovery loop; a computation of the recovery loop keeps the queue
    when it does not lengthen it. *)
Definition queue_length (s : LState) : nat :=
  length (failed_uploads (logger s)).

Definition recovery_queue_length (s : RState) : nat :=
  queue_length (r_lstate s).

Definition keeps_queue {A} (m : M RState A) : Prop :=
  forall s, recovery_queue_length (snd (m s)) <= recovery_queue_length s.

(** ** Notions used in the further properties *)

(** The notes name a target after a label: they hold the label and,
    further on, the target. *)
Definition names (notes label t : string) : Prop :=
  exists a m b, notes = (a ++ label ++ m ++ t ++ b)%string.

(** [save_local_backup] called for each record of [ds] in turn. *)
Definition save_all (ds : list CheckResult) (s : MState) : MState :=
  fold_left (fun s d => snd (save_local_backup d s)) ds s.

(** The two attributes of the tracker after a sequence of calls. *)
Fixpoint tracker_final (E : Environment) (config : Config)
    (inputs : list (bool * string)) (st : option bool * option string)
    : option bool * option string :=
  match inputs with
  | [] => st
  | (v, t) :: rest =>
      tracker_final E config rest (snd (tracker_step E config st v t))
  end.

(** Events that come in pairs: an [outage_start] when no outage is
    [open], then the [outage_end] that names the timestamp of that start,
    the same location, and the seconds between the two timestamps, which
    are both offset-aware or both offset-naive. *)
Fixpoint pairs (E : Environment) (location : string) (open : option string)
    (es : list StatusChange) : Prop :=
  match es with
  | [] => True
  | OutageStartEvent t l :: es' =>
      open = None /\ l = location /\ pairs E location (Some t) es'
  | OutageEndEvent t l start d :: es' =>
      open = Some start /\ l = location
      /\ (exists a b,
            fromisoformat E (Py.replace_Z start) = Some a
            /\ fromisoformat E (Py.replace_Z t) = Some b
            /\ i_aware a = i_aware b
            /\ d = total_seconds (i_us b - i_us a))
      /\ pairs E location None es'
  end.

(** The cells that [_log_outage_end_direct] writes into columns C to G
    of the row it closes, and the complete row it appends when it finds
    no open row. *)
Definition closing_cells (E : Environment) (end_time : string)
    (duration_seconds : Q) : Row :=
  [ CStr end_time; CNum duration_seconds;
    CNum (round2 E (duration_seconds / 60)%Q);
    CNum (round2 E (duration_seconds / 3600)%Q); CStr "RESOLVED" ].

Definition resolved_row (E : Environment)
    (location start_time end_time : string) (duration_seconds : Q) : Row :=
  CStr location :: CStr start_time :: closing_cells E end_time duration_seconds.

(** The two sheets, and what they hold after the service has accepted
    the requests of an upload: a connectivity row or an [ONGOING] row
    below the last row, or the first open row of the outage closed (a
    complete [RESOLVED] row below the last row when it has none). *)
Definition sheets (w : World) : list Row * list Row :=
  (checks_sheet w, outages_sheet w).

Definition delivered (E : Environment) (u : Upload)
    (sh : list Row * list Row) : list Row * list Row :=
  match u with
  | ConnectivityCheck data => (fst sh ++ [connectivity_row E data], snd sh)
  | OutageStart location start_time =>
      (fst sh, snd sh ++ [ongoing_row location start_time])
  | OutageEnd location start_time end_time duration_seconds =>
      (fst sh,
       match find_ongoing location start_time (snd sh) 0 with
       | Some i =>
           update_row i (closing_cells E end_time duration_seconds) (snd sh)
       | None =>
           snd sh ++ [resolved_row E location start_time end_time
                                   duration_seconds]
       end)
  end.

(** The requests that the delivery of an upload takes. *)
Definition requests_of (u : Upload) : nat :=
  match u with
  | OutageEnd _ _ _ _ => 2
  | _ => 1
  end.

(** The sleep of [_execute_with_retry] after a failed attempt:
    [backoff_factor ** attempt], five times as long after a rate
    limit. *)
Definition retry_delay (backoff_factor : Z) (o : Outcome) (attempt : nat) : Q :=
  match o with
  | Failure (HttpError status) =>
      if (status =? 429)%Z then rate_limit_backoff backoff_factor attempt
      else backoff backoff_factor attempt
  | _ => backoff backoff_factor attempt
  end.

(** The uploads that are delivered with one request. *)
Definition single_request (u : Upload) : bool :=
  match u with
  | OutageEnd _ _ _ _ => false
  | _ => true
  end.

(** [_process_failed_uploads] called [n] times in a row. *)
Definition process_rounds (E : Environment) (n : nat) (s : LState) : LState :=
  Nat.iter n (fun s => snd (_process_failed_uploads E s)) s.

(** A host whose local clock is two hours ahead of UTC, read a minute
    apart, from 10:00 UTC on 2024-01-01. *)
Definition clock_east (n : nat) : datetime :=
  mkDatetime (1704103200000000 + Z.of_nat n * 60000000)
             ("2024-01-01T12:0" ++ NilEmpty.string_of_uint (Nat.to_uint n)
              ++ ":00.000001")%string.

(** The environment [env_ok] on that host. *)
Definition env_east : Environment :=
  mkEnv (fun _ => probe_up) (fun _ => probe_up) (fun _ => probe_up)
        (utc_now env_ok) clock_east Iso.parse Qred
        (fun _ => Success) (fun _ => false) (fun _ => true).

(** The queue of failed uploads that the monitor's logger holds. *)
Definition pending (s : MState) : list FailedUpload :=
  match sheets_logger (monitor s) with
  | Some l => failed_uploads l
  | None => []
  end.

(** The start of an open outage, if the monitor holds one, is a
    timestamp that it can parse, offset-aware or not as [aware] says. *)
Definition parsable_start (E : Environment) (aware : bool) (s : MState)
    : Prop :=
  forall st,
    outage_start_time (monitor s) = Some st -> well_formed E aware st.

(** * Properties *)

(** ** Python helpers *)

Lemma last_n_length {A} (n : nat) (l : list A) :
  length (Py.last_n n l) = Nat.min n (length l).
Proof. unfold Py.last_n; rewrite length_skipn; lia. Qed.

Lemma last_n_snoc {A} (n : nat) (x y : A) (l : list A) :
  length l = n -> Py.last_n (S n) (x :: l ++ [y]) = l ++ [y].
Proof.
  intros H; unfold Py.last_n; cbn [length].
  rewrite length_app; cbn [length].
  replace (S (length l + 1) - S n) with 1 by lia; reflexivity.
Qed.

(** ** ProbeEngine *)

Lemma any_false {A} (f : A -> bool) (l : list A) :
  Forall (fun x => f x = false) l -> Py.any f l = false.
Proof.
  unfold Py.any; induction 1 as [|x l Hx _ IH]; cbn; [reflexivity|].
  rewrite Hx, IH; reflexivity.
Qed.

Lemma any_map_probe (probe : string -> result ProbeResult) timeout targets :
  Py.any success (map (probe_or_failure probe timeout) targets) = true <->
  exists t r, In t targets /\ probe t = Ok r /\ success r = true.
Proof.
  unfold Py.any. rewrite existsb_exists. split.
  - intros (x & Hin & Hx). apply in_map_iff in Hin as (t & <- & Ht).
    unfold probe_or_failure in Hx.
    destruct (probe t) as [r|e] eqn:Hp; [|discriminate].
    exists t, r. auto.
  - intros (t & r & Ht & Hp & Hr).
    exists r. split; [|exact Hr].
    apply in_map_iff. exists t. split; [|exact Ht].
    unfold probe_or_failure. rewrite Hp. reflexivity.
Qed.

Lemma any_map_failed (probe : string -> result ProbeResult) timeout targets :
  (forall t, In t targets ->
     forall r, probe t = Ok r -> success r = false) ->
  Py.any success (map (probe_or_failure probe timeout) targets) = false.
Proof.
  intros H. apply any_false, Forall_forall.
  intros x Hin. apply in_map_iff in Hin as (t & <- & Ht).
  unfold probe_or_failure.
  destruct (probe t) as [r|e] eqn:Hp; [apply (H t Ht r Hp) | reflexivity].
Qed.

(** C1.  In every check cycle each configured target is probed once, in
    the order of the configuration (a probe that raises gives a failed
    result for its target), and the verdict is
    [any ping succeeded AND (any HTTP succeeded OR any DNS succeeded)]
    over these results.  So it is true exactly when some ping target
    answered and some HTTP target or DNS server answered; it is false
    when every ping probe failed, and false when every HTTP and every
    DNS probe failed, whatever the pings did. *)
Theorem comprehensive_check_verdict
    (E : Environment) (config : Config) (cycle : nat) :
  let r := comprehensive_check E config cycle in
  let answered probe targets :=
    exists t p, In t targets /\ probe t = Ok p /\ success p = true in
  let all_failed (probe : string -> result ProbeResult) targets :=
    forall t, In t targets ->
    forall p, probe t = Ok p -> success p = false in
  ping_results r =
    map (probe_or_failure (ping_test E cycle) (PING_TIMEOUT config))
        (PING_TARGETS config)
  /\ http_results r =
     map (probe_or_failure (http_test E cycle) (HTTP_TIMEOUT config))
         (HTTP_TARGETS config)
  /\ dns_results r =
     map (probe_or_failure (dns_test E cycle) (DNS_TIMEOUT config))
         (DNS_SERVERS config)
  /\ connected r =
     Some (Py.any success (ping_results r) &&
           (Py.any success (http_results r) ||
            Py.any success (dns_results r)))
  /\ (connected r = Some true <->
      answered (ping_test E cycle) (PING_TARGETS config)
      /\ (answered (http_test E cycle) (HTTP_TARGETS config)
          \/ answered (dns_test E cycle) (DNS_SERVERS config)))
  /\ (all_failed (ping_test E cycle) (PING_TARGETS config) ->
      connected r = Some false)
  /\ (all_failed (http_test E cycle) (HTTP_TARGETS config) ->
      all_failed (dns_test E cycle) (DNS_SERVERS config) ->
      connected r = Some false).
Proof.
  cbn zeta. unfold comprehensive_check.
  cbn [connected ping_results http_results dns_results].
  do 4 (split; [reflexivity|]). split; [|split].
  - rewrite <- !any_map_probe. split.
    + intros [= H]. apply andb_prop in H as [Hp H].
      apply orb_prop in H. rewrite Hp. split; [reflexivity | exact H].
    + intros [Hp [Hh|Hd]]; rewrite Hp; [rewrite Hh | rewrite Hd];
        rewrite ?orb_true_r; reflexivity.
  - intros Hp. rewrite (any_map_failed _ _ _ Hp). reflexivity.
  - intros Hh Hd.
    rewrite (any_map_failed _ _ _ Hh), (any_map_failed _ _ _ Hd).
    rewrite andb_false_r. reflexivity.
Qed.

Lemma comprehensive_check_verdict_witness :
  connected (comprehensive_check env_ok house1 0) = Some true
  /\ connected (comprehensive_check env_no_ping house1 0) = Some false
  /\ connected (comprehensive_check env_ping_only house1 0) = Some false.
Proof.
  split; [|split].
  - apply (proj2 (proj1 (proj2 (proj2 (proj2 (proj2
             (comprehensive_check_verdict env_ok house1 0))))))).
    split; [|left]; eexists _, _; (split; [left; reflexivity|]);
      split; reflexivity.
  - apply (proj1 (proj2 (proj2 (proj2 (proj2 (proj2
             (comprehensive_check_verdict env_no_ping house1 0))))))).
    intros t _ p [= <-]. reflexivity.
  - apply (proj2 (proj2 (proj2 (proj2 (proj2 (proj2
             (comprehensive_check_verdict env_ping_only house1 0)))))));
      intros t _ p [= <-]; reflexivity.
Defined.

(** ** The failed-upload queue never makes a logging call raise *)

Lemma _store_failed_upload_ok E u s :
  exists s', _store_failed_upload E u s = (Ok tt, s').
Proof.
  unfold _store_failed_upload, bind, now, gets, when, modify, ret.
  destruct (100 <=? _)%nat; eexists; reflexivity.
Qed.

Lemma log_upload_ok E u s : exists s', log_upload E u s = (Ok tt, s').
Proof.
  unfold log_upload, try_except.
  destruct (_execute_with_retry _ _ _ _ s) as [[[]|e] s1].
  - eexists; reflexivity.
  - apply _store_failed_upload_ok.
Qed.

(** Seen from the monitor, a logging call returns normally and touches
    only the logger and its world. *)
Lemma if_sheets_logger_log_upload E u s :
  exists l w,
    if_sheets_logger (log_upload E u) s =
    (Ok tt, set_monitor (set_sheets_logger l) (set_m_world w s)).
Proof.
  unfold if_sheets_logger.
  destruct (sheets_logger (monitor s)) as [l|] eqn:Hl.
  - unfold call_logger.
    destruct (log_upload_ok E u (mkLState l (m_world s))) as [ls H].
    rewrite H. exists (Some (logger ls)), (world ls). reflexivity.
  - exists None, (m_world s).
    destruct s as [[] ? ? ? ? ?]; cbn in *; subst; reflexivity.
Qed.

(** ** OutageTracker *)

Ltac run_in H :=
  cbv beta iota zeta
      delta [bind gets modify ret raise log when try_except] in H.

Ltac use_logger_call H :=
  match type of H with
  | context [if_sheets_logger (?f ?E ?a ?b) ?s0] =>
      let l := fresh "l" in let w := fresh "w" in let Hc := fresh "Hc" in
      unfold f in H;
      destruct (if_sheets_logger_log_upload E (OutageStart a b) s0)
        as (l & w & Hc);
      rewrite Hc in H; clear Hc
  | context [if_sheets_logger (?f ?E ?a ?b ?c ?d) ?s0] =>
      let l := fresh "l" in let w := fresh "w" in let Hc := fresh "Hc" in
      unfold f in H;
      destruct (if_sheets_logger_log_upload E (OutageEnd a b c d) s0)
        as (l & w & Hc);
      rewrite Hc in H; clear Hc
  end.

(** The event returned and the two attributes after a call depend only
    on the two attributes before it. *)
Lemma detect_status_change_tracker E config v t s r s' :
  detect_status_change E config v t s = (r, s') ->
  tracker_step E config (tracker s) v t = (r, tracker s').
Proof.
  unfold detect_status_change, tracker_step, tracker, parse_timestamp,
    subtract.
  intros H; run_in H.
  destruct (last_status (monitor s)) as [[|]|] eqn:Hlast.
  - destruct v; cbn [andb negb] in H.
    + inversion H; subst; cbn; rewrite ?Hlast; reflexivity.
    + use_logger_call H. inversion H; subst; reflexivity.
  - destruct v; cbn [andb negb] in H.
    + cbn [outage_start_time monitor set_monitor
           set_connectivity_restored_recently] in H.
      destruct (outage_start_time (monitor s)) as [st|] eqn:Hst.
      * destruct (Py.truthy st).
        -- destruct (fromisoformat E (Py.replace_Z st)) as [a|].
           ++ destruct (fromisoformat E (Py.replace_Z t)) as [b|].
              ** destruct (Bool.eqb (i_aware b) (i_aware a)).
                 --- use_logger_call H. inversion H; subst; reflexivity.
                 --- inversion H; subst; cbn; rewrite ?Hlast, ?Hst;
                       reflexivity.
              ** inversion H; subst; cbn; rewrite ?Hlast, ?Hst; reflexivity.
           ++ inversion H; subst; cbn; rewrite ?Hlast, ?Hst; reflexivity.
        -- inversion H; subst; cbn; rewrite ?Hlast, ?Hst; reflexivity.
      * inversion H; subst; cbn; rewrite ?Hlast, ?Hst; reflexivity.
    + inversion H; subst; cbn; rewrite ?Hlast, ?Hst; reflexivity.
  - inversion H; subst; reflexivity.
Qed.

Lemma feed_tracker_feed E config inputs : forall s,
  fst (feed E config inputs s) = tracker_feed E config inputs (tracker s).
Proof.
  induction inputs as [|[v t] rest IH]; intros s; [reflexivity|].
  cbn [feed tracker_feed].
  destruct (detect_status_change E config v t s) as [r s1] eqn:Hd.
  rewrite (detect_status_change_tracker _ _ _ _ _ _ _ Hd).
  specialize (IH s1). destruct (feed E config rest s1); cbn [fst] in *.
  now rewrite IH.
Qed.

Lemma alternates_between o l1 a l2 b l3 :
  alternates o (l1 ++ a :: l2 ++ b :: l3) = true ->
  is_start a = true -> is_start b = true ->
  exists e, In e l2 /\ is_end e = true.
Proof.
  revert o; induction l1 as [|x l1 IH]; intros o H Ha Hb.
  - cbn in H. destruct o.
    + destruct a; cbn in *; discriminate.
    + rewrite Ha in H; cbn in H.
      destruct l2 as [|e l2]; cbn in H.
      * destruct b; cbn in *; discriminate.
      * apply andb_prop in H as [He _]. exists e; split; [now left|exact He].
  - cbn in H. destruct o; apply andb_prop in H as [_ H]; eauto.
Qed.

(** The counts from any state in which a verdict has been seen: [b] is
    the last verdict and [o] the start of the open outage, if any. *)
Lemma tracker_feed_known E config aware inputs : forall b o,
  (forall st, o = Some st -> well_formed E aware st) ->
  Forall (well_formed E aware) (map snd inputs) ->
  let rs := tracker_feed E config inputs (Some b, o) in
  forallb is_ok rs = true
  /\ count is_start (emitted rs) = transitions true false (b :: map fst inputs)
  /\ count is_end (emitted rs) =
     transitions false true
       (if is_some o then b :: map fst inputs
        else from_first_up (b :: map fst inputs))
  /\ alternates (negb b && is_some o) (emitted rs) = true.
Proof.
  induction inputs as [|[v t] rest IH]; intros b o Ho Hwf.
  - cbn. destruct o, b; cbn; auto.
  - cbn zeta. cbn [tracker_feed].
    inversion Hwf as [|? ? Ht Hwf']; subst.
    assert (Hnone : forall st',
              @None string = Some st' -> well_formed E aware st')
      by discriminate.
    assert (Hsome : forall st',
              Some t = Some st' -> well_formed E aware st')
      by (intros ? [= <-]; exact Ht).
    destruct Ht as (Ht1 & c & Ht2 & Ht3).
    cbn [map fst snd].
    destruct b, v; cbn [tracker_step].
    + (* up, up *)
      destruct (IH true o Ho Hwf') as (H1 & H2 & H3 & H4).
      cbn [forallb is_ok emitted flat_map app andb].
      fold (emitted (tracker_feed E config rest (Some true, o))).
      repeat split; auto. rewrite H3. destruct o; reflexivity.
    + (* up, down: an outage starts *)
      destruct (IH false (Some t) Hsome Hwf') as (H1 & H2 & H3 & H4).
      cbn [forallb is_ok emitted flat_map app andb].
      fold (emitted (tracker_feed E config rest (Some false, Some t))).
      cbn in H3, H4. unfold count in *.
      repeat split; auto; cbn; rewrite ?H2, ?H3; auto.
      destruct o; reflexivity.
    + (* down, up *)
      destruct o as [st|].
      * (* an outage is open: it ends *)
        destruct (Ho st eq_refl) as (Hst1 & a & Hst2 & Hst3).
        rewrite Hst1, Hst2, Ht2, Ht3, Hst3, eqb_reflx.
        destruct (IH true None Hnone Hwf') as (H1 & H2 & H3 & H4).
        cbn [forallb is_ok emitted flat_map app andb].
        fold (emitted (tracker_feed E config rest (Some true, None))).
        cbn in H3, H4. unfold count in *.
        repeat split; auto; cbn; rewrite ?H2, ?H3; auto.
      * (* the first verdicts were down: nothing to end *)
        destruct (IH true None Ho Hwf') as (H1 & H2 & H3 & H4).
        cbn [forallb is_ok emitted flat_map app andb].
        fold (emitted (tracker_feed E config rest (Some true, None))).
        cbn in H3, H4.
        repeat split; auto.
    + (* down, down *)
      destruct (IH false o Ho Hwf') as (H1 & H2 & H3 & H4).
      cbn [forallb is_ok emitted flat_map app andb].
      fold (emitted (tracker_feed E config rest (Some false, o))).
      repeat split; auto. rewrite H3. destruct o; reflexivity.
Qed.

(** The counts differ for a monitor that starts while the connection is
    down: the verdicts [false, true] contain one false-to-true
    transition, but no outage was open and no [outage_end] is emitted. *)
Lemma initial_down_run_emits_no_outage_end :
  let inputs := [(false, "2024-01-01T10:00:00+00:00");
                 (true, "2024-01-01T10:01:00+00:00")] in
  let rs := fst (feed env_ok house1 inputs fresh_state) in
  rs = [Ok None; Ok None]
  /\ count is_end (emitted rs) <> transitions false true (map fst inputs).
Proof. vm_compute. split; [reflexivity | discriminate]. Qed.

(** C2, amended.  From the initial state and for timestamps that are not
    empty, that [fromisoformat] accepts and that are all offset-aware
    (as the monitor's own stamps are) or all offset-naive, no call
    raises; the number of [outage_start] events is the number of
    true-to-false transitions; the number of [outage_end] events is the
    number of false-to-true transitions from the first true verdict on
    (leaving a run of false verdicts at the very beginning emits
    nothing); and between two [outage_start] events there is an
    [outage_end]. *)
Theorem tracker_event_counts
    (E : Environment) (config : Config)
    (aware : bool) (inputs : list (bool * string)) (s : MState) :
  last_status (monitor s) = None ->
  outage_start_time (monitor s) = None ->
  Forall (well_formed E aware) (map snd inputs) ->
  let rs := fst (feed E config inputs s) in
  let verdicts := map fst inputs in
  forallb is_ok rs = true
  /\ count is_start (emitted rs) = transitions true false verdicts
  /\ count is_end (emitted rs) =
     transitions false true (from_first_up verdicts)
  /\ (forall l1 a l2 b l3,
        emitted rs = l1 ++ a :: l2 ++ b :: l3 ->
        is_start a = true -> is_start b = true ->
        exists e, In e l2 /\ is_end e = true).
Proof.
  intros Hlast Hstart Hwf; cbn zeta.
  rewrite feed_tracker_feed. unfold tracker. rewrite Hlast, Hstart.
  destruct inputs as [|[v t] rest].
  - cbn. repeat split; auto.
    intros [|] ? ? ? ? H; discriminate H.
  - cbn [tracker_feed tracker_step map fst snd] in *.
    inversion Hwf as [|? ? _ Hwf']; subst.
    destruct (tracker_feed_known E config aware rest v None)
      as (H1 & H2 & H3 & H4); [discriminate | exact Hwf' |].
    cbn [forallb is_ok emitted flat_map app andb].
    fold (emitted (tracker_feed E config rest (Some v, None))).
    cbn [is_some] in H3. rewrite andb_false_r in H4.
    repeat split; auto.
    intros l1 a l2 b l3 Heq. rewrite Heq in H4.
    eapply alternates_between; eassumption.
Qed.

Lemma tracker_event_counts_witness :
  let inputs := [(false, utc_now env_ok 0); (true, utc_now env_ok 1);
                 (false, utc_now env_ok 2); (true, utc_now env_ok 3)] in
  let rs := fst (feed env_ok house1 inputs fresh_state) in
  count is_start (emitted rs) = 1 /\ count is_end (emitted rs) = 1.
Proof.
  pose proof (tracker_event_counts env_ok house1 true
    [(false, utc_now env_ok 0); (true, utc_now env_ok 1);
     (false, utc_now env_ok 2); (true, utc_now env_ok 3)] fresh_state
    eq_refl eq_refl) as H.
  cbn zeta in *.
  destruct H as (_ & H2 & H3 & _).
  - repeat constructor; eexists; split; reflexivity.
  - split; [rewrite H2 | rewrite H3]; reflexivity.
Defined.

(** C3.  Verdicts [true, true, false, false, true] at timestamps sixty
    seconds apart, from the initial state: the third call returns an
    [outage_start] at [t2], the fifth an [outage_end] at [t4] whose
    [outage_start] is [t2] and whose duration is 120 seconds; the other
    calls return no event. *)
Theorem tracker_scenario
    (E : Environment) (config : Config) (s : MState)
    (t0 t1 t2 t3 t4 : string) (u : Z) (aware : bool) :
  last_status (monitor s) = None ->
  outage_start_time (monitor s) = None ->
  Py.truthy t2 = true ->
  fromisoformat E (Py.replace_Z t0) = Some (mkInstant u aware) ->
  fromisoformat E (Py.replace_Z t1)
    = Some (mkInstant (u + 60000000) aware) ->
  fromisoformat E (Py.replace_Z t2)
    = Some (mkInstant (u + 120000000) aware) ->
  fromisoformat E (Py.replace_Z t3)
    = Some (mkInstant (u + 180000000) aware) ->
  fromisoformat E (Py.replace_Z t4)
    = Some (mkInstant (u + 240000000) aware) ->
  let rs :=
    fst (feed E config
           [(true, t0); (true, t1); (false, t2); (false, t3); (true, t4)] s) in
  rs = [Ok None; Ok None;
        Ok (Some (OutageStartEvent t2 (LOCATION_ID config)));
        Ok None;
        Ok (Some (OutageEndEvent t4 (LOCATION_ID config) t2 120))]
  /\ emitted rs =
     [OutageStartEvent t2 (LOCATION_ID config);
      OutageEndEvent t4 (LOCATION_ID config) t2 120].
Proof.
  intros Hlast Hstart Htruthy _ _ H2 _ H4; cbn zeta.
  rewrite feed_tracker_feed. unfold tracker. rewrite Hlast, Hstart.
  cbn [tracker_feed tracker_step]. rewrite Htruthy, H2, H4.
  cbn [i_us i_aware]. rewrite eqb_reflx.
  replace (u + 240000000 - (u + 120000000))%Z with 120000000%Z by lia.
  split; reflexivity.
Qed.

Lemma tracker_scenario_witness :
  emitted
    (fst (feed env_ok house1
            [(true, "2024-01-01T10:00:00+00:00");
             (true, "2024-01-01T10:01:00+00:00");
             (false, "2024-01-01T10:02:00+00:00");
             (false, "2024-01-01T10:03:00+00:00");
             (true, "2024-01-01T10:04:00+00:00")] fresh_state))
  = [OutageStartEvent "2024-01-01T10:02:00+00:00" "house1";
     OutageEndEvent "2024-01-01T10:04:00+00:00" "house1"
                    "2024-01-01T10:02:00+00:00" 120].
Proof.
  apply (tracker_scenario env_ok house1 fresh_state
           "2024-01-01T10:00:00+00:00" "2024-01-01T10:01:00+00:00"
           "2024-01-01T10:02:00+00:00" "2024-01-01T10:03:00+00:00"
           "2024-01-01T10:04:00+00:00" 1704103200000000 true);
    reflexivity.
Defined.

(** A timestamp that [fromisoformat] refuses makes the tracker raise at
    the end of an outage; the verdict is then not recorded. *)
Example tracker_raises_on_unreadable_timestamp :
  fst (feed env_ok house1
         [(true, "2024-01-01T10:00:00+00:00");
          (false, "2024-01-01T10:01:00+00:00");
          (true, "today")] fresh_state)
  = [Ok None;
     Ok (Some (OutageStartEvent "2024-01-01T10:01:00+00:00" "house1"));
     Raise (Exception "Invalid isoformat string")].
Proof. vm_compute. reflexivity. Qed.

(** A timestamp without an offset cannot be subtracted from one of the
    monitor's own: the tracker raises at the end of such an outage, and
    the verdict is not recorded. *)
Example tracker_raises_on_mixed_timestamps :
  let out := feed env_ok house1
               [(true, "2024-01-01T10:00:00+00:00");
                (false, "2024-01-01T10:01:00");
                (true, "2024-01-01T10:02:00+00:00")] fresh_state in
  nth_error (fst out) 2 =
    Some (Raise (Exception
            "can't subtract offset-naive and offset-aware datetimes"))
  /\ last_status (monitor (snd out)) = Some false
  /\ outage_start_time (monitor (snd out)) = Some "2024-01-01T10:01:00".
Proof. vm_compute. repeat split; reflexivity. Qed.

(** The tracker records a negative duration: when the clock steps back
    during an outage (start at 10:06, end at 10:03), the call returns an
    [outage_end] with duration -180 seconds and raises nothing. *)
Lemma negative_duration_is_recorded :
  let rs :=
    fst (feed env_ok house1
           [(true, "2024-01-01T10:05:00+00:00");
            (false, "2024-01-01T10:06:00+00:00");
            (true, "2024-01-01T10:03:00+00:00")] fresh_state) in
  nth_error rs 2 =
    Some (Ok (Some (OutageEndEvent "2024-01-01T10:03:00+00:00" "house1"
                                   "2024-01-01T10:06:00+00:00" (-180 # 1))))
  /\ ~ (0 <= -180 # 1)%Q.
Proof.
  split; [vm_compute; reflexivity|].
  unfold Qle; cbn; lia.
Qed.

Lemma total_seconds_sign (us : Z) : (0 <= total_seconds us)%Q <-> (0 <= us)%Z.
Proof.
  unfold total_seconds. rewrite Qred_correct.
  unfold Qle; cbn. lia.
Qed.

(** A whole number of seconds is recorded as it is. *)
Lemma total_seconds_whole (n : Z) :
  total_seconds (n * 1000000) = inject_Z n.
Proof.
  unfold total_seconds, inject_Z.
  rewrite (Qred_complete (n * 1000000 # 1000000) (n # 1))
    by (unfold Qeq; cbn [Qnum Qden]; lia).
  unfold Qred.
  pose proof (Z.ggcd_gcd n 1) as Hg.
  pose proof (Z.ggcd_correct_divisors n 1) as Hd.
  destruct (Z.ggcd n 1) as [g [p q]]. cbn [fst snd] in *.
  rewrite Z.gcd_1_r in Hg. subst g. destruct Hd as [Hp Hq].
  rewrite Z.mul_1_l in Hp, Hq. subst. reflexivity.
Qed.

(** C8, amended.  At a false-to-true transition with an open outage whose
    start and end timestamps parse and are both offset-aware or both
    offset-naive, the call returns an [outage_end] whose duration is the
    end minus the start, in seconds: a whole number of seconds is
    recorded as that number, and the duration is non-negative exactly
    when the end is not earlier than the start.  The tracker makes no
    check of its own.  When one of the two timestamps is offset-naive and
    the other offset-aware, the subtraction raises and no event is
    returned. *)
Theorem outage_end_duration
    (E : Environment) (config : Config) (s : MState)
    (start_time t : string) (a b : Instant) :
  last_status (monitor s) = Some false ->
  outage_start_time (monitor s) = Some start_time ->
  Py.truthy start_time = true ->
  fromisoformat E (Py.replace_Z start_time) = Some a ->
  fromisoformat E (Py.replace_Z t) = Some b ->
  let d := total_seconds (i_us b - i_us a) in
  (i_aware a = i_aware b ->
   fst (detect_status_change E config true t s) =
     Ok (Some (OutageEndEvent t (LOCATION_ID config) start_time d))
   /\ (forall n, (i_us b - i_us a = n * 1000000)%Z -> d = inject_Z n)
   /\ ((0 <= d)%Q <-> (i_us a <= i_us b)%Z))
  /\ (i_aware a <> i_aware b ->
      fst (detect_status_change E config true t s) =
        Raise (Exception
                 "can't subtract offset-naive and offset-aware datetimes")).
Proof.
  intros Hlast Hstart Htruthy Ha Hb; cbn zeta.
  destruct (detect_status_change E config true t s) as [r s'] eqn:Hd.
  apply detect_status_change_tracker in Hd.
  unfold tracker in Hd. rewrite Hlast, Hstart in Hd.
  cbn [tracker_step] in Hd. rewrite Htruthy, Ha, Hb in Hd.
  cbn [fst]. split.
  - intros Haw. rewrite Haw, eqb_reflx in Hd.
    split; [congruence|]. split.
    + intros n ->. apply total_seconds_whole.
    + rewrite total_seconds_sign. lia.
  - intros Haw.
    destruct (Bool.eqb (i_aware b) (i_aware a)) eqn:Heq; [|congruence].
    apply eqb_prop in Heq. congruence.
Qed.

Lemma outage_end_duration_witness :
  let s := snd (feed env_ok house1
                  [(true, "2024-01-01T10:00:00+00:00");
                   (false, "2024-01-01T10:01:00+00:00")] fresh_state) in
  fst (detect_status_change env_ok house1 true
         "2024-01-01T10:03:30+00:00" s) =
    Ok (Some (OutageEndEvent "2024-01-01T10:03:30+00:00" "house1"
                             "2024-01-01T10:01:00+00:00" 150)).
Proof.
  cbn zeta.
  apply (proj1 (outage_end_duration env_ok house1
                  (snd (feed env_ok house1
                          [(true, "2024-01-01T10:00:00+00:00");
                           (false, "2024-01-01T10:01:00+00:00")]
                          fresh_state))
                  "2024-01-01T10:01:00+00:00" "2024-01-01T10:03:30+00:00"
                  (mkInstant 1704103260000000 true)
                  (mkInstant 1704103410000000 true)
                  eq_refl eq_refl eq_refl eq_refl eq_refl)).
  reflexivity.
Defined.

(** ** DurableBuffer: the backup file *)

(** What [save_local_backup] does to a backup file that holds a list (or
    does not exist yet) and can be written. *)
Lemma save_local_backup_list (data : CheckResult) (s : MState)
    (l : list CheckResult) :
  buffered s = Some l -> writable s = true ->
  save_local_backup data s =
  (Ok tt,
   set_backup_file
     (Some (JsonList (if (1000 <? length (l ++ [data]))%nat
                      then Py.last_n 1000 (l ++ [data])
                      else l ++ [data]))) s).
Proof.
  unfold buffered, save_local_backup, load_and_append.
  intros Hb Hw.
  cbv beta iota zeta delta [bind gets modify ret raise log try_except].
  destruct (backup_file s) as [[l'| | |]|]; inversion Hb; subst;
    rewrite Hw; reflexivity.
Qed.

(** C6.  Appending to a backup file that holds exactly 1000 records drops
    the oldest record alone and leaves the 1000 newest, in order;
    appending to a file with fewer than 1000 records drops nothing. *)
Theorem save_local_backup_capacity (data : CheckResult) (s : MState)
    (l : list CheckResult) :
  buffered s = Some l -> writable s = true ->
  let s' := snd (save_local_backup data s) in
  fst (save_local_backup data s) = Ok tt
  /\ (length l = 1000 ->
      exists oldest rest,
        l = oldest :: rest
        /\ buffered s' = Some (rest ++ [data])
        /\ length (rest ++ [data]) = 1000)
  /\ (length l < 1000 -> buffered s' = Some (l ++ [data])).
Proof.
  intros Hb Hw; cbn zeta.
  rewrite (save_local_backup_list data s l Hb Hw); cbn [fst snd].
  split; [reflexivity|]; split.
  - intros Hlen. destruct l as [|oldest rest]; [discriminate Hlen|].
    exists oldest, rest. split; [reflexivity|].
    cbn [length] in Hlen.
    assert (Hrest : length rest = 999) by lia.
    assert (Hlt : (1000 <? length ((oldest :: rest) ++ [data]))%nat = true).
    { apply Nat.ltb_lt. rewrite length_app; cbn [length]; lia. }
    rewrite Hlt. cbn [app].
    rewrite (last_n_snoc 999 oldest data rest Hrest).
    split; [reflexivity|]. rewrite length_app; cbn [length]; lia.
  - intros Hlen.
    assert (Hlt : (1000 <? length (l ++ [data]))%nat = false).
    { apply Nat.ltb_ge. rewrite length_app; cbn [length]; lia. }
    rewrite Hlt. reflexivity.
Qed.

Lemma save_local_backup_capacity_witness :
  let old := comprehensive_check env_ok house1 0 in
  let new := comprehensive_check env_ok house1 1 in
  let s := set_backup_file (Some (JsonList (repeat old 1000))) fresh_state in
  exists oldest rest,
    repeat old 1000 = oldest :: rest
    /\ buffered (snd (save_local_backup new s)) = Some (rest ++ [new])
    /\ length (rest ++ [new]) = 1000.
Proof.
  cbn zeta.
  apply (proj1 (proj2 (save_local_backup_capacity
                         (comprehensive_check env_ok house1 1)
                         (set_backup_file
                            (Some (JsonList
                                     (repeat
                                        (comprehensive_check env_ok house1 0)
                                        1000)))
                            fresh_state)
                         (repeat (comprehensive_check env_ok house1 0) 1000)
                         eq_refl eq_refl))).
  apply repeat_length.
Defined.

(** C9 on the code.  When the backup file is not valid JSON,
    [save_local_backup] catches the decoding error, logs
    "Failed to save local backup" and returns: the file is left as it
    was, the new record is not written, and the same happens at every
    later call. *)
Theorem save_local_backup_corrupt_file (data : CheckResult) (s : MState) :
  backup_file s = Some Corrupt ->
  save_local_backup data s =
    (Ok tt, add_log ERROR "Failed to save local backup" s)
  /\ backup_file (snd (save_local_backup data s)) = Some Corrupt
  /\ buffered (snd (save_local_backup data s)) = None.
Proof.
  intros Hb.
  assert (H : save_local_backup data s =
              (Ok tt, add_log ERROR "Failed to save local backup" s)).
  { unfold save_local_backup, load_and_append.
    cbv beta iota zeta delta [bind gets modify ret raise log try_except].
    rewrite Hb. reflexivity. }
  rewrite H. unfold buffered. cbn [snd add_log backup_file].
  rewrite Hb. auto.
Qed.

Lemma save_local_backup_corrupt_file_witness :
  let s := set_backup_file (Some Corrupt) fresh_state in
  let r := comprehensive_check env_ok house1 0 in
  logged (snd (save_local_backup r s))
    = [(ERROR, "Failed to save local backup")]
  /\ backup_file (snd (save_local_backup r s)) = Some Corrupt.
Proof.
  cbn zeta.
  destruct (save_local_backup_corrupt_file
              (comprehensive_check env_ok house1 0)
              (set_backup_file (Some Corrupt) fresh_state) eq_refl)
    as (H1 & H2 & _).
  split; [rewrite H1; reflexivity | exact H2].
Defined.

(** The recovery read of a file that is not valid JSON, in contrast,
    handles the decoding error by name: it logs that the file is
    corrupted and returns without any upload. *)
Lemma attempt_backup_recovery_corrupt_file (E : Environment) (s : MState)
    (l : GoogleSheetsLogger) :
  sheets_logger (monitor s) = Some l ->
  connectivity_restored_recently (monitor s) = true ->
  last_backup_recovery (monitor s) = None ->
  backup_file s = Some Corrupt ->
  attempt_backup_recovery E s =
  (Ok tt,
   add_log ERROR "Backup file is corrupted, skipping recovery"
     (add_log INFO "Attempting to recover data from local backup..."
        (set_m_world (tick_clock (m_world s)) s))).
Proof.
  destruct s as [[ls ost crr lbr sl] w bf wr fo lg cy].
  cbn [monitor sheets_logger connectivity_restored_recently
       last_backup_recovery backup_file].
  intros -> -> -> ->. reflexivity.
Qed.

(** ** DeliveryClient: requests and retries *)

Lemma set_service_true (l : GoogleSheetsLogger) :
  service l = true -> set_service true l = l.
Proof. destruct l; cbn; intros ->; reflexivity. Qed.

(** A sleep of a length that is not negative returns. *)
Lemma sleep_ok (d : Q) (s : LState) :
  Qle_bool 0 d = true -> sleep d s = (Ok tt, set_world (add_sleep d) s).
Proof. intros H. unfold sleep. rewrite H. reflexivity. Qed.

(** The delays of the retry loop are not negative when the factor is
    not. *)
Lemma backoff_nonneg (backoff_factor : Z) (attempt : nat) :
  (0 <= backoff_factor)%Z ->
  Qle_bool 0 (backoff backoff_factor attempt) = true.
Proof.
  intros H. unfold backoff, inject_Z. apply Qle_bool_iff.
  unfold Qle. cbn [Qnum Qden].
  pose proof (Z.pow_nonneg backoff_factor (Z.of_nat attempt) H). lia.
Qed.

Lemma rate_limit_backoff_nonneg (backoff_factor : Z) (attempt : nat) :
  (0 <= backoff_factor)%Z ->
  Qle_bool 0 (rate_limit_backoff backoff_factor attempt) = true.
Proof.
  intros H. unfold rate_limit_backoff, inject_Z. apply Qle_bool_iff.
  unfold Qle. cbn [Qnum Qden].
  pose proof (Z.pow_nonneg backoff_factor (Z.of_nat attempt) H). lia.
Qed.

Section Delivery.
Variable E : Environment.

(** A request leaves the logger object alone. *)
Lemma request_logger c s : logger (snd (request E c s)) = logger s.
Proof.
  unfold request. destruct (service (logger s)); [|reflexivity].
  destruct (api_outcome E _); reflexivity.
Qed.

Lemma request_failure c s e :
  service (logger s) = true ->
  api_outcome E (length (calls (world s))) = Failure e ->
  request E c s = (Raise e, set_world (log_call c) s).
Proof. intros Hs He. unfold request. rewrite Hs, He. reflexivity. Qed.

Lemma deliver_direct_logger u s :
  logger (snd (deliver_direct E u s)) = logger s.
Proof.
  destruct u as [data|loc st|loc st en d]; cbn [deliver_direct].
  - apply request_logger.
  - apply request_logger.
  - unfold _log_outage_end_direct, values_get, _append_row.
    cbv beta iota zeta delta [bind gets ret].
    pose proof (request_logger ValuesGet s) as H1.
    destruct (request E ValuesGet s) as [[[]|e] s1]; cbn [snd] in *; auto.
    destruct (find_ongoing _ _ _ _);
      rewrite request_logger; exact H1.
Qed.

Lemma deliver_direct_failure u s e :
  service (logger s) = true ->
  api_outcome E (length (calls (world s))) = Failure e ->
  deliver_direct E u s =
  (Raise e, set_world (log_call (first_request E u)) s).
Proof.
  intros Hs He. destruct u as [data|loc st|loc st en d];
    cbn [deliver_direct first_request].
  - apply request_failure; assumption.
  - apply request_failure; assumption.
  - unfold _log_outage_end_direct, values_get, bind.
    rewrite (request_failure _ _ _ Hs He). reflexivity.
Qed.

(** *** The failed-upload queue *)

Lemma _store_failed_upload_spec u s :
  _store_failed_upload E u s =
  (Ok tt,
   mkLState
     (set_failed_uploads
        ((if (100 <=? length (failed_uploads (logger s)))%nat
          then Py.last_n 50 (failed_uploads (logger s))
          else failed_uploads (logger s))
         ++ [mkFailed (dt_iso (local_now E (clock_reads (world s)))) u 0])
        (logger s))
     (tick_clock (world s))).
Proof.
  unfold _store_failed_upload.
  cbv beta iota zeta delta [bind now gets when modify ret].
  cbn [logger world set_world].
  destruct (100 <=? _)%nat; reflexivity.
Qed.

Lemma process_loop_spec : forall todo done successful s,
  exists s' successful',
    process_loop E done todo successful s = (Ok successful', s')
    /\ service (logger s') = service (logger s)
    /\ last_successful_upload (logger s') = last_successful_upload (logger s)
    /\ failed_uploads (logger s') =
       match todo with
       | [] => failed_uploads (logger s)
       | _ => done ++ map bump todo
       end
    /\ (forall v, 5 <= retry_count v ->
          count_occ FailedUpload_eq_dec successful' v =
          count_occ FailedUpload_eq_dec successful v
          + count_occ FailedUpload_eq_dec (map bump todo) v).
Proof.
  induction todo as [|u rest IH]; intros done successful s.
  - exists s, successful. cbn. repeat split; auto.
  - cbn [process_loop]. fold (bump u).
    cbv beta iota zeta delta [bind modify try_except ret].
    pose proof (deliver_direct_logger (upload (bump u))
      (set_logger (set_failed_uploads (done ++ bump u :: rest)) s)) as Hl.
    destruct (deliver_direct E (upload (bump u)) _) as [[[]|e] s1];
      cbn [snd] in Hl.
    + destruct (IH (done ++ [bump u]) (successful ++ [bump u]) s1)
        as (s' & S' & Hrun & Hsvc & Hlsu & Hq & Hcount).
      exists s', S'. rewrite Hrun, Hsvc, Hlsu, Hq, Hl. cbn [logger set_logger
        service last_successful_upload failed_uploads set_failed_uploads].
      repeat split; auto.
      * destruct rest; cbn [map]; rewrite <- ?app_assoc; reflexivity.
      * intros v Hv. rewrite (Hcount v Hv), count_occ_app. cbn [map count_occ].
        destruct (FailedUpload_eq_dec (bump u) v); lia.
    + destruct (5 <=? retry_count (bump u))%nat eqn:Hfive.
      * destruct (IH (done ++ [bump u]) (successful ++ [bump u]) s1)
          as (s' & S' & Hrun & Hsvc & Hlsu & Hq & Hcount).
        exists s', S'. rewrite Hrun, Hsvc, Hlsu, Hq, Hl. cbn [logger set_logger
          service last_successful_upload failed_uploads set_failed_uploads].
        repeat split; auto.
        -- destruct rest; cbn [map]; rewrite <- ?app_assoc; reflexivity.
        -- intros v Hv. rewrite (Hcount v Hv), count_occ_app.
           cbn [map count_occ].
           destruct (FailedUpload_eq_dec (bump u) v); lia.
      * destruct (IH (done ++ [bump u]) successful s1)
          as (s' & S' & Hrun & Hsvc & Hlsu & Hq & Hcount).
        exists s', S'. rewrite Hrun, Hsvc, Hlsu, Hq, Hl. cbn [logger set_logger
          service last_successful_upload failed_uploads set_failed_uploads].
        repeat split; auto.
        -- destruct rest; cbn [map]; rewrite <- ?app_assoc; reflexivity.
        -- intros v Hv. rewrite (Hcount v Hv). cbn [map count_occ].
           apply Nat.leb_gt in Hfive.
           destruct (FailedUpload_eq_dec (bump u) v); [subst; lia | lia].
Qed.

Lemma count_occ_remove_first (x v : FailedUpload) (l : list FailedUpload) :
  count_occ FailedUpload_eq_dec (Py.remove_first FailedUpload_eq_dec x l) v =
  if FailedUpload_eq_dec x v
  then pred (count_occ FailedUpload_eq_dec l v)
  else count_occ FailedUpload_eq_dec l v.
Proof.
  induction l as [|y l IH]; cbn [Py.remove_first count_occ].
  - destruct (FailedUpload_eq_dec x v); reflexivity.
  - destruct (FailedUpload_eq_dec x y) as [Hxy|Hxy].
    + subst y. destruct (FailedUpload_eq_dec x v); reflexivity.
    + cbn [count_occ]. rewrite IH.
      destruct (FailedUpload_eq_dec y v), (FailedUpload_eq_dec x v);
        try reflexivity.
      congruence.
Qed.

Lemma count_occ_remove_uploads (v : FailedUpload) :
  forall successful queue,
  count_occ FailedUpload_eq_dec (remove_uploads successful queue) v =
  count_occ FailedUpload_eq_dec queue v
  - count_occ FailedUpload_eq_dec successful v.
Proof.
  unfold remove_uploads.
  induction successful as [|x successful IH]; intros queue;
    cbn [fold_left count_occ]; [lia|].
  rewrite IH, count_occ_remove_first.
  destruct (FailedUpload_eq_dec x v); lia.
Qed.

Lemma remove_first_length (x : FailedUpload) (l : list FailedUpload) :
  length (Py.remove_first FailedUpload_eq_dec x l) <= length l.
Proof.
  induction l as [|y l IH]; cbn [Py.remove_first length]; [lia|].
  destruct (FailedUpload_eq_dec x y); cbn [length]; lia.
Qed.

Lemma remove_uploads_length : forall successful queue,
  length (remove_uploads successful queue) <= length queue.
Proof.
  unfold remove_uploads.
  induction successful as [|x successful IH]; intros queue;
    cbn [fold_left]; [lia|].
  etransitivity; [apply IH | apply remove_first_length].
Qed.

(** [_process_failed_uploads] returns normally; it keeps the service and
    the time of the last upload; the queue it leaves is no longer than
    before, and no entry left in it has a retry count of 5 or more. *)
Lemma _process_failed_uploads_spec s :
  exists s',
    _process_failed_uploads E s = (Ok tt, s')
    /\ service (logger s') = service (logger s)
    /\ last_successful_upload (logger s') = last_successful_upload (logger s)
    /\ length (failed_uploads (logger s')) <= length (failed_uploads (logger s))
    /\ Forall (fun u => retry_count u < 5) (failed_uploads (logger s')).
Proof.
  unfold _process_failed_uploads.
  cbv beta iota zeta delta [bind gets modify ret].
  destruct (failed_uploads (logger s)) as [|u queue] eqn:Hq.
  - exists s. rewrite Hq. repeat split; auto.
  - destruct (process_loop_spec (u :: queue) [] [] s)
      as (s1 & S1 & Hrun & Hsvc & Hlsu & Hq1 & Hcount).
    rewrite Hrun. eexists; split; [reflexivity|].
    cbn [logger set_logger service last_successful_upload failed_uploads
         set_failed_uploads].
    rewrite Hq1. cbn [app].
    repeat split; auto.
    + etransitivity; [apply remove_uploads_length|].
      rewrite length_map. reflexivity.
    + apply Forall_forall. intros x Hx.
      destruct (le_lt_dec 5 (retry_count x)) as [Hfive|]; [exfalso|assumption].
      apply (count_occ_In FailedUpload_eq_dec) in Hx.
      rewrite count_occ_remove_uploads, (Hcount x Hfive) in Hx.
      cbn [count_occ] in Hx. lia.
Qed.

End Delivery.

(** *** A service that refuses every request *)

Section Unreachable.
Variable E : Environment.
Hypothesis all_fail : forall n, exists e, api_outcome E n = Failure e.
Hypothesis not_expired : forall n, credentials_expired E n = false.





End Unreachable.

(** *** A service that answers every request with a rate-limit error *)

Section RateLimit.
Variable E : Environment.
Hypothesis rate_limited : forall n, api_outcome E n = Failure (HttpError 429).
Hypothesis not_expired : forall n, credentials_expired E n = false.

Lemma attempt_once_rate_limited u s :
  service (logger s) = true ->
  attempt_once E (deliver_direct E u) s =
  (Raise (HttpError 429), set_world (log_call (first_request E u)) s).
Proof.
  intros Hs. unfold attempt_once, ensure_service.
  cbv beta iota zeta delta [bind gets ret].
  rewrite Hs, not_expired. cbn [negb orb].
  rewrite (deliver_direct_failure E u s _ Hs (rate_limited _)). reflexivity.
Qed.

Lemma on_error_rate_limit max_retries backoff_factor attempt :
  on_error E max_retries backoff_factor attempt (HttpError 429) =
  when (attempt <? max_retries - 1)%nat
       (sleep (rate_limit_backoff backoff_factor attempt)).
Proof. reflexivity. Qed.

(** With [remaining] attempts left out of [max_retries], each attempt
    sends one request; after each but the last the loop sleeps five
    times [backoff_factor ** attempt]; then the call raises. *)
Lemma retry_loop_rate_limited u max_retries backoff_factor :
  (0 <= backoff_factor)%Z ->
  forall remaining attempt s,
  service (logger s) = true ->
  max_retries = attempt + remaining ->
  exists s',
    retry_loop E (deliver_direct E u) max_retries backoff_factor
               remaining attempt s
    = (Raise (retries_exhausted max_retries), s')
    /\ logger s' = logger s
    /\ calls (world s') =
       calls (world s) ++ repeat (first_request E u) remaining
    /\ sleeps (world s') =
       sleeps (world s)
       ++ map (rate_limit_backoff backoff_factor) (seq attempt (remaining - 1))
    /\ clock_reads (world s') = clock_reads (world s).
Proof.
  intros Hbf. induction remaining as [|k IH]; intros attempt s Hs Hmax.
  - exists s. cbn. rewrite !app_nil_r. repeat split; reflexivity.
  - cbn [retry_loop]. unfold try_except.
    rewrite (attempt_once_rate_limited u s Hs).
    unfold bind. rewrite on_error_rate_limit.
    destruct (attempt <? max_retries - 1)%nat eqn:Hagain; cbn [when].
    + apply Nat.ltb_lt in Hagain.
      rewrite sleep_ok by (apply rate_limit_backoff_nonneg, Hbf).
      destruct (IH (S attempt)
                  (set_world
                     (add_sleep (rate_limit_backoff backoff_factor attempt))
                     (set_world (log_call (first_request E u)) s))
                  Hs ltac:(lia))
        as (s' & Hrun & Hl & Hcalls & Hsleeps & Hclock).
      exists s'. rewrite Hrun.
      cbn [world logger set_world calls sleeps add_sleep log_call
           clock_reads] in *.
      repeat split; auto.
      * rewrite Hcalls, <- app_assoc. reflexivity.
      * rewrite Hsleeps, <- app_assoc.
        replace (S k - 1) with (S (k - 1)) by lia. reflexivity.
    + apply Nat.ltb_ge in Hagain.
      assert (k = 0) by lia; subst k. unfold ret. cbn [retry_loop raise].
      exists (set_world (log_call (first_request E u)) s).
      cbn. rewrite app_nil_r. repeat split; reflexivity.
Qed.

End RateLimit.

(** C7.  With the attempt limit 3 (and factor 2) and a service that
    answers every request with a rate-limit error, the operation is
    run three times, each time sending its request; the loop sleeps 5
    and then 10 seconds between the attempts; the call raises
    "Failed to execute operation after 3 attempts".  The logging method
    of the monitor that makes this call leaves the backup file as it was
    and puts the upload in the queue of failed uploads. *)
Theorem rate_limit_exhausts_three_attempts
    (E : Environment) (u : Upload) (l : GoogleSheetsLogger) (w : World) :
  (forall n, api_outcome E n = Failure (HttpError 429)) ->
  (forall n, credentials_expired E n = false) ->
  service l = true ->
  let out := _execute_with_retry E (deliver_direct E u) 3 2 (mkLState l w) in
  fst out = Raise (Exception "Failed to execute operation after 3 attempts")
  /\ calls (world (snd out)) =
     calls w ++ [first_request E u; first_request E u; first_request E u]
  /\ sleeps (world (snd out)) = sleeps w ++ [5%Q; 10%Q]
  /\ (5 < 10)%Q
  /\ (forall ms,
        sheets_logger (monitor ms) = Some l -> m_world ms = w ->
        let ms' := snd (if_sheets_logger (log_upload E u) ms) in
        backup_file ms' = backup_file ms
        /\ buffered ms' = buffered ms
        /\ exists l' t,
             sheets_logger (monitor ms') = Some l'
             /\ In (mkFailed t u 0) (failed_uploads l')).
Proof.
  intros Hrate Hexp Hs; cbn zeta.
  destruct (retry_loop_rate_limited E Hrate Hexp u 3 2 ltac:(lia) 3 0
              (mkLState l w) Hs eq_refl)
    as (s' & Hrun & Hl & Hcalls & Hsleeps & _).
  unfold _execute_with_retry. rewrite Hrun. cbn [fst snd].
  split; [reflexivity|]. split; [exact Hcalls|]. split; [exact Hsleeps|].
  split; [reflexivity|].
  intros ms Hlg Hw.
  unfold if_sheets_logger. rewrite Hlg.
  unfold call_logger, log_upload, try_except, _execute_with_retry.
  rewrite Hw, Hrun, _store_failed_upload_spec. cbn [snd].
  split; [reflexivity|]. split; [reflexivity|].
  eexists _, _. split; [reflexivity|].
  cbn [logger failed_uploads set_failed_uploads].
  apply in_or_app. right. left. reflexivity.
Qed.

Lemma rate_limit_exhausts_three_attempts_witness :
  let E := env_with (fun _ => Failure (HttpError 429)) in
  let u := ConnectivityCheck (comprehensive_check env_ok house1 0) in
  let out :=
    _execute_with_retry E (deliver_direct E u) 3 2
                        (mkLState fresh_logger empty_world) in
  fst out = Raise (Exception "Failed to execute operation after 3 attempts")
  /\ length (calls (world (snd out))) = 3
  /\ sleeps (world (snd out)) = [5%Q; 10%Q].
Proof.
  cbn zeta.
  destruct (rate_limit_exhausts_three_attempts
              (env_with (fun _ => Failure (HttpError 429)))
              (ConnectivityCheck (comprehensive_check env_ok house1 0))
              fresh_logger empty_world
              (fun _ => eq_refl) (fun _ => eq_refl) eq_refl)
    as (H1 & H2 & H3 & _).
  split; [exact H1|]. split; [rewrite H2; reflexivity | exact H3].
Defined.

(** *** The length of the queue under the methods of the logger *)

Section QueueLength.
Variable E : Environment.

Lemma _build_service_queue s :
  queue_length (snd (_build_service E s)) = queue_length s.
Proof. unfold _build_service. destruct (build_ok E _); reflexivity. Qed.

Lemma _build_service_returns s : exists b, fst (_build_service E s) = Ok b.
Proof. unfold _build_service. destruct (build_ok E _); eexists; reflexivity. Qed.

Lemma sleep_queue d s : queue_length (snd (sleep d s)) = queue_length s.
Proof. unfold sleep. destruct (Qle_bool 0 d); reflexivity. Qed.

Lemma on_error_queue max_retries backoff_factor attempt e s :
  queue_length (snd (on_error E max_retries backoff_factor attempt e s))
  = queue_length s.
Proof.
  assert (Hboth : forall d,
            queue_length (snd ((_build_service E;; sleep d) s))
            = queue_length s).
  { intros d. unfold bind.
    pose proof (_build_service_queue s) as Hq.
    destruct (_build_service_returns s) as [b Hb].
    destruct (_build_service E s) as [r s1]; cbn [fst snd] in *; subst r.
    rewrite sleep_queue. exact Hq. }
  unfold on_error, when.
  destruct (attempt <? max_retries - 1)%nat; destruct e as [status|msg];
    repeat match goal with |- context [if ?c then _ else _] => destruct c end;
    auto using sleep_queue.
Qed.

Lemma attempt_once_queue operation s :
  (forall s0, queue_length (snd (operation s0)) = queue_length s0) ->
  queue_length (snd (attempt_once E operation s)) <= queue_length s.
Proof.
  intros Hop. unfold attempt_once, ensure_service.
  cbv beta iota zeta delta [bind gets ret raise now modify].
  assert (Hrest : forall s0, queue_length s0 = queue_length s ->
    queue_length
      (snd (let (r, s') := operation s0 in
            match r with
            | Ok _ =>
                _process_failed_uploads E
                  (set_logger
                     (set_last_successful_upload
                        (Some (local_now E (clock_reads (world s')))))
                     (set_world tick_clock s'))
            | Raise e => (Raise e, s')
            end)) <= queue_length s).
  { intros s0 H0. pose proof (Hop s0) as Hq.
    destruct (operation s0) as [[[]|e] s1]; cbn [snd] in *; [|lia].
    match goal with |- context [_process_failed_uploads E ?s2] =>
      destruct (_process_failed_uploads_spec E s2)
        as (s3 & Hrun & _ & _ & Hlen & _); rewrite Hrun end.
    cbn [snd]. unfold queue_length in *.
    cbn [logger set_logger set_world failed_uploads
         set_last_successful_upload] in Hlen. lia. }
  destruct (negb (service (logger s)) || credentials_expired E _).
  - pose proof (_build_service_queue s) as Hq.
    destruct (_build_service E s) as [[[|]|e] s1]; cbn [snd] in *;
      try lia.
    apply Hrest, Hq.
  - apply Hrest. reflexivity.
Qed.

Lemma retry_loop_queue operation max_retries backoff_factor :
  (forall s0, queue_length (snd (operation s0)) = queue_length s0) ->
  forall remaining attempt s,
  queue_length
    (snd (retry_loop E operation max_retries backoff_factor
                     remaining attempt s))
  <= queue_length s.
Proof.
  intros Hop. induction remaining as [|k IH]; intros attempt s.
  - cbn. lia.
  - cbn [retry_loop]. unfold try_except.
    pose proof (attempt_once_queue operation s Hop) as Hq.
    destruct (attempt_once E operation s) as [[[]|e] s1]; cbn [snd] in *;
      [exact Hq|].
    unfold bind.
    pose proof (on_error_queue max_retries backoff_factor attempt e s1)
      as Hq1.
    destruct (on_error E max_retries backoff_factor attempt e s1)
      as [[[]|e'] s2]; cbn [snd] in *; [|lia].
    specialize (IH (S attempt) s2). lia.
Qed.

Lemma deliver_direct_queue u s :
  queue_length (snd (deliver_direct E u s)) = queue_length s.
Proof. unfold queue_length. now rewrite deliver_direct_logger. Qed.

Lemma log_upload_queue u s :
  queue_length s <= 101 -> queue_length (snd (log_upload E u s)) <= 101.
Proof.
  intros Hq. unfold log_upload, try_except, _execute_with_retry.
  pose proof (retry_loop_queue (deliver_direct E u) 3 2
                (deliver_direct_queue u) 3 0 s) as Hrun.
  destruct (retry_loop E (deliver_direct E u) 3 2 3 0 s) as [[[]|e] s1];
    cbn [snd] in *; [lia|].
  rewrite _store_failed_upload_spec. cbn [snd]. unfold queue_length in *.
  cbn [logger failed_uploads set_failed_uploads].
  rewrite length_app. cbn [length].
  destruct (100 <=? length (failed_uploads (logger s1)))%nat eqn:Hfull.
  - rewrite last_n_length. lia.
  - apply Nat.leb_gt in Hfull. lia.
Qed.

Lemma keeps_queue_ret {A} (a : A) : keeps_queue (ret a).
Proof. intros s. unfold ret. cbn [snd]. apply le_n. Qed.

Lemma keeps_queue_gets {A} (f : RState -> A) : keeps_queue (gets f).
Proof. intros s. unfold gets. cbn [snd]. apply le_n. Qed.

Lemma keeps_queue_bind {A B} (m : M RState A) (k : A -> M RState B) :
  keeps_queue m -> (forall a, keeps_queue (k a)) -> keeps_queue (bind m k).
Proof.
  intros Hm Hk s. unfold bind. specialize (Hm s).
  destruct (m s) as [[a|e] s1]; cbn [snd] in *; [|exact Hm].
  specialize (Hk a s1). lia.
Qed.

Lemma keeps_queue_try {A} (m : M RState A) (h : exn -> M RState A) :
  keeps_queue m -> (forall e, keeps_queue (h e)) ->
  keeps_queue (try_except m h).
Proof.
  intros Hm Hh s. unfold try_except. specialize (Hm s).
  destruct (m s) as [[a|e] s1]; cbn [snd] in *; [exact Hm|].
  specialize (Hh e s1). lia.
Qed.

Lemma keeps_queue_modify (f : RState -> RState) :
  (forall s, r_lstate (f s) = r_lstate s) -> keeps_queue (modify f).
Proof.
  intros Hf s. unfold modify, recovery_queue_length. cbn [snd].
  rewrite Hf. lia.
Qed.

Lemma keeps_queue_lift {A} (m : M LState A) :
  (forall s, queue_length (snd (m s)) <= queue_length s) ->
  keeps_queue (lift_logger m).
Proof.
  intros Hm s. unfold lift_logger, recovery_queue_length.
  specialize (Hm (r_lstate s)). destruct (m (r_lstate s)); exact Hm.
Qed.

Lemma keeps_queue_retry u :
  keeps_queue (lift_logger (_execute_with_retry E (deliver_direct E u) 2 2)).
Proof.
  apply keeps_queue_lift. intros s.
  apply retry_loop_queue, deliver_direct_queue.
Qed.

Lemma recover_record_queue record : keeps_queue (recover_record E record).
Proof.
  unfold recover_record.
  apply keeps_queue_try; [|intros; now apply keeps_queue_modify].
  apply keeps_queue_bind; [apply keeps_queue_gets|].
  intros [|]; [apply keeps_queue_ret|].
  apply keeps_queue_bind.
  - destruct (connected record); [|apply keeps_queue_ret].
    apply keeps_queue_bind; [|intros; now apply keeps_queue_modify].
    apply (keeps_queue_retry (ConnectivityCheck record)).
  - intros _. apply keeps_queue_bind.
    + destruct (status_change record) as [[ts loc|ts loc start d]|];
        [| |apply keeps_queue_ret].
      * apply keeps_queue_bind;
          [apply (keeps_queue_retry (OutageStart loc ts))|].
        intros _. apply keeps_queue_bind;
          intros; now apply keeps_queue_modify.
      * apply keeps_queue_bind;
          [apply (keeps_queue_retry (OutageEnd loc start ts d))|].
        intros _. apply keeps_queue_bind;
          intros; now apply keeps_queue_modify.
    + intros _. apply keeps_queue_lift. intros s. apply le_n.
Qed.

Lemma recover_loop_queue records : keeps_queue (recover_loop E records).
Proof.
  induction records as [|r records IH]; cbn [recover_loop].
  - apply keeps_queue_ret.
  - apply keeps_queue_bind; [apply recover_record_queue | intros _; exact IH].
Qed.

Lemma recover_from_backup_queue backup s :
  queue_length (snd (recover_from_backup E backup s)) <= queue_length s.
Proof.
  destruct backup as [|r backup]; [apply le_n|].
  unfold recover_from_backup.
  pose proof (recover_loop_queue (Py.sorted timestamp (r :: backup))
                (mkRState s no_stats [])) as H.
  destruct (recover_loop E _ _) as [res s1]. exact H.
Qed.
End QueueLength.

(** C10.  Storing a failed upload in a queue of 100 or more entries
    first cuts the queue to its newest 50 entries, then appends the new
    entry (with retry count 0), which leaves 51; a shorter queue simply
    grows by one; so a queue of at most 101 entries stays at most 101
    long.  Processing the queue never lengthens it, and leaves no entry
    whose retry count has reached 5: such an entry is removed whether
    its delivery succeeded or failed.  The logging methods and the
    recovery, which are the callers of the two, keep the bound too. *)
Theorem failed_upload_queue_bounded (E : Environment) :
  (forall u s,
     let q := failed_uploads (logger s) in
     let q' := failed_uploads (logger (snd (_store_failed_upload E u s))) in
     exists entry,
       upload entry = u /\ retry_count entry = 0
       /\ q' = (if (100 <=? length q)%nat then Py.last_n 50 q else q)
               ++ [entry]
       /\ (100 <= length q -> length q' = 51)
       /\ (length q <= 101 -> length q' <= 101))
  /\ (forall s,
        let q := failed_uploads (logger s) in
        let q' := failed_uploads (logger (snd (_process_failed_uploads E s))) in
        fst (_process_failed_uploads E s) = Ok tt
        /\ length q' <= length q
        /\ Forall (fun u => retry_count u < 5) q')
  /\ (forall u s,
        queue_length s <= 101 ->
        queue_length (snd (log_upload E u s)) <= 101)
  /\ (forall backup s,
        queue_length (snd (recover_from_backup E backup s))
        <= queue_length s).
Proof.
  split.
  - intros u s; cbn zeta. rewrite _store_failed_upload_spec. cbn [snd logger].
    exists (mkFailed (dt_iso (local_now E (clock_reads (world s)))) u 0).
    split; [reflexivity|]. split; [reflexivity|].
    split; [reflexivity|].
    cbn [failed_uploads set_failed_uploads].
    rewrite length_app. cbn [length].
    destruct (100 <=? length (failed_uploads (logger s)))%nat eqn:Hfull.
    + apply Nat.leb_le in Hfull. rewrite last_n_length. split; lia.
    + apply Nat.leb_gt in Hfull. split; lia.
  - split; [|split].
    + intros s; cbn zeta.
      destruct (_process_failed_uploads_spec E s)
        as (s' & Hrun & _ & _ & Hlen & Hall).
      rewrite Hrun. auto.
    + apply log_upload_queue.
    + apply recover_from_backup_queue.
Qed.

Lemma failed_upload_queue_bounded_witness :
  let old := mkFailed "2024-01-01T05:00:00.000001"
                      (OutageStart "house1" "2024-01-01T10:00:00+00:00") 0 in
  let s := mkLState (mkLogger true None (repeat old 100)) empty_world in
  length (failed_uploads
            (logger (snd (_store_failed_upload env_ok
                            (OutageStart "house1" "2024-01-01T10:05:00+00:00")
                            s)))) = 51.
Proof.
  cbn zeta.
  destruct (proj1 (failed_upload_queue_bounded env_ok)
              (OutageStart "house1" "2024-01-01T10:05:00+00:00")
              (mkLState
                 (mkLogger true None
                    (repeat
                       (mkFailed "2024-01-01T05:00:00.000001"
                          (OutageStart "house1" "2024-01-01T10:00:00+00:00")
                          0) 100))
                 empty_world))
    as (entry & _ & _ & _ & Hfull & _).
  apply Hfull. cbn [logger failed_uploads]. rewrite repeat_length. lia.
Defined.

(** An entry at its fifth retry is dropped although the service refused
    it; an entry at its second retry is kept. *)
Example fifth_failed_retry_is_dropped :
  let E := env_with (fun _ => Failure (HttpError 500)) in
  let a := mkFailed "2024-01-01T05:00:00.000001"
                    (OutageStart "house1" "2024-01-01T10:00:00+00:00") 4 in
  let b := mkFailed "2024-01-01T05:01:00.000001"
                    (OutageStart "house1" "2024-01-01T10:09:00+00:00") 1 in
  failed_uploads
    (logger (snd (_process_failed_uploads E
                    (mkLState (mkLogger true None [a; b]) empty_world))))
  = [set_retry_count 2 b].
Proof. vm_compute. reflexivity. Qed.

(** ** The Outages sheet *)

Lemma count_app {A} (p : A -> bool) (l1 l2 : list A) :
  count p (l1 ++ l2) = count p l1 + count p l2.
Proof. unfold count. rewrite filter_app, length_app. reflexivity. Qed.

Lemma is_ongoing_ongoing_row location start_time :
  is_ongoing location start_time (ongoing_row location start_time) = true.
Proof.
  unfold is_ongoing, ongoing_row; cbn. rewrite !String.eqb_refl. reflexivity.
Qed.

(** A row closed by [_log_outage_end_direct] is open for nobody. *)
Lemma is_ongoing_update_CG location start_time c1 c2 c3 c4 row :
  is_ongoing location start_time
    (update_CG [c1; c2; c3; c4; CStr "RESOLVED"] row) = false.
Proof.
  unfold is_ongoing, update_CG.
  destruct row as [|a [|b row]]; cbn [firstn app length nth_error skipn].
  - reflexivity.
  - reflexivity.
  - cbn. rewrite !andb_false_r. reflexivity.
Qed.

Lemma count_update_row location start_time c1 c2 c3 c4 : forall rows i,
  count (is_ongoing location start_time)
        (update_row i [c1; c2; c3; c4; CStr "RESOLVED"] rows)
  <= count (is_ongoing location start_time) rows.
Proof.
  unfold count.
  induction rows as [|row rows IH]; intros i; [destruct i; cbn; lia|].
  destruct i as [|j]; cbn [update_row filter].
  - rewrite is_ongoing_update_CG.
    destruct (is_ongoing location start_time row); cbn [length]; lia.
  - specialize (IH j).
    destruct (is_ongoing location start_time row); cbn [length]; lia.
Qed.

Section Outages.
Variable E : Environment.

(** A request either is accepted, with its effect on the sheets, or leaves
    the sheets as they were. *)
Lemma request_sheets c s :
  (fst (request E c s) = Ok tt
   /\ outages_sheet (world (snd (request E c s))) =
      outages_sheet (apply_call c (world s)))
  \/ ((exists e, fst (request E c s) = Raise e)
      /\ outages_sheet (world (snd (request E c s))) =
         outages_sheet (world s)).
Proof.
  unfold request. destruct (service (logger s)).
  - destruct (api_outcome E _) as [|e].
    + left. split; [reflexivity|]. destruct c as [[|] row| |i cells]; reflexivity.
    + right. split; [exists e|]; reflexivity.
  - right. split; [eexists|]; reflexivity.
Qed.

Lemma open_rows_request location start_time c s :
  (forall row, c = ValuesAppend Outages row ->
               is_ongoing location start_time row = false) ->
  (forall i cells, c = ValuesUpdate i cells ->
     exists c1 c2 c3 c4, cells = [c1; c2; c3; c4; CStr "RESOLVED"]) ->
  open_rows location start_time (world (snd (request E c s)))
  <= open_rows location start_time (world s).
Proof.
  intros Happend Hupdate. unfold open_rows.
  destruct (request_sheets c s) as [[_ ->]|[_ ->]]; [|lia].
  destruct c as [[|] row| |i cells]; cbn [apply_call set_checks set_outages
    outages_sheet]; try lia.
  - rewrite count_app. unfold count; cbn [filter].
    rewrite (Happend row eq_refl). cbn; lia.
  - destruct (Hupdate i cells eq_refl) as (c1 & c2 & c3 & c4 & ->).
    apply count_update_row.
Qed.

Lemma open_rows_outage_end location start_time loc st en d s :
  open_rows location start_time
    (world (snd (_log_outage_end_direct E loc st en d s)))
  <= open_rows location start_time (world s).
Proof.
  unfold _log_outage_end_direct, values_get, _append_row.
  cbv beta iota zeta delta [bind gets ret].
  assert (Hget : open_rows location start_time
                   (world (snd (request E ValuesGet s)))
                 <= open_rows location start_time (world s)).
  { apply open_rows_request; discriminate. }
  destruct (request E ValuesGet s) as [[[]|e] s1]; cbn [snd] in *; [|exact Hget].
  etransitivity; [|exact Hget].
  destruct (find_ongoing loc st _ 0) as [i|].
  - apply open_rows_request; [discriminate|].
    intros ? ? [= <- <-]. eauto.
  - apply open_rows_request; [|discriminate].
    intros row [= <-].
    unfold is_ongoing. cbn. rewrite !andb_false_r. reflexivity.
Qed.

Lemma open_rows_connectivity_check location start_time data s :
  open_rows location start_time
    (world (snd (_log_connectivity_check_direct E data s)))
  <= open_rows location start_time (world s).
Proof.
  unfold _log_connectivity_check_direct, _append_row.
  apply open_rows_request; discriminate.
Qed.

Lemma open_rows_outage_start location start_time s :
  fst (_log_outage_start_direct E location start_time s) = Ok tt ->
  open_rows location start_time
    (world (snd (_log_outage_start_direct E location start_time s)))
  = S (open_rows location start_time (world s)).
Proof.
  unfold _log_outage_start_direct, _append_row, open_rows. intros Hok.
  destruct (request_sheets (ValuesAppend Outages
                              (ongoing_row location start_time)) s)
    as [[_ ->]|[[e He] _]]; [|congruence].
  cbn [apply_call set_outages outages_sheet].
  rewrite count_app. unfold count at 2. cbn [filter].
  rewrite is_ongoing_ongoing_row. cbn [length]. lia.
Qed.
End Outages.

(** Delivering the same [outage_start] upload twice to an empty sheet
    leaves two ONGOING rows for its location and start time. *)
Lemma replayed_outage_start_opens_two_rows :
  let u := OutageStart "house1" "2024-01-01T10:02:00+00:00" in
  let s0 := mkLState fresh_logger empty_world in
  let s1 := snd (deliver_direct env_ok u s0) in
  let s2 := snd (deliver_direct env_ok u s1) in
  open_rows "house1" "2024-01-01T10:02:00+00:00" (world s2) = 2
  /\ ~ open_rows "house1" "2024-01-01T10:02:00+00:00" (world s2) <= 1.
Proof. vm_compute. split; [reflexivity | lia]. Qed.

(** C5, amended.  The delivery of a connectivity check or of an
    [outage_end] never adds an open row: for every location and start
    time the number of ONGOING rows does not grow, so a replay of such an
    upload leaves no more open rows than there were.  Every accepted
    delivery of an [outage_start] appends one ONGOING row for its
    location and start time, so a replay of it leaves two more than
    before: the Sheets logger does not look for an existing row. *)
Theorem open_rows_after_delivery (E : Environment) :
  (forall u s location start_time,
     (forall l t, u <> OutageStart l t) ->
     open_rows location start_time (world (snd (deliver_direct E u s)))
     <= open_rows location start_time (world s))
  /\ (forall location start_time s,
        let u := OutageStart location start_time in
        fst (deliver_direct E u s) = Ok tt ->
        open_rows location start_time (world (snd (deliver_direct E u s)))
        = S (open_rows location start_time (world s)))
  /\ (forall location start_time s,
        let u := OutageStart location start_time in
        let s1 := snd (deliver_direct E u s) in
        let s2 := snd (deliver_direct E u s1) in
        fst (deliver_direct E u s) = Ok tt ->
        fst (deliver_direct E u s1) = Ok tt ->
        open_rows location start_time (world s2)
        = 2 + open_rows location start_time (world s)).
Proof.
  split; [|split].
  - intros [data|l t|loc st en d] s location start_time Hu;
      cbn [deliver_direct].
    + apply open_rows_connectivity_check.
    + exfalso. apply (Hu l t). reflexivity.
    + apply open_rows_outage_end.
  - intros location start_time s; cbn zeta. cbn [deliver_direct].
    apply open_rows_outage_start.
  - intros location start_time s; cbn zeta. cbn [deliver_direct].
    intros H1 H2.
    rewrite (open_rows_outage_start E _ _ _ H2),
            (open_rows_outage_start E _ _ _ H1).
    reflexivity.
Qed.

Lemma open_rows_after_delivery_witness :
  let start := OutageStart "house1" "2024-01-01T10:02:00+00:00" in
  let stop := OutageEnd "house1" "2024-01-01T10:02:00+00:00"
                        "2024-01-01T10:04:00+00:00" 120 in
  let s0 := mkLState fresh_logger empty_world in
  let s1 := snd (deliver_direct env_ok start s0) in
  open_rows "house1" "2024-01-01T10:02:00+00:00"
            (world (snd (deliver_direct env_ok stop
                           (snd (deliver_direct env_ok stop s1)))))
  <= open_rows "house1" "2024-01-01T10:02:00+00:00" (world s1)
  /\ open_rows "house1" "2024-01-01T10:02:00+00:00"
               (world (snd (deliver_direct env_ok start s1)))
     = 2 + open_rows "house1" "2024-01-01T10:02:00+00:00" (world s0).
Proof.
  cbn zeta. split.
  - etransitivity;
      apply (proj1 (open_rows_after_delivery env_ok)); discriminate.
  - apply (proj2 (proj2 (open_rows_after_delivery env_ok))
             "house1" "2024-01-01T10:02:00+00:00"
             (mkLState fresh_logger empty_world));
      reflexivity.
Defined.

(** The same through the backup file: two recovery passes over a file
    that holds one record with an [outage_start], on a host whose local
    clock reads earlier than UTC, append the ONGOING row twice. *)
Example second_recovery_pass_duplicates_open_row :
  let record :=
    with_status_change
      (Some (OutageStartEvent "2024-01-01T10:00:00+00:00" "house1"))
      (comprehensive_check env_ok house1 0) in
  let s1 := snd (recover_from_backup env_ok [record]
                   (mkLState fresh_logger empty_world)) in
  let s2 := snd (recover_from_backup env_ok [record] s1) in
  open_rows "house1" "2024-01-01T10:00:00+00:00" (world s1) = 1
  /\ open_rows "house1" "2024-01-01T10:00:00+00:00" (world s2) = 2.
Proof. vm_compute. split; reflexivity. Qed.

(** ** RecoveryCoordinator *)

(** *** Sorting by timestamp *)



Section SortedSpec.
Context {A : Type} (key : A -> string).

Lemma insert_perm (x : A) (l : list A) :
  Permutation (x :: l) (Py.insert key x l).
Proof.
  induction l as [|y l IH]; cbn [Py.insert]; [reflexivity|].
  destruct (String.ltb (key y) (key x)); [|reflexivity].
  rewrite perm_swap. now apply perm_skip.
Qed.


Lemma sorted_perm (l : list A) : Permutation l (Py.sorted key l).
Proof.
  unfold Py.sorted. induction l as [|x l IH]; cbn [fold_right]; [reflexivity|].
  rewrite <- insert_perm. now apply perm_skip.
Qed.

End SortedSpec.





Section UnreachableRecovery.
Variable E : Environment.
Hypothesis all_fail : forall n, exists e, api_outcome E n = Failure e.
Hypothesis not_expired : forall n, credentials_expired E n = false.





End UnreachableRecovery.

(** The backup file is only read by the recovery. *)
Lemma call_logger_backup_file {A} l (m : M LState A) s :
  backup_file (snd (call_logger l m s)) = backup_file s.
Proof. unfold call_logger. destruct (m _); reflexivity. Qed.

Lemma attempt_backup_recovery_backup_file E s :
  backup_file (snd (attempt_backup_recovery E s)) = backup_file s.
Proof.
  destruct s as [[ls ost crr lbr [l|]] w bf wr fo lg cy]; [|reflexivity].
  unfold attempt_backup_recovery, m_now.
  cbv beta iota zeta delta [bind gets modify ret raise log try_except].
  cbn [monitor m_world set_m_world sheets_logger
       connectivity_restored_recently last_backup_recovery backup_file].
  destruct (crr && _); [|reflexivity].
  destruct bf as [[[|r backup]|[|]| |]|]; try reflexivity.
  cbn -[call_logger recover_from_backup].
  match goal with |- context [call_logger l ?m ?s0] =>
    pose proof (call_logger_backup_file l m s0) as Hcall;
    destruct (call_logger l m s0) as [[st|e] s1] end;
    cbn [snd] in *; exact Hcall.
Qed.





(** ** Agent: one check cycle *)

(** The tracker does not touch the backup file. *)
Lemma detect_status_change_disk E config v t s r s' :
  detect_status_change E config v t s = (r, s') ->
  backup_file s' = backup_file s /\ writable s' = writable s.
Proof.
  unfold detect_status_change, parse_timestamp, subtract.
  intros H; run_in H.
  destruct (last_status (monitor s)) as [[|]|].
  - destruct v; cbn [andb negb] in H.
    + inversion H; subst; auto.
    + use_logger_call H. inversion H; subst; auto.
  - destruct v; cbn [andb negb] in H.
    + cbn [outage_start_time monitor set_monitor
           set_connectivity_restored_recently] in H.
      destruct (outage_start_time (monitor s)) as [st|].
      * destruct (Py.truthy st).
        -- destruct (fromisoformat E (Py.replace_Z st)) as [a|].
           ++ destruct (fromisoformat E (Py.replace_Z t)) as [b|].
              ** destruct (Bool.eqb (i_aware b) (i_aware a)).
                 --- use_logger_call H. inversion H; subst; auto.
                 --- inversion H; subst; auto.
              ** inversion H; subst; auto.
           ++ inversion H; subst; auto.
        -- inversion H; subst; auto.
      * inversion H; subst; auto.
    + inversion H; subst; auto.
  - inversion H; subst; auto.
Qed.

Lemma attempt_backup_recovery_returns E s :
  fst (attempt_backup_recovery E s) = Ok tt.
Proof.
  unfold attempt_backup_recovery.
  cbv beta iota zeta delta [bind gets].
  destruct (sheets_logger (monitor s)); [|reflexivity].
  unfold try_except.
  match goal with |- fst (match ?body with _ => _ end) = _ =>
    destruct body as [[[]|e] s1] end; reflexivity.
Qed.

(** Whenever a check cycle returns its result, the result is the newest
    record of the backup file, whatever the Sheets service did. *)
Lemma run_check_buffers_result E config s l result :
  buffered s = Some l -> writable s = true ->
  fst (run_check E config s) = Ok (Some result) ->
  buffered (snd (run_check E config s)) =
    Some (if (1000 <? length (l ++ [result]))%nat
          then Py.last_n 1000 (l ++ [result])
          else l ++ [result]).
Proof.
  intros Hb Hw. unfold run_check, try_except.
  cbv beta iota zeta delta [bind gets modify].
  destruct (detect_status_change E config _ _ (next_cycle s))
    as [[sc|e] s1] eqn:Hd; [|discriminate].
  apply detect_status_change_disk in Hd as [Hb1 Hw1].
  assert (Hb1' : buffered s1 = Some l)
    by (unfold buffered in *; rewrite Hb1; exact Hb).
  assert (Hw1' : writable s1 = true) by (rewrite Hw1; exact Hw).
  rewrite (save_local_backup_list _ s1 l Hb1' Hw1').
  unfold log_connectivity_check.
  match goal with |- context [if_sheets_logger (log_upload E ?u) ?s0] =>
    destruct (if_sheets_logger_log_upload E u s0) as (lg & w & Hc);
    rewrite Hc end.
  cbn [connectivity_restored_recently monitor set_monitor set_sheets_logger
       set_m_world set_backup_file].
  unfold when.
  destruct (connectivity_restored_recently (monitor s1)).
  - match goal with |- context [attempt_backup_recovery E ?s0] =>
      pose proof (attempt_backup_recovery_returns E s0) as Hret;
      pose proof (attempt_backup_recovery_backup_file E s0) as Hfile;
      destruct (attempt_backup_recovery E s0) as [r2 s2] end.
    cbn [fst snd] in *. subst r2.
    unfold log, modify, ret. cbn [fst snd].
    intros [= <-]. unfold buffered. cbn [add_log backup_file].
    rewrite Hfile. reflexivity.
  - unfold ret, log, modify. cbn [fst snd].
    intros [= <-]. reflexivity.
Qed.

(** * Further properties *)

(** ** ProbeEngine *)

(** X1.  The verdict of a cycle is true exactly when some configured ping
    target answered a ping and some configured HTTP target or DNS server
    answered as well; a probe that raises counts as a failure of its
    target and stops nothing. *)
Theorem connected_iff_probes_answer
    (E : Environment) (config : Config) (cycle : nat) :
  let answered probe targets :=
    exists t r, In t targets /\ probe t = Ok r /\ success r = true in
  connected (comprehensive_check E config cycle) = Some true <->
  answered (ping_test E cycle) (PING_TARGETS config)
  /\ (answered (http_test E cycle) (HTTP_TARGETS config)
      \/ answered (dns_test E cycle) (DNS_SERVERS config)).
Proof.
  cbn zeta. unfold comprehensive_check. cbn [connected].
  rewrite <- !any_map_probe.
  split.
  - intros [= H]. apply andb_prop in H as [Hp H].
    apply orb_prop in H. rewrite Hp. split; [reflexivity | exact H].
  - intros [Hp [Hh|Hd]]; rewrite Hp; [rewrite Hh | rewrite Hd];
      rewrite ?orb_true_r; reflexivity.
Qed.

Lemma connected_iff_probes_answer_witness :
  connected (comprehensive_check env_ok house1 0) = Some true.
Proof.
  apply (proj2 (connected_iff_probes_answer env_ok house1 0)).
  split; [|left]; eexists _, _; (split; [left; reflexivity|]);
    split; reflexivity.
Defined.

(** ** The notes of a connectivity row *)

Lemma failures_nil (results : list ProbeResult) :
  failures results = [] <-> Forall (fun r => success r = true) results.
Proof.
  unfold failures. induction results as [|r results IH]; cbn [filter map].
  - split; [constructor | reflexivity].
  - destruct (success r) eqn:Hr; cbn [negb map].
    + rewrite IH. split.
      * intros H; constructor; assumption.
      * intros H; inversion H; assumption.
    + split; [discriminate|]. intros H; inversion H; congruence.
Qed.

Lemma note_nil label failed : note label failed = [] <-> failed = [].
Proof. destruct failed; cbn; split; congruence. Qed.

(** The first character of a joined list is that of its first
    element. *)
Lemma join_first (sep : string) (c : ascii) (x' : string) (l : list string) :
  exists rest, Py.join sep (String c x' :: l) = String c rest.
Proof.
  unfold Py.join. destruct l as [|y l]; cbn [String.concat].
  - eexists; reflexivity.
  - eexists; cbn; reflexivity.
Qed.

Lemma note_first label c label' failed x l :
  label = String c label' -> note label failed = x :: l ->
  exists x', x = String c x'.
Proof.
  intros -> H. destruct failed; cbn in H; [discriminate|].
  inversion H; subst. eexists; cbn; reflexivity.
Qed.

Lemma notes_all_passed (data : CheckResult) :
  _generate_notes data = "All tests passed" <->
  Forall (fun r => success r = true) (ping_results data)
  /\ Forall (fun r => success r = true) (http_results data)
  /\ Forall (fun r => success r = true) (dns_results data).
Proof.
  rewrite <- !failures_nil. unfold _generate_notes.
  destruct (note "Ping failed: " (failures (ping_results data))) as [|x l] eqn:Hp.
  - apply note_nil in Hp. cbn [app].
    destruct (note "HTTP failed: " (failures (http_results data)))
      as [|y l] eqn:Hh.
    + apply note_nil in Hh. cbn [app].
      destruct (note "DNS failed: " (failures (dns_results data)))
        as [|z l] eqn:Hd.
      * apply note_nil in Hd. tauto.
      * split.
        -- intros H. exfalso.
           destruct (note_first _ _ _ _ _ _ eq_refl Hd) as [z' ->].
           destruct (join_first "; " "D" z' l) as [rest Hj].
           rewrite Hj in H. discriminate H.
        -- intros (_ & _ & H). rewrite H in Hd. discriminate Hd.
    + split.
      * intros H. exfalso.
        destruct (note_first _ _ _ _ _ _ eq_refl Hh) as [y' ->].
        cbn [app] in H.
        destruct (join_first "; " "H" y'
                    (l ++ note "DNS failed: " (failures (dns_results data))))
          as [rest Hj].
        rewrite Hj in H. discriminate H.
      * intros (_ & H & _). rewrite H in Hh. discriminate Hh.
  - split.
    + intros H. exfalso.
      destruct (note_first _ _ _ _ _ _ eq_refl Hp) as [x' ->].
      cbn [app] in H.
      match type of H with Py.join _ (_ :: ?t) = _ =>
        destruct (join_first "; " "P" x' t) as [rest Hj] end.
      rewrite Hj in H. discriminate H.
    + intros (H & _ & _). rewrite H in Hp. discriminate Hp.
Qed.

Lemma string_app_assoc (a b c : string) :
  ((a ++ b) ++ c = a ++ b ++ c)%string.
Proof. induction a as [|x a IH]; cbn; [reflexivity | rewrite IH; reflexivity]. Qed.

Lemma string_app_nil_r (a : string) : (a ++ EmptyString = a)%string.
Proof. induction a as [|x a IH]; cbn; [reflexivity | rewrite IH; reflexivity]. Qed.

(** A joined list holds each of its elements. *)
Lemma join_In (sep x : string) (l : list string) :
  In x l -> exists a b, Py.join sep l = (a ++ x ++ b)%string.
Proof.
  unfold Py.join. induction l as [|y l IH]; [intros []|].
  intros [->|Hin].
  - destruct l as [|z l]; cbn [String.concat].
    + exists EmptyString, EmptyString. cbn. rewrite string_app_nil_r.
      reflexivity.
    + exists EmptyString. eexists. cbn. reflexivity.
  - destruct l as [|z l]; [destruct Hin|].
    destruct (IH Hin) as (a & b & Hj).
    cbn [String.concat] in *. rewrite Hj.
    exists (y ++ sep ++ a)%string, b.
    rewrite !string_app_assoc. reflexivity.
Qed.

Lemma note_failures label results :
  note label (failures results) =
  if forallb success results then []
  else [(label ++ Py.join ", " (failures results))%string].
Proof.
  destruct (forallb success results) eqn:Hall.
  - apply note_nil, failures_nil, Forall_forall.
    rewrite forallb_forall in Hall. exact Hall.
  - destruct (failures results) as [|x l] eqn:Hf; [|reflexivity].
    apply failures_nil in Hf. rewrite Forall_forall in Hf.
    apply forallb_forall in Hf. congruence.
Qed.

(** A failed result is named in the notes, after the label of its
    kind. *)
Lemma notes_name label results t pre post :
  In t (failures results) ->
  names (Py.join "; " (pre ++ note label (failures results) ++ post)) label t.
Proof.
  intros Hin.
  destruct (failures results) as [|x l] eqn:Hf; [destruct Hin|].
  cbn [note]. rewrite <- Hf in *. clear Hf.
  destruct (join_In ", " t _ Hin) as (a' & b' & Ht).
  destruct (join_In "; " (label ++ Py.join ", " (failures results))%string
              (pre ++ [(label ++ Py.join ", " (failures results))%string]
               ++ post)) as (a & b & Hj).
  { apply in_or_app. right. now left. }
  rewrite Hj, Ht. exists a, a', (b' ++ b)%string.
  rewrite !string_app_assoc. reflexivity.
Qed.

Lemma failures_In (r : ProbeResult) results :
  In r results -> success r = false -> In (target r) (failures results).
Proof.
  intros Hin Hr. unfold failures. apply in_map, filter_In.
  split; [exact Hin | rewrite Hr; reflexivity].
Qed.

(** X2.  The notes of a row read "All tests passed" exactly when every probe
    of the cycle succeeded.  Otherwise they are the parts of the kinds of
    probe of which one failed, in the order ping, HTTP, DNS and joined by
    [; ]: each part is the label of its kind followed by the targets of
    the failed results of that kind, in their order and joined by [, ].
    So every failed result is named after the label of its kind. *)
Theorem notes_all_passed_iff (data : CheckResult) :
  let passed := Forall (fun r => success r = true) in
  let part label results :=
    if forallb success results then []
    else [(label ++ Py.join ", "
                      (map target
                           (filter (fun r => negb (success r)) results)))
          %string] in
  let parts :=
    part "Ping failed: "%string (ping_results data)
    ++ part "HTTP failed: "%string (http_results data)
    ++ part "DNS failed: "%string (dns_results data) in
  let failed results r := In r results /\ success r = false in
  (_generate_notes data = "All tests passed" <->
   passed (ping_results data) /\ passed (http_results data)
   /\ passed (dns_results data))
  /\ (parts <> [] -> _generate_notes data = Py.join "; " parts)
  /\ (parts = [] <->
      passed (ping_results data) /\ passed (http_results data)
      /\ passed (dns_results data))
  /\ (forall r, failed (ping_results data) r ->
        names (_generate_notes data) "Ping failed: " (target r))
  /\ (forall r, failed (http_results data) r ->
        names (_generate_notes data) "HTTP failed: " (target r))
  /\ (forall r, failed (dns_results data) r ->
        names (_generate_notes data) "DNS failed: " (target r)).
Proof.
  cbn zeta.
  assert (Hnotes : forall t,
            In t (note "Ping failed: " (failures (ping_results data)) ++
                  note "HTTP failed: " (failures (http_results data)) ++
                  note "DNS failed: " (failures (dns_results data))) ->
            _generate_notes data =
            Py.join "; "
              (note "Ping failed: " (failures (ping_results data)) ++
               note "HTTP failed: " (failures (http_results data)) ++
               note "DNS failed: " (failures (dns_results data)))).
  { intros t Hin. unfold _generate_notes.
    destruct (_ ++ _ ++ _); [destruct Hin | reflexivity]. }
  assert (Hpart : forall label results t,
            In t (failures results) ->
            In (label ++ Py.join ", " (failures results))%string
               (note label (failures results))).
  { intros label results t Hin.
    destruct (failures results); [destruct Hin | now left]. }
  split; [apply notes_all_passed|]. split; [|split; [|split; [|split]]].
  - fold (failures (ping_results data)) (failures (http_results data))
         (failures (dns_results data)).
    rewrite <- !note_failures. unfold _generate_notes.
    destruct (_ ++ _ ++ _); [congruence | reflexivity].
  - fold (failures (ping_results data)) (failures (http_results data))
         (failures (dns_results data)).
    rewrite <- !note_failures, <- !failures_nil. split.
    + intros H. apply app_eq_nil in H as [Hp H].
      apply app_eq_nil in H as [Hh Hd].
      rewrite note_nil in Hp, Hh, Hd. auto.
    + intros (-> & -> & ->). reflexivity.
  - intros r [Hin Hr]. pose proof (failures_In r _ Hin Hr) as Hf.
    rewrite (Hnotes _ (in_or_app _ _ _ (or_introl (Hpart _ _ _ Hf)))).
    apply (notes_name _ _ _ [] _ Hf).
  - intros r [Hin Hr]. pose proof (failures_In r _ Hin Hr) as Hf.
    rewrite (Hnotes _ (in_or_app _ _ _ (or_intror
               (in_or_app _ _ _ (or_introl (Hpart _ _ _ Hf)))))).
    apply (notes_name _ _ _ _ _ Hf).
  - intros r [Hin Hr]. pose proof (failures_In r _ Hin Hr) as Hf.
    rewrite (Hnotes _ (in_or_app _ _ _ (or_intror
               (in_or_app _ _ _ (or_intror (Hpart _ _ _ Hf)))))).
    rewrite <- (app_nil_r (note "DNS failed: " _)), app_assoc.
    apply (notes_name _ _ _ _ [] Hf).
Qed.

Lemma notes_all_passed_iff_witness :
  _generate_notes (comprehensive_check env_ok house1 0) = "All tests passed"
  /\ _generate_notes (comprehensive_check env_no_ping house1 0)
     = "Ping failed: 8.8.8.8, 1.1.1.1, 208.67.222.222".
Proof.
  split.
  - apply (proj2 (proj1 (notes_all_passed_iff
                           (comprehensive_check env_ok house1 0)))).
    cbn. repeat split; repeat constructor.
  - rewrite (proj1 (proj2 (notes_all_passed_iff
                             (comprehensive_check env_no_ping house1 0))));
      [reflexivity | discriminate].
Defined.

(** ** The backup file *)

Lemma last_n_app_one {A} (n : nat) (l : list A) (x : A) :
  Py.last_n (S n) (l ++ [x]) = Py.last_n n l ++ [x].
Proof.
  unfold Py.last_n. rewrite length_app. cbn [length].
  replace (length l + 1 - S n) with (length l - n) by lia.
  rewrite skipn_app.
  replace (length l - n - length l) with 0 by lia. reflexivity.
Qed.

Lemma last_n_last_n {A} (m n : nat) (l : list A) :
  m <= n -> Py.last_n m (Py.last_n n l) = Py.last_n m l.
Proof.
  intros Hmn. unfold Py.last_n. rewrite skipn_skipn, length_skipn.
  f_equal. lia.
Qed.

Lemma last_n_short {A} (n : nat) (l : list A) :
  length l <= n -> Py.last_n n l = l.
Proof.
  intros H. unfold Py.last_n.
  replace (length l - n) with 0 by lia. reflexivity.
Qed.

(** The list that [save_local_backup] writes is always the last 1000
    elements of the old list followed by the new record. *)
Lemma saved_list (l : list CheckResult) (data : CheckResult) :
  (if (1000 <? length (l ++ [data]))%nat
   then Py.last_n 1000 (l ++ [data]) else l ++ [data])
  = Py.last_n 1000 (l ++ [data]).
Proof.
  destruct (1000 <? length (l ++ [data]))%nat eqn:H; [reflexivity|].
  apply Nat.ltb_ge in H. symmetry. apply last_n_short, H.
Qed.

(** X3.  [save_local_backup] never raises and touches nothing but the file
    and the log.  There are three outcomes.  The write completes: the file
    holds the last 999 records it held followed by the new one, at most
    1000 records, and nothing is logged.  Or the file does not hold a
    list, or cannot be opened for writing: it is left as it was and one
    error is logged.  Or the file held a list and the write fails after
    [open] has truncated the file: what is left of it is not valid JSON,
    the records it held are lost, and one error is logged. *)
Theorem save_local_backup_outcomes (data : CheckResult) (s : MState) :
  let s' := snd (save_local_backup data s) in
  let error := (ERROR, "Failed to save local backup") in
  fst (save_local_backup data s) = Ok tt
  /\ monitor s' = monitor s /\ m_world s' = m_world s
  /\ writable s' = writable s
  /\ fails_after_open s' = fails_after_open s
  /\ cycle s' = cycle s
  /\ ((exists l old, buffered s = Some old /\ writable s = true
         /\ backup_file s' = Some (JsonList (l ++ [data]))
         /\ l = Py.last_n 999 old /\ length (l ++ [data]) <= 1000
         /\ logged s' = logged s)
      \/ ((buffered s = None
           \/ (writable s = false /\ fails_after_open s = false))
          /\ backup_file s' = backup_file s
          /\ logged s' = logged s ++ [error])
      \/ (exists old, buffered s = Some old
            /\ writable s = false /\ fails_after_open s = true
            /\ backup_file s' = Some Corrupt /\ buffered s' = None
            /\ logged s' = logged s ++ [error])).
Proof.
  cbn zeta.
  destruct (buffered s) as [old|] eqn:Hb; [destruct (writable s) eqn:Hw|].
  - rewrite (save_local_backup_list data s old Hb Hw), saved_list.
    cbn [fst snd set_backup_file monitor m_world writable fails_after_open
         cycle backup_file logged].
    rewrite last_n_app_one.
    do 6 (split; [auto|]). left.
    exists (Py.last_n 999 old), old.
    repeat split; auto.
    rewrite length_app, last_n_length. cbn [length]. lia.
  - unfold save_local_backup, load_and_append, buffered in *.
    cbv beta iota zeta delta [bind gets modify ret raise log try_except when].
    destruct (backup_file s) as [[l| | |]|] eqn:Hf; try discriminate Hb;
      injection Hb as <-; rewrite Hw;
      destruct (fails_after_open s) eqn:Hfo; cbn; rewrite ?Hf, ?Hfo;
      do 6 (split; [auto|]); right;
      [right; eexists | left | right; eexists | left]; repeat split; auto.
  - unfold save_local_backup, load_and_append, buffered in *.
    cbv beta iota zeta delta [bind gets modify ret raise log try_except when].
    destruct (backup_file s) as [[l| | |]|] eqn:Hf; try discriminate Hb;
      cbn; rewrite ?Hf; do 6 (split; [auto|]);
      right; left; repeat split; auto.
Qed.

Example failed_write_loses_the_backup :
  let r := comprehensive_check env_ok house1 in
  let s := mkMState (initial_monitor None) empty_world
                    (Some (JsonList [r 0; r 1])) false true [] 2 in
  let s1 := snd (save_local_backup (r 2) s) in
  let s2 := snd (save_local_backup (r 3)
                   (mkMState (monitor s1) (m_world s1) (backup_file s1)
                             true false (logged s1) (cycle s1))) in
  backup_file s1 = Some Corrupt /\ backup_file s2 = Some Corrupt.
Proof. vm_compute. split; reflexivity. Qed.

Lemma last_n_zero {A} (l : list A) : Py.last_n 0 l = [].
Proof. unfold Py.last_n. rewrite Nat.sub_0_r. apply skipn_all. Qed.

(** The last elements of a list that was extended depend only on as many
    last elements of the list before. *)
Lemma last_n_app_last_n {A} (n : nat) (a : list A) : forall ds m,
  m <= n -> Py.last_n m (Py.last_n n a ++ ds) = Py.last_n m (a ++ ds).
Proof.
  induction ds as [|x ds IH] using rev_ind; intros m Hm.
  - rewrite !app_nil_r. apply last_n_last_n, Hm.
  - rewrite !app_assoc. destruct m as [|m].
    + rewrite !last_n_zero. reflexivity.
    + rewrite !last_n_app_one, IH by lia. reflexivity.
Qed.

(** X4.  Saving a sequence of records one after the other leaves the last
    1000 of the old records followed by the new ones, in order. *)
Theorem save_all_keeps_newest (ds : list CheckResult) : forall s l,
  buffered s = Some l -> writable s = true -> ds <> [] ->
  buffered (save_all ds s) = Some (Py.last_n 1000 (l ++ ds)).
Proof.
  induction ds as [|d ds IH]; intros s l Hb Hw Hds; [congruence|].
  unfold save_all. cbn [fold_left].
  fold (save_all ds (snd (save_local_backup d s))).
  assert (Hb1 : buffered (snd (save_local_backup d s))
                = Some (Py.last_n 1000 (l ++ [d]))).
  { rewrite (save_local_backup_list d s l Hb Hw), saved_list. reflexivity. }
  assert (Hw1 : writable (snd (save_local_backup d s)) = true).
  { rewrite (save_local_backup_list d s l Hb Hw). exact Hw. }
  destruct ds as [|d' ds].
  - exact Hb1.
  - rewrite (IH _ _ Hb1 Hw1) by discriminate.
    rewrite last_n_app_last_n by lia.
    rewrite <- app_assoc. reflexivity.
Qed.

Lemma save_all_keeps_newest_witness :
  let r := comprehensive_check env_ok house1 in
  buffered (save_all [r 1; r 2]
              (set_backup_file (Some (JsonList (repeat (r 0) 999)))
                               fresh_state))
  = Some (repeat (r 0) 998 ++ [r 1; r 2]).
Proof.
  cbn zeta.
  rewrite (save_all_keeps_newest
             [comprehensive_check env_ok house1 1;
              comprehensive_check env_ok house1 2]
             (set_backup_file
                (Some (JsonList (repeat (comprehensive_check env_ok house1 0)
                                        999)))
                fresh_state)
             (repeat (comprehensive_check env_ok house1 0) 999)
             eq_refl eq_refl); [|discriminate].
  reflexivity.
Defined.

(** ** The outage tracker *)

Lemma feed_tracker_final E config inputs : forall s,
  tracker (snd (feed E config inputs s))
  = tracker_final E config inputs (tracker s).
Proof.
  induction inputs as [|[v t] rest IH]; intros s; [reflexivity|].
  cbn [feed tracker_final].
  destruct (detect_status_change E config v t s) as [r s1] eqn:Hd.
  rewrite (detect_status_change_tracker _ _ _ _ _ _ _ Hd). cbn [snd].
  specialize (IH s1). destruct (feed E config rest s1); cbn [snd] in *.
  exact IH.
Qed.

Lemma tracker_feed_pairs E config aware inputs :
  forall (b : bool) (o : option string),
  (forall st, o = Some st -> well_formed E aware st) ->
  Forall (well_formed E aware) (map snd inputs) ->
  pairs E (LOCATION_ID config) (if b then None else o)
        (emitted (tracker_feed E config inputs (Some b, o))).
Proof.
  induction inputs as [|[v t] rest IH]; intros b o Ho Hwf; [cbn; trivial|].
  inversion Hwf as [|? ? Ht Hwf']; subst.
  assert (Hnone : forall st',
            @None string = Some st' -> well_formed E aware st')
    by discriminate.
  assert (Hsome : forall st', Some t = Some st' -> well_formed E aware st')
    by (intros ? [= <-]; exact Ht).
  destruct Ht as (Ht1 & c & Ht2 & Ht3).
  cbn [tracker_feed]. destruct b, v; cbn [tracker_step].
  - apply (IH true o Ho Hwf').
  - cbn [emitted flat_map app pairs].
    fold (emitted (tracker_feed E config rest (Some false, Some t))).
    repeat split. apply (IH false (Some t) Hsome Hwf').
  - destruct o as [st|].
    + destruct (Ho st eq_refl) as (Hst1 & a & Hst2 & Hst3).
      rewrite Hst1, Hst2, Ht2, Ht3, Hst3, eqb_reflx.
      cbn [emitted flat_map app pairs].
      fold (emitted (tracker_feed E config rest (Some true, None))).
      repeat split.
      * exists a, c. rewrite Hst3, Ht3. auto.
      * apply (IH true None Hnone Hwf').
    + apply (IH true None Hnone Hwf').
  - apply (IH false o Ho Hwf').
Qed.

(** X5.  From the initial state and for timestamps that [fromisoformat]
    accepts, all offset-aware or all offset-naive, the events come in
    pairs: every [outage_end] directly follows the [outage_start] of its
    outage among the events, carries that start's timestamp and location,
    and its duration is the time between the two timestamps. *)
Theorem outage_events_are_paired
    (E : Environment) (config : Config) (aware : bool)
    (inputs : list (bool * string)) (s : MState) :
  last_status (monitor s) = None ->
  outage_start_time (monitor s) = None ->
  Forall (well_formed E aware) (map snd inputs) ->
  pairs E (LOCATION_ID config) None
        (emitted (fst (feed E config inputs s))).
Proof.
  intros Hlast Hstart Hwf.
  rewrite feed_tracker_feed. unfold tracker. rewrite Hlast, Hstart.
  destruct inputs as [|[v t] rest]; [cbn; trivial|].
  cbn [tracker_feed tracker_step emitted flat_map app].
  fold (emitted (tracker_feed E config rest (Some v, None))).
  inversion Hwf as [|? ? _ Hwf']; subst.
  pose proof (tracker_feed_pairs E config aware rest v None
                ltac:(discriminate) Hwf') as H.
  destruct v; exact H.
Qed.

Lemma outage_events_are_paired_witness :
  pairs env_ok "house1" None
    (emitted
       (fst (feed env_ok house1
               [(true, utc_now env_ok 0); (false, utc_now env_ok 1);
                (true, utc_now env_ok 2); (false, utc_now env_ok 3)]
               fresh_state))).
Proof.
  apply (outage_events_are_paired env_ok house1 true
           [(true, utc_now env_ok 0); (false, utc_now env_ok 1);
            (true, utc_now env_ok 2); (false, utc_now env_ok 3)]
           fresh_state eq_refl eq_refl).
  repeat constructor; eexists; split; reflexivity.
Defined.

Lemma last_cons {A} (x d : A) (l : list A) : last (x :: l) d = last l x.
Proof.
  revert x d. induction l as [|y l IH]; intros x d; [reflexivity|].
  change (last (x :: y :: l) d) with (last (y :: l) d).
  rewrite (IH y d), (IH y x). reflexivity.
Qed.

Lemma tracker_final_open E config aware inputs :
  forall (b : bool) (o : option string),
  (b = true -> o = None) ->
  (forall st, o = Some st -> well_formed E aware st) ->
  Forall (well_formed E aware) (map snd inputs) ->
  fst (tracker_final E config inputs (Some b, o))
    = Some (last (map fst inputs) b)
  /\ forall t,
       snd (tracker_final E config inputs (Some b, o)) = Some t <->
       (o = Some t /\ Forall (fun p => fst p = false) inputs)
       \/ (exists pre post,
             inputs = pre ++ (false, t) :: post
             /\ last (map fst pre) b = true
             /\ Forall (fun p => fst p = false) post).
Proof.
  induction inputs as [|[v t1] rest IH]; intros b o Hinv Ho Hwf.
  - cbn. split; [reflexivity|]. intros t. split.
    + intros ->. left. split; [reflexivity | constructor].
    + intros [[-> _]|(pre & post & H & _)]; [reflexivity|].
      destruct pre; discriminate H.
  - inversion Hwf as [|? ? Ht Hwf']; subst.
    assert (Hnone : forall st',
              @None string = Some st' -> well_formed E aware st')
      by discriminate.
    assert (Hsome : forall st',
              Some t1 = Some st' -> well_formed E aware st')
      by (intros ? [= <-]; exact Ht).
    destruct Ht as (Ht1 & c & Ht2 & Ht3).
    cbn [tracker_final map fst]. rewrite last_cons.
    assert (Hstep :
      snd (tracker_step E config (Some b, o) v t1)
      = (Some v, if v then (if b then o else None)
                 else (if b then Some t1 else o))).
    { destruct b, v; cbn [tracker_step snd]; try reflexivity.
      destruct o as [st|]; [|reflexivity].
      destruct (Ho st eq_refl) as (Hst1 & a & Hst2 & Hst3).
      rewrite Hst1, Hst2, Ht2, Ht3, Hst3, eqb_reflx.
      reflexivity. }
    rewrite Hstep.
    destruct b, v.
    + (* up, up *)
      rewrite (Hinv eq_refl) in *.
      destruct (IH true None (fun _ => eq_refl) Hnone Hwf') as [H1 H2].
      split; [exact H1|]. intros t. rewrite H2. split.
      * intros [[H _]|(pre & post & -> & Hl & Hp)]; [discriminate|].
        right. exists ((true, t1) :: pre), post.
        cbn [map fst]. rewrite last_cons. auto.
      * intros [[H _]|(pre & post & Heq & Hl & Hp)]; [discriminate|].
        right. destruct pre as [|x pre]; [discriminate Heq|].
        inversion Heq; subst. exists pre, post.
        cbn [map fst] in Hl. rewrite last_cons in Hl. auto.
    + (* up, down *)
      rewrite (Hinv eq_refl) in *.
      destruct (IH false (Some t1) ltac:(discriminate) Hsome Hwf')
        as [H1 H2].
      split; [exact H1|]. intros t. rewrite H2. split.
      * intros [[[= <-] Hall]|(pre & post & -> & Hl & Hp)]; right.
        -- exists [], rest. auto.
        -- exists ((false, t1) :: pre), post.
           cbn [map fst]. rewrite last_cons. auto.
      * intros [[H _]|(pre & post & Heq & Hl & Hp)]; [discriminate|].
        destruct pre as [|x pre].
        -- inversion Heq; subst. left. auto.
        -- inversion Heq; subst. right. exists pre, post.
           cbn [map fst] in Hl. rewrite last_cons in Hl. auto.
    + (* down, up *)
      destruct (IH true None (fun _ => eq_refl) Hnone Hwf') as [H1 H2].
      split; [exact H1|]. intros t. rewrite H2. split.
      * intros [[H _]|(pre & post & -> & Hl & Hp)]; [discriminate|].
        right. exists ((true, t1) :: pre), post.
        cbn [map fst]. rewrite last_cons. auto.
      * intros [[_ Hall]|(pre & post & Heq & Hl & Hp)].
        -- inversion Hall; subst; discriminate.
        -- right. destruct pre as [|x pre]; [discriminate Heq|].
           inversion Heq; subst. exists pre, post.
           cbn [map fst] in Hl. rewrite last_cons in Hl. auto.
    + (* down, down *)
      destruct (IH false o ltac:(discriminate) Ho Hwf') as [H1 H2].
      split; [exact H1|]. intros t. rewrite H2. split.
      * intros [[-> Hall]|(pre & post & -> & Hl & Hp)].
        -- left. split; [reflexivity|]. constructor; auto.
        -- right. exists ((false, t1) :: pre), post.
           cbn [map fst]. rewrite last_cons. auto.
      * intros [[-> Hall]|(pre & post & Heq & Hl & Hp)].
        -- left. inversion Hall; subst. auto.
        -- right. destruct pre as [|x pre]; [discriminate Hl|].
           inversion Heq; subst. exists pre, post.
           cbn [map fst] in Hl. rewrite last_cons in Hl. auto.
Qed.

(** X6.  After any sequence of calls from the initial state (timestamps that
    [fromisoformat] accepts, all offset-aware or all offset-naive),
    [last_status] is the last verdict, and
    [outage_start_time] is set exactly while the verdicts have been false
    since the last true one: it then holds the timestamp of the first of
    these false verdicts.  So there is at most one open outage, and only
    while the connection is down. *)
Theorem open_outage_since_last_up
    (E : Environment) (config : Config) (aware : bool)
    (inputs : list (bool * string)) (s : MState) :
  last_status (monitor s) = None ->
  outage_start_time (monitor s) = None ->
  Forall (well_formed E aware) (map snd inputs) ->
  let s' := snd (feed E config inputs s) in
  last_status (monitor s') =
    match inputs with
    | [] => None
    | _ => Some (last (map fst inputs) false)
    end
  /\ forall t,
       outage_start_time (monitor s') = Some t <->
       exists pre post,
         inputs = pre ++ (false, t) :: post
         /\ last (map fst pre) false = true
         /\ Forall (fun p => fst p = false) post.
Proof.
  intros Hlast Hstart Hwf; cbn zeta.
  pose proof (feed_tracker_final E config inputs s) as Hf.
  unfold tracker in Hf at 2. rewrite Hlast, Hstart in Hf.
  assert (Hf1 : last_status (monitor (snd (feed E config inputs s)))
                = fst (tracker_final E config inputs (None, None)))
    by (rewrite <- Hf; reflexivity).
  assert (Hf2 : outage_start_time (monitor (snd (feed E config inputs s)))
                = snd (tracker_final E config inputs (None, None)))
    by (rewrite <- Hf; reflexivity).
  rewrite Hf1, Hf2. clear Hf Hf1 Hf2.
  destruct inputs as [|[v t1] rest].
  - cbn. split; [reflexivity|]. intros t. split; [discriminate|].
    intros (pre & post & H & _). destruct pre; discriminate H.
  - inversion Hwf as [|? ? _ Hwf']; subst.
    cbn [tracker_final tracker_step snd].
    destruct (tracker_final_open E config aware rest v None
                (fun _ => eq_refl) ltac:(discriminate) Hwf') as [H1 H2].
    rewrite H1. cbn [map fst]. rewrite last_cons.
    split; [reflexivity|]. intros t. rewrite H2. split.
    + intros [[H _]|(pre & post & -> & Hl & Hp)]; [discriminate|].
      exists ((v, t1) :: pre), post. cbn [map fst]. rewrite last_cons. auto.
    + intros (pre & post & Heq & Hl & Hp). right.
      destruct pre as [|x pre]; [discriminate Hl|].
      inversion Heq; subst. exists pre, post.
      cbn [map fst] in Hl. rewrite last_cons in Hl. auto.
Qed.

Lemma open_outage_since_last_up_witness :
  outage_start_time
    (monitor
       (snd (feed env_ok house1
               [(true, utc_now env_ok 0); (false, utc_now env_ok 1);
                (false, utc_now env_ok 2)] fresh_state)))
  = Some (utc_now env_ok 1).
Proof.
  apply (proj2 (open_outage_since_last_up env_ok house1 true
                  [(true, utc_now env_ok 0); (false, utc_now env_ok 1);
                   (false, utc_now env_ok 2)] fresh_state eq_refl eq_refl
                  ltac:(repeat constructor; eexists; split; reflexivity))).
  exists [(true, utc_now env_ok 0)], [(false, utc_now env_ok 2)].
  repeat split. repeat constructor.
Defined.

(** ** Closing an outage row *)

Lemma is_ongoing_firstn location start_time row :
  is_ongoing location start_time (firstn 7 row)
  = is_ongoing location start_time row.
Proof.
  unfold is_ongoing. rewrite length_firstn, !nth_error_firstn.
  change (0 <? 7)%nat with true. change (1 <? 7)%nat with true.
  change (6 <? 7)%nat with true. cbv iota.
  destruct (le_lt_dec 7 (length row)) as [H|H].
  - rewrite Nat.min_l by exact H.
    apply Nat.leb_le in H. rewrite H. reflexivity.
  - rewrite Nat.min_r by lia. reflexivity.
Qed.

Lemma find_ongoing_firstn location start_time rows : forall i,
  find_ongoing location start_time (map (firstn 7) rows) i
  = find_ongoing location start_time rows i.
Proof.
  induction rows as [|row rows IH]; intros i; [reflexivity|].
  cbn [map find_ongoing]. rewrite is_ongoing_firstn, IH. reflexivity.
Qed.

(** What the search returns: the first open row, when there is one. *)
Lemma find_ongoing_some location start_time rows : forall i0 i,
  find_ongoing location start_time rows i0 = Some i ->
  exists pre row post,
    rows = pre ++ row :: post
    /\ i = i0 + length pre
    /\ is_ongoing location start_time row = true
    /\ count (is_ongoing location start_time) pre = 0.
Proof.
  induction rows as [|row rows IH]; intros i0 i H; [discriminate H|].
  cbn [find_ongoing] in H.
  destruct (is_ongoing location start_time row) eqn:Hrow.
  - inversion H; subst. exists [], row, rows. cbn. repeat split; auto.
  - destruct (IH _ _ H) as (pre & r & post & -> & -> & Hr & Hpre).
    exists (row :: pre), r, post. cbn [app length].
    split; [reflexivity|]. split; [lia|]. split; [exact Hr|].
    unfold count in *. cbn [filter]. rewrite Hrow. exact Hpre.
Qed.

Lemma find_ongoing_none location start_time rows : forall i0,
  find_ongoing location start_time rows i0 = None <->
  count (is_ongoing location start_time) rows = 0.
Proof.
  unfold count.
  induction rows as [|row rows IH]; intros i0; cbn [find_ongoing filter].
  - split; reflexivity.
  - destruct (is_ongoing location start_time row).
    + split; discriminate.
    + apply IH.
Qed.

Lemma update_row_at cells pre row post :
  update_row (length pre) cells (pre ++ row :: post)
  = pre ++ update_CG cells row :: post.
Proof.
  induction pre as [|x pre IH]; cbn [length app update_row]; [reflexivity|].
  rewrite IH. reflexivity.
Qed.

(** Closing a row leaves the rows of other outages as they are. *)
Lemma is_ongoing_other location start_time location' start_time' row :
  is_ongoing location start_time row = true ->
  (location', start_time') <> (location, start_time) ->
  is_ongoing location' start_time' row = false.
Proof.
  unfold is_ongoing, cell_is. intros H Hne.
  destruct (7 <=? length row)%nat; [|discriminate H]. cbn [andb] in *.
  destruct (nth_error row 0) as [[a|]|]; try discriminate H.
  destruct (nth_error row 1) as [[b|]|];
    try (rewrite andb_false_r in H; discriminate H).
  apply andb_prop in H as [H _]. apply andb_prop in H as [Ha Hb].
  apply String.eqb_eq in Ha, Hb. subst a b.
  destruct (String.eqb location location') eqn:H1; [|reflexivity].
  destruct (String.eqb start_time start_time') eqn:H2;
    [|cbn; reflexivity].
  apply String.eqb_eq in H1, H2. subst. congruence.
Qed.

Lemma request_success E c s :
  service (logger s) = true ->
  api_outcome E (length (calls (world s))) = Success ->
  request E c s =
  (Ok tt, set_world (apply_call c) (set_world (log_call c) s)).
Proof. intros Hs He. unfold request. rewrite Hs, He. reflexivity. Qed.

Lemma count_cons {A} (p : A -> bool) (x : A) (l : list A) :
  count p (x :: l) = (if p x then 1 else 0) + count p l.
Proof. unfold count. cbn [filter]. destruct (p x); reflexivity. Qed.

Lemma is_ongoing_resolved_row E location start_time loc st en d :
  is_ongoing location start_time (resolved_row E loc st en d) = false.
Proof.
  unfold is_ongoing, resolved_row, closing_cells. cbn.
  rewrite !andb_false_r. reflexivity.
Qed.

Lemma is_ongoing_closed E location start_time en d row :
  is_ongoing location start_time (update_CG (closing_cells E en d) row)
  = false.
Proof. apply is_ongoing_update_CG. Qed.

(** [_log_outage_end_direct] when the service accepts its two
    requests: what it leaves in the sheets. *)
Lemma _log_outage_end_direct_run E loc st en d s :
  service (logger s) = true ->
  api_outcome E (length (calls (world s))) = Success ->
  api_outcome E (S (length (calls (world s)))) = Success ->
  exists s',
    _log_outage_end_direct E loc st en d s = (Ok tt, s')
    /\ checks_sheet (world s') = checks_sheet (world s)
    /\ outages_sheet (world s') =
       match find_ongoing loc st (outages_sheet (world s)) 0 with
       | Some i =>
           update_row i (closing_cells E en d) (outages_sheet (world s))
       | None => outages_sheet (world s) ++ [resolved_row E loc st en d]
       end.
Proof.
  intros Hs H0 H1.
  unfold _log_outage_end_direct, values_get, _append_row.
  cbv beta iota zeta delta [bind gets ret].
  rewrite (request_success E ValuesGet s Hs H0).
  cbn [world set_world apply_call log_call outages_sheet].
  rewrite find_ongoing_firstn.
  set (s1 := set_world (apply_call ValuesGet)
               (set_world (log_call ValuesGet) s)).
  assert (Hs1 : service (logger s1) = true) by exact Hs.
  assert (H1' : api_outcome E (length (calls (world s1))) = Success).
  { unfold s1. cbn [world set_world apply_call log_call calls].
    rewrite length_app. cbn [length].
    replace (length (calls (world s)) + 1) with (S (length (calls (world s))))
      by lia. exact H1. }
  destruct (find_ongoing loc st (outages_sheet (world s)) 0) as [i|];
    rewrite (request_success E _ s1 Hs1 H1');
    eexists; (split; [reflexivity|]); split; reflexivity.
Qed.

(** Closing the first open row of an outage takes one from its open
    rows and none from those of another outage. *)
Lemma count_closed_row E loc st loc' st' en d pre row post :
  is_ongoing loc st row = true ->
  count (is_ongoing loc' st')
        (pre ++ update_CG (closing_cells E en d) row :: post)
  = count (is_ongoing loc' st') (pre ++ row :: post)
    - (if is_ongoing loc' st' row then 1 else 0).
Proof.
  intros Hrow. rewrite !count_app, !count_cons, is_ongoing_closed.
  destruct (is_ongoing loc' st' row); lia.
Qed.

(** X7.  When the service accepts its two requests, [_log_outage_end_direct]
    closes the first open row of the outage and no other: the open rows
    of that location and start time become one fewer, those of every
    other outage stay as they are.  When the outage has no open row, it
    appends a complete RESOLVED row instead of failing. *)
Theorem outage_end_closes_first_open_row
    (E : Environment) (loc st en : string) (d : Q) (s : LState) :
  service (logger s) = true ->
  api_outcome E (length (calls (world s))) = Success ->
  api_outcome E (S (length (calls (world s)))) = Success ->
  let s' := snd (_log_outage_end_direct E loc st en d s) in
  fst (_log_outage_end_direct E loc st en d s) = Ok tt
  /\ (0 < open_rows loc st (world s) ->
      exists pre row post,
        outages_sheet (world s) = pre ++ row :: post
        /\ count (is_ongoing loc st) pre = 0
        /\ is_ongoing loc st row = true
        /\ outages_sheet (world s') =
           pre ++ update_CG (closing_cells E en d) row :: post)
  /\ (open_rows loc st (world s) = 0 ->
      outages_sheet (world s') =
      outages_sheet (world s) ++ [resolved_row E loc st en d])
  /\ open_rows loc st (world s') = open_rows loc st (world s) - 1
  /\ (forall loc' st',
        (loc', st') <> (loc, st) ->
        open_rows loc' st' (world s') = open_rows loc' st' (world s))
  /\ checks_sheet (world s') = checks_sheet (world s).
Proof.
  intros Hs H0 H1; cbn zeta.
  destruct (_log_outage_end_direct_run E loc st en d s Hs H0 H1)
    as (s' & -> & Hchecks & Hout).
  cbn [fst snd]. unfold open_rows. rewrite Hout. clear Hout.
  split; [reflexivity|].
  destruct (find_ongoing loc st (outages_sheet (world s)) 0) as [i|] eqn:Hfind.
  - destruct (find_ongoing_some _ _ _ _ _ Hfind)
      as (pre & row & post & Hrows & -> & Hrow & Hpre).
    rewrite Hrows. cbn [Nat.add]. rewrite update_row_at.
    split; [intros _; exists pre, row, post; auto|].
    split; [rewrite count_app, count_cons, Hrow; intros H; lia|].
    split; [rewrite (count_closed_row E loc st loc st en d pre row post Hrow),
              Hrow; reflexivity|].
    split; [|exact Hchecks].
    intros loc' st' Hne.
    rewrite (count_closed_row E loc st loc' st' en d pre row post Hrow),
            (is_ongoing_other loc st loc' st' row Hrow Hne).
    apply Nat.sub_0_r.
  - apply find_ongoing_none in Hfind.
    split; [intros H; lia|]. split; [reflexivity|].
    split; [rewrite count_app, count_cons, is_ongoing_resolved_row, Hfind;
            reflexivity|].
    split; [|exact Hchecks].
    intros loc' st' Hne.
    rewrite count_app, count_cons, is_ongoing_resolved_row.
    cbn [count filter length]. lia.
Qed.

Lemma outage_end_closes_first_open_row_witness :
  let s := mkLState fresh_logger
             (mkWorld []
                [ongoing_row "house1" "2024-01-01T09:00:00+00:00";
                 ongoing_row "house1" "2024-01-01T10:02:00+00:00";
                 ongoing_row "house1" "2024-01-01T10:02:00+00:00"]
                [] [] 0 0) in
  outages_sheet
    (world (snd (_log_outage_end_direct env_ok "house1"
                   "2024-01-01T10:02:00+00:00" "2024-01-01T10:04:00+00:00"
                   120 s)))
  = [ongoing_row "house1" "2024-01-01T09:00:00+00:00";
     resolved_row env_ok "house1" "2024-01-01T10:02:00+00:00"
                  "2024-01-01T10:04:00+00:00" 120;
     ongoing_row "house1" "2024-01-01T10:02:00+00:00"].
Proof.
  cbn zeta.
  destruct (outage_end_closes_first_open_row env_ok "house1"
              "2024-01-01T10:02:00+00:00" "2024-01-01T10:04:00+00:00" 120
              (mkLState fresh_logger
                 (mkWorld []
                    [ongoing_row "house1" "2024-01-01T09:00:00+00:00";
                     ongoing_row "house1" "2024-01-01T10:02:00+00:00";
                     ongoing_row "house1" "2024-01-01T10:02:00+00:00"]
                    [] [] 0 0))
              eq_refl eq_refl eq_refl)
    as (_ & Hopen & _).
  destruct Hopen as (pre & row & post & Hrows & Hpre & Hrow & Hout);
    [vm_compute; lia|].
  rewrite Hout. clear Hout.
  destruct pre as [|r0 [|r1 pre]]; cbn [app] in Hrows.
  - injection Hrows as <- <-. discriminate Hrow.
  - injection Hrows as <- <- <-. reflexivity.
  - injection Hrows as <- <- Hrest. discriminate Hpre.
Defined.

(** ** An outage from its start to its end *)

Lemma update_CG_ongoing_row E loc st en d :
  update_CG (closing_cells E en d) (ongoing_row loc st)
  = resolved_row E loc st en d.
Proof. reflexivity. Qed.

Lemma find_ongoing_first location start_time pre row post : forall i,
  count (is_ongoing location start_time) pre = 0 ->
  is_ongoing location start_time row = true ->
  find_ongoing location start_time (pre ++ row :: post) i
  = Some (i + length pre).
Proof.
  induction pre as [|r pre IH]; intros i Hz Hrow; cbn [app find_ongoing].
  - rewrite Hrow. cbn [length]. f_equal. lia.
  - rewrite count_cons in Hz.
    destruct (is_ongoing location start_time r); [discriminate Hz|].
    rewrite IH by assumption. cbn [length]. f_equal. lia.
Qed.

Lemma app_eq_length {A} (a c b d : list A) :
  length a = length c -> a ++ b = c ++ d -> a = c /\ b = d.
Proof.
  revert c. induction a as [|x a IH]; intros [|y c] Hlen H;
    try discriminate Hlen.
  - auto.
  - cbn [app] in H. injection H as -> H. injection Hlen as Hlen.
    destruct (IH c Hlen H) as [-> ->]. auto.
Qed.

(** X8.  Two accepted uploads, the start of an outage and then its end, leave
    as many open rows for that outage as there were before.  When there
    was none, the row that the start appended is the one that the end
    closes: the sheet has gained exactly one row, complete and RESOLVED,
    below the rows it had. *)
Theorem outage_row_round_trip
    (E : Environment) (loc st en : string) (d : Q) (s : LState) :
  service (logger s) = true ->
  (forall i, i < 3 ->
     api_outcome E (length (calls (world s)) + i) = Success) ->
  let s1 := snd (_log_outage_start_direct E loc st s) in
  let s2 := snd (_log_outage_end_direct E loc st en d s1) in
  fst (_log_outage_start_direct E loc st s) = Ok tt
  /\ fst (_log_outage_end_direct E loc st en d s1) = Ok tt
  /\ open_rows loc st (world s2) = open_rows loc st (world s)
  /\ (open_rows loc st (world s) = 0 ->
      outages_sheet (world s2)
      = outages_sheet (world s) ++ [resolved_row E loc st en d]).
Proof.
  intros Hs Hok; cbn zeta.
  pose proof (Hok 0 ltac:(lia)) as H0. rewrite Nat.add_0_r in H0.
  unfold _log_outage_start_direct, _append_row.
  rewrite (request_success E _ s Hs H0). cbn [fst snd].
  set (s1 := set_world (apply_call (ValuesAppend Outages (ongoing_row loc st)))
               (set_world (log_call (ValuesAppend Outages (ongoing_row loc st)))
                  s)).
  assert (Hs1 : service (logger s1) = true) by exact Hs.
  assert (Hlen : length (calls (world s1)) = length (calls (world s)) + 1).
  { unfold s1. cbn [world set_world apply_call set_outages log_call calls].
    rewrite length_app. reflexivity. }
  assert (Hsheet : outages_sheet (world s1)
                   = outages_sheet (world s) ++ [ongoing_row loc st])
    by reflexivity.
  assert (Hopen1 : open_rows loc st (world s1)
                   = S (open_rows loc st (world s))).
  { unfold open_rows. rewrite Hsheet, count_app, count_cons.
    rewrite is_ongoing_ongoing_row. cbn. lia. }
  destruct (_log_outage_end_direct_run E loc st en d s1 Hs1)
    as (s2 & -> & _ & Hout).
  { rewrite Hlen. apply Hok. lia. }
  { rewrite Hlen.
    replace (S (length (calls (world s)) + 1))
      with (length (calls (world s)) + 2) by lia.
    apply Hok. lia. }
  cbn [fst snd]. split; [reflexivity|]. split; [reflexivity|].
  unfold open_rows in *. rewrite Hout. clear Hout.
  destruct (find_ongoing loc st (outages_sheet (world s1)) 0)
    as [i|] eqn:Hfind.
  - destruct (find_ongoing_some _ _ _ _ _ Hfind)
      as (pre & row & post & Hrows & -> & Hrow & Hpre).
    rewrite Hrows in *. cbn [Nat.add]. rewrite update_row_at. split.
    + rewrite (count_closed_row E loc st loc st en d pre row post Hrow),
              Hrow, Hopen1.
      lia.
    + intros Hnone.
      pose proof (find_ongoing_first loc st (outages_sheet (world s))
                    (ongoing_row loc st) [] 0 Hnone
                    (is_ongoing_ongoing_row loc st)) as Hfirst.
      rewrite <- Hsheet, Hfind in Hfirst. injection Hfirst as Hlenpre.
      symmetry in Hsheet.
      destruct (app_eq_length _ _ _ _ (eq_sym Hlenpre) Hsheet)
        as [<- Hlast].
      injection Hlast as <- <-.
      rewrite update_CG_ongoing_row. reflexivity.
  - exfalso. apply find_ongoing_none in Hfind. lia.
Qed.

Lemma outage_row_round_trip_witness :
  let s := mkLState fresh_logger empty_world in
  outages_sheet
    (world (snd (_log_outage_end_direct env_ok "house1"
                   "2024-01-01T10:02:00+00:00" "2024-01-01T10:04:00+00:00"
                   120
                   (snd (_log_outage_start_direct env_ok "house1"
                           "2024-01-01T10:02:00+00:00" s)))))
  = [resolved_row env_ok "house1" "2024-01-01T10:02:00+00:00"
                  "2024-01-01T10:04:00+00:00" 120].
Proof.
  cbn zeta.
  apply (outage_row_round_trip env_ok "house1" "2024-01-01T10:02:00+00:00"
           "2024-01-01T10:04:00+00:00" 120
           (mkLState fresh_logger empty_world) eq_refl
           (fun i _ => eq_refl)).
  reflexivity.
Defined.

(** ** Retries *)

Section Retries.
Variable E : Environment.
Hypothesis not_expired : forall n, credentials_expired E n = false.

Lemma _build_service_world s :
  service (logger s) = true ->
  exists b s',
    _build_service E s = (Ok b, s')
    /\ logger s' = logger s
    /\ calls (world s') = calls (world s)
    /\ sleeps (world s') = sleeps (world s)
    /\ clock_reads (world s') = clock_reads (world s)
    /\ checks_sheet (world s') = checks_sheet (world s)
    /\ outages_sheet (world s') = outages_sheet (world s).
Proof.
  intros Hs. unfold _build_service.
  destruct (build_ok E _); do 2 eexists; (split; [reflexivity|]);
    cbn [logger set_logger set_world world tick_builds calls checks_sheet
         outages_sheet sleeps clock_reads];
    rewrite ?(set_service_true _ Hs); repeat split; reflexivity.
Qed.

(** A failed attempt that is not the last one is followed by one sleep
    and nothing else that matters. *)
Lemma on_error_again max_retries backoff_factor attempt e s :
  (0 <= backoff_factor)%Z ->
  service (logger s) = true ->
  attempt < max_retries - 1 ->
  exists s',
    on_error E max_retries backoff_factor attempt e s = (Ok tt, s')
    /\ logger s' = logger s
    /\ calls (world s') = calls (world s)
    /\ sleeps (world s') =
       sleeps (world s) ++ [retry_delay backoff_factor (Failure e) attempt]
    /\ clock_reads (world s') = clock_reads (world s)
    /\ checks_sheet (world s') = checks_sheet (world s)
    /\ outages_sheet (world s') = outages_sheet (world s).
Proof.
  intros Hpos Hs Hlt. apply Nat.ltb_lt in Hlt.
  pose proof (backoff_nonneg backoff_factor attempt Hpos) as Hb0.
  pose proof (rate_limit_backoff_nonneg backoff_factor attempt Hpos) as Hr0.
  assert (Hsleep : forall d s0, Qle_bool 0 d = true -> exists s',
            sleep d s0 = (Ok tt, s')
            /\ logger s' = logger s0
            /\ calls (world s') = calls (world s0)
            /\ sleeps (world s') = sleeps (world s0) ++ [d]
            /\ clock_reads (world s') = clock_reads (world s0)
            /\ checks_sheet (world s') = checks_sheet (world s0)
            /\ outages_sheet (world s') = outages_sheet (world s0)).
  { intros d s0 Hd. rewrite (sleep_ok d s0 Hd).
    eexists; split; [reflexivity|]. cbn. repeat split. }
  assert (Hboth : forall d, Qle_bool 0 d = true -> exists s',
            (_build_service E;; sleep d) s = (Ok tt, s')
            /\ logger s' = logger s
            /\ calls (world s') = calls (world s)
            /\ sleeps (world s') = sleeps (world s) ++ [d]
            /\ clock_reads (world s') = clock_reads (world s)
            /\ checks_sheet (world s') = checks_sheet (world s)
            /\ outages_sheet (world s') = outages_sheet (world s)).
  { intros d Hd.
    destruct (_build_service_world s Hs)
      as (b & s1 & Hb & Hl & Hc & Hsl & Hck & H1 & H2).
    unfold bind. rewrite Hb.
    destruct (Hsleep d s1 Hd)
      as (s2 & Hrun & Hl2 & Hc2 & Hsl2 & Hck2 & H12 & H22).
    exists s2. rewrite Hrun. repeat split; congruence. }
  unfold on_error, when, retry_delay. rewrite Hlt.
  destruct e as [status|msg]; [|apply Hboth, Hb0].
  destruct (status =? 429)%Z eqn:Hrate.
  - apply Z.eqb_eq in Hrate. subst status. cbn [Z.eqb Pos.eqb orb].
    apply Hsleep, Hr0.
  - destruct ((status =? 401)%Z || (status =? 403)%Z);
      [apply Hboth, Hb0 | apply Hsleep, Hb0].
Qed.

(** One attempt at an upload that takes a single request. *)
Lemma attempt_once_single u s :
  single_request u = true ->
  service (logger s) = true ->
  failed_uploads (logger s) = [] ->
  match api_outcome E (length (calls (world s))) with
  | Failure e =>
      attempt_once E (deliver_direct E u) s =
      (Raise e, set_world (log_call (first_request E u)) s)
  | Success =>
      attempt_once E (deliver_direct E u) s =
      (Ok tt,
       set_logger
         (set_last_successful_upload
            (Some (local_now E (clock_reads (world s)))))
         (set_world tick_clock
            (set_world (apply_call (first_request E u))
               (set_world (log_call (first_request E u)) s))))
  end.
Proof.
  intros Hu Hs Hq.
  destruct (api_outcome E (length (calls (world s)))) as [|e] eqn:Hapi.
  - unfold attempt_once, ensure_service.
    cbv beta iota zeta delta [bind gets ret now modify].
    rewrite Hs, not_expired. cbn [negb orb].
    assert (Hd : deliver_direct E u s =
                 (Ok tt, set_world (apply_call (first_request E u))
                           (set_world (log_call (first_request E u)) s))).
    { destruct u; try discriminate Hu; cbn [deliver_direct first_request];
        apply request_success; assumption. }
    rewrite Hd. unfold _process_failed_uploads.
    cbv beta iota zeta delta [bind gets ret].
    cbn [logger set_logger set_world failed_uploads
         set_last_successful_upload].
    rewrite Hq.
    destruct (first_request E u) as [[|] row| |i cells]; reflexivity.
  - unfold attempt_once, ensure_service.
    cbv beta iota zeta delta [bind gets ret].
    rewrite Hs, not_expired. cbn [negb orb].
    rewrite (deliver_direct_failure E u s e Hs Hapi). reflexivity.
Qed.

(** After [j] failed attempts, with more attempts left, the loop sends
    the request once more; when it is accepted the call returns
    normally.  The request was sent [j + 1] times and took effect once;
    the loop slept after each failure, for [backoff_factor ** attempt]
    seconds, five times as long after a rate limit. *)
Lemma retry_loop_transient u max_retries backoff_factor :
  single_request u = true ->
  (0 <= backoff_factor)%Z ->
  forall j remaining attempt s,
  j < remaining ->
  max_retries = attempt + remaining ->
  service (logger s) = true ->
  failed_uploads (logger s) = [] ->
  (forall i, i < j ->
     exists e, api_outcome E (length (calls (world s)) + i) = Failure e) ->
  api_outcome E (length (calls (world s)) + j) = Success ->
  exists s',
    retry_loop E (deliver_direct E u) max_retries backoff_factor
               remaining attempt s = (Ok tt, s')
    /\ logger s' =
       set_last_successful_upload
         (Some (local_now E (clock_reads (world s)))) (logger s)
    /\ calls (world s') =
       calls (world s) ++ repeat (first_request E u) (S j)
    /\ sleeps (world s') =
       sleeps (world s)
       ++ map (fun i =>
                 retry_delay backoff_factor
                   (api_outcome E (length (calls (world s)) + i))
                   (attempt + i))
              (seq 0 j)
    /\ checks_sheet (world s') =
       checks_sheet (apply_call (first_request E u) (world s))
    /\ outages_sheet (world s') =
       outages_sheet (apply_call (first_request E u) (world s)).
Proof.
  intros Hu Hpos. induction j as [|j IH];
    intros remaining attempt s Hj Hmax Hs Hq Hfail Hok.
  - destruct remaining as [|k]; [lia|].
    cbn [retry_loop]. unfold try_except.
    pose proof (attempt_once_single u s Hu Hs Hq) as Ha.
    rewrite Nat.add_0_r in Hok. rewrite Hok in Ha. rewrite Ha.
    eexists; split; [reflexivity|].
    cbn [logger world set_logger set_world calls sleeps checks_sheet
         outages_sheet tick_clock log_call seq map repeat].
    rewrite app_nil_r.
    destruct (first_request E u) as [[|] row| |i cells];
      repeat split; reflexivity.
  - destruct remaining as [|k]; [lia|].
    cbn [retry_loop]. unfold try_except.
    pose proof (attempt_once_single u s Hu Hs Hq) as Ha.
    destruct (Hfail 0 ltac:(lia)) as [e He].
    rewrite Nat.add_0_r in He. rewrite He in Ha. rewrite Ha.
    unfold bind.
    set (s1 := set_world (log_call (first_request E u)) s).
    destruct (on_error_again max_retries backoff_factor attempt e s1
                Hpos Hs ltac:(lia))
      as (s2 & Hrun & Hl & Hc & Hsl & Hck & H1 & H2).
    rewrite Hrun.
    assert (Hlen : length (calls (world s2)) = S (length (calls (world s)))).
    { rewrite Hc. unfold s1. cbn [world set_world log_call calls].
      rewrite length_app. cbn [length]. lia. }
    destruct (IH k (S attempt) s2) as (s3 & Hrun3 & Hl3 & Hc3 & Hsl3 & H13 & H23).
    + lia.
    + lia.
    + rewrite Hl. exact Hs.
    + rewrite Hl. exact Hq.
    + intros i Hi. rewrite Hlen.
      replace (S (length (calls (world s))) + i)
        with (length (calls (world s)) + S i) by lia.
      apply Hfail. lia.
    + rewrite Hlen.
      replace (S (length (calls (world s))) + j)
        with (length (calls (world s)) + S j) by lia.
      exact Hok.
    + exists s3. rewrite Hrun3. split; [reflexivity|].
      rewrite Hl3, Hc3, Hsl3, H13, H23, ?Hlen, ?Hl, ?Hc, ?Hsl, ?Hck.
      unfold s1.
      cbn [logger world set_world log_call calls sleeps clock_reads].
      split; [reflexivity|]. split.
      { rewrite <- app_assoc. reflexivity. }
      split.
      { rewrite <- app_assoc. f_equal.
        change (seq 0 (S j)) with (0 :: seq 1 j).
        cbn [map app]. rewrite !Nat.add_0_r, He. f_equal.
        rewrite <- seq_shift, map_map.
        apply map_ext. intros i.
        replace (S (length (calls (world s))) + i)
          with (length (calls (world s)) + S i) by lia.
        replace (S attempt + i) with (attempt + S i) by lia.
        reflexivity. }
      assert (Hw : checks_sheet (world s2) = checks_sheet (world s)
                   /\ outages_sheet (world s2) = outages_sheet (world s)).
      { rewrite H1, H2. split; reflexivity. }
      destruct Hw as [Hw1 Hw2].
      destruct (first_request E u) as [[|] row| |i cells];
        cbn [apply_call set_checks set_outages checks_sheet outages_sheet];
        rewrite ?Hw1, ?Hw2; split; reflexivity.
Qed.
End Retries.



(** ** A service that cannot be built *)

Section NoService.
Variable E : Environment.
Hypothesis never_built : forall n, build_ok E n = false.


End NoService.



(** With a negative factor the second delay is negative: [time.sleep]
    raises inside the handler, and the call ends there, after one sleep
    and four attempts to build the service. *)
Example negative_factor_raises :
  let E := mkEnv (fun _ => probe_up) (fun _ => probe_up) (fun _ => probe_up)
                 (fun _ => "2024-01-01T10:00:00+00:00") clock_west Iso.parse
                 Qred (fun _ => Success) (fun _ => false) (fun _ => false) in
  let s := mkLState (mkLogger false None []) empty_world in
  let out := _execute_with_retry E
               (_log_outage_start_direct E "house1"
                  "2024-01-01T10:00:00+00:00") 3 (-2) s in
  fst out = Raise (Exception "sleep length must be non-negative")
  /\ calls (world (snd out)) = []
  /\ builds (world (snd out)) = 4
  /\ sleeps (world (snd out)) = [1%Q].
Proof. vm_compute. repeat split; reflexivity. Qed.

(** ** Processing the queue of failed uploads *)

Lemma remove_uploads_all (l : list FailedUpload) : remove_uploads l l = [].
Proof.
  unfold remove_uploads. induction l as [|x l IH]; [reflexivity|].
  cbn [fold_left Py.remove_first].
  destruct (FailedUpload_eq_dec x x); [exact IH | congruence].
Qed.

Lemma remove_first_skip (x : FailedUpload) (k l : list FailedUpload) :
  ~ In x k ->
  Py.remove_first FailedUpload_eq_dec x (k ++ x :: l) = k ++ l.
Proof.
  induction k as [|y k IH]; intros Hx; cbn [app Py.remove_first].
  - destruct (FailedUpload_eq_dec x x); [reflexivity | congruence].
  - destruct (FailedUpload_eq_dec x y) as [->|Hne].
    + exfalso. apply Hx. now left.
    + rewrite IH; [reflexivity|]. intros H. apply Hx. now right.
Qed.

(** Removing the entries that satisfy [p] leaves the others, in order. *)
Lemma remove_uploads_filter (p : FailedUpload -> bool) :
  forall l k,
  Forall (fun u => p u = false) k ->
  remove_uploads (filter p l) (k ++ l) = k ++ filter (fun u => negb (p u)) l.
Proof.
  induction l as [|x l IH]; intros k Hk.
  - reflexivity.
  - cbn [filter]. destruct (p x) eqn:Hx; cbn [negb].
    + unfold remove_uploads. cbn [fold_left].
      rewrite remove_first_skip.
      * apply (IH k Hk).
      * intros Hin. rewrite Forall_forall in Hk.
        specialize (Hk x Hin). congruence.
    + replace (k ++ x :: l) with ((k ++ [x]) ++ l)
        by (rewrite <- app_assoc; reflexivity).
      rewrite IH.
      * rewrite <- app_assoc. reflexivity.
      * apply Forall_app. split; [exact Hk | constructor; [exact Hx|constructor]].
Qed.

Section Queue.
Variable E : Environment.

Lemma deliver_direct_accepted u s :
  (forall n, api_outcome E n = Success) ->
  service (logger s) = true ->
  fst (deliver_direct E u s) = Ok tt.
Proof.
  intros Hok Hs. destruct u as [data|loc st|loc st en d];
    cbn [deliver_direct].
  - unfold _log_connectivity_check_direct, _append_row.
    rewrite request_success; auto.
  - unfold _log_outage_start_direct, _append_row.
    rewrite request_success; auto.
  - destruct (_log_outage_end_direct_run E loc st en d s Hs
                (Hok _) (Hok _)) as (s' & -> & _).
    reflexivity.
Qed.

(** An accepted delivery: what it leaves in the sheets and how many
    requests it took. *)
Lemma deliver_direct_effect u s :
  (forall n, api_outcome E n = Success) ->
  service (logger s) = true ->
  exists s',
    deliver_direct E u s = (Ok tt, s')
    /\ logger s' = logger s
    /\ sheets (world s') = delivered E u (sheets (world s))
    /\ length (calls (world s')) = length (calls (world s)) + requests_of u.
Proof.
  intros Hok Hs. destruct u as [data|loc st|loc st en d];
    cbn [deliver_direct delivered requests_of].
  - unfold _log_connectivity_check_direct, _append_row.
    rewrite request_success by auto.
    eexists; split; [reflexivity|].
    cbn. rewrite length_app. auto.
  - unfold _log_outage_start_direct, _append_row.
    rewrite request_success by auto.
    eexists; split; [reflexivity|].
    cbn. rewrite length_app. auto.
  - unfold _log_outage_end_direct, values_get, _append_row.
    cbv beta iota zeta delta [bind gets ret].
    rewrite (request_success E ValuesGet s Hs (Hok _)).
    cbn [world set_world apply_call log_call outages_sheet].
    rewrite find_ongoing_firstn.
    set (s1 := set_world (apply_call ValuesGet)
                 (set_world (log_call ValuesGet) s)).
    assert (Hs1 : service (logger s1) = true) by exact Hs.
    unfold sheets. cbn [fst snd].
    destruct (find_ongoing loc st (outages_sheet (world s)) 0) as [i|];
      rewrite (request_success E _ s1 Hs1 (Hok _));
      eexists; (split; [reflexivity|]);
      cbn; rewrite !length_app; cbn; repeat split; lia.
Qed.

(** The loop of [_process_failed_uploads] when every delivery is
    accepted: every entry is delivered, in the order of the queue, and
    is to be removed. *)
Lemma process_loop_accepted :
  (forall n, api_outcome E n = Success) ->
  forall todo done successful s,
  service (logger s) = true ->
  exists s',
    process_loop E done todo successful s =
    (Ok (successful ++ map bump todo), s')
    /\ service (logger s') = true
    /\ last_successful_upload (logger s') = last_successful_upload (logger s)
    /\ sheets (world s') =
       fold_left (fun sh u => delivered E u sh) (map upload todo)
                 (sheets (world s))
    /\ length (calls (world s')) =
       length (calls (world s))
       + list_sum (map (fun u => requests_of (upload u)) todo).
Proof.
  intros Hok. induction todo as [|u rest IH]; intros done successful s Hs.
  - exists s. cbn. rewrite app_nil_r, Nat.add_0_r. auto.
  - cbn [process_loop]. fold (bump u).
    cbv beta iota zeta delta [bind modify try_except ret].
    set (s0 := set_logger (set_failed_uploads (done ++ bump u :: rest)) s).
    assert (Hs0 : service (logger s0) = true) by exact Hs.
    destruct (deliver_direct_effect (upload (bump u)) s0 Hok Hs0)
      as (s1 & Hrun1 & Hl & Hsh & Hc).
    rewrite Hrun1.
    destruct (IH (done ++ [bump u]) (successful ++ [bump u]) s1)
      as (s' & Hrun & Hs' & Hlsu & Hsh' & Hc').
    { rewrite Hl. exact Hs0. }
    exists s'. rewrite Hrun. cbn [map fold_left list_sum].
    rewrite <- app_assoc. split; [reflexivity|]. split; [exact Hs'|].
    split; [rewrite Hlsu, Hl; reflexivity|].
    split; [rewrite Hsh', Hsh; reflexivity|].
    rewrite Hc', Hc. cbn [upload bump set_retry_count].
    change (world s0) with (world s). unfold list_sum. cbn [fold_right].
    symmetry. apply Nat.add_assoc.
Qed.

End Queue.

(** X11.  When the service accepts every request, processing the queue of
    failed uploads delivers every entry, in the order of the queue, and
    leaves the queue empty: the call returns normally, the sheets hold
    what the accepted deliveries of the queued uploads leave one after
    the other, one request was sent for every connectivity check and
    outage start and two for every outage end, and the time of the last
    successful upload is not touched. *)
Theorem accepted_queue_is_emptied (E : Environment) (s : LState) :
  (forall n, api_outcome E n = Success) ->
  service (logger s) = true ->
  let queue := failed_uploads (logger s) in
  let out := _process_failed_uploads E s in
  fst out = Ok tt
  /\ failed_uploads (logger (snd out)) = []
  /\ sheets (world (snd out)) =
     fold_left (fun sh u => delivered E u sh) (map upload queue)
               (sheets (world s))
  /\ length (calls (world (snd out))) =
     length (calls (world s))
     + list_sum (map (fun u => requests_of (upload u)) queue)
  /\ last_successful_upload (logger (snd out))
     = last_successful_upload (logger s).
Proof.
  intros Hok Hs. cbn zeta. unfold _process_failed_uploads.
  cbv beta iota zeta delta [bind gets modify ret].
  destruct (failed_uploads (logger s)) as [|u q] eqn:Hq.
  - cbn. rewrite Nat.add_0_r. auto.
  - destruct (process_loop_accepted E Hok (u :: q) [] [] s Hs)
      as (s' & Hrun & _ & Hlsu & Hsh & Hc).
    rewrite Hrun. cbn [fst snd logger set_logger failed_uploads
                       set_failed_uploads app world
                       last_successful_upload].
    destruct (process_loop_spec E (u :: q) [] [] s)
      as (s2 & S2 & Hrun2 & _ & _ & Hq2 & _).
    rewrite Hrun in Hrun2. inversion Hrun2; subst.
    rewrite Hq2. split; [reflexivity|].
    split; [apply remove_uploads_all|]. auto.
Qed.

Lemma accepted_queue_is_emptied_witness :
  let a := mkFailed "2024-01-01T05:00:00.000001"
                    (OutageStart "house1" "2024-01-01T10:00:00+00:00") 0 in
  let b := mkFailed "2024-01-01T05:01:00.000001"
                    (OutageEnd "house1" "2024-01-01T10:00:00+00:00"
                               "2024-01-01T10:09:00+00:00" 540) 3 in
  let out := _process_failed_uploads env_ok
               (mkLState (mkLogger true None [a; b]) empty_world) in
  failed_uploads (logger (snd out)) = []
  /\ sheets (world (snd out)) =
     ([], [resolved_row env_ok "house1" "2024-01-01T10:00:00+00:00"
                        "2024-01-01T10:09:00+00:00" 540])
  /\ length (calls (world (snd out))) = 3.
Proof.
  cbn zeta.
  destruct (accepted_queue_is_emptied env_ok
              (mkLState
                 (mkLogger true None
                    [mkFailed "2024-01-01T05:00:00.000001"
                       (OutageStart "house1" "2024-01-01T10:00:00+00:00") 0;
                     mkFailed "2024-01-01T05:01:00.000001"
                       (OutageEnd "house1" "2024-01-01T10:00:00+00:00"
                                  "2024-01-01T10:09:00+00:00" 540) 3])
                 empty_world)
              (fun _ => eq_refl) eq_refl)
    as (_ & Hq & Hsh & Hc & _).
  split; [exact Hq|]. split; [rewrite Hsh | rewrite Hc]; reflexivity.
Defined.

Section Refused.
Variable E : Environment.

Lemma request_calls c s :
  length (calls (world s)) <= length (calls (world (snd (request E c s)))).
Proof.
  unfold request. destruct (service (logger s)); [|cbn; lia].
  destruct (api_outcome E _); cbn [snd world set_world log_call calls];
    [destruct c as [[|] row| |i cells]; cbn|]; rewrite length_app; lia.
Qed.

Lemma deliver_direct_calls u s :
  length (calls (world s))
  <= length (calls (world (snd (deliver_direct E u s)))).
Proof.
  destruct u as [data|loc st|loc st en d]; cbn [deliver_direct];
    try apply request_calls.
  unfold _log_outage_end_direct, values_get, _append_row.
  cbv beta iota zeta delta [bind gets ret].
  pose proof (request_calls ValuesGet s) as H1.
  destruct (request E ValuesGet s) as [[[]|e] s1]; cbn [fst snd] in *;
    [|exact H1].
  destruct (find_ongoing _ _ _ _);
    (etransitivity; [exact H1 | apply request_calls]).
Qed.

Lemma deliver_direct_refused_from n0 u s :
  (forall n, n0 <= n -> exists e, api_outcome E n = Failure e) ->
  n0 <= length (calls (world s)) ->
  exists e, fst (deliver_direct E u s) = Raise e.
Proof.
  intros Hfail Hn.
  assert (Hreq : forall c, exists e, fst (request E c s) = Raise e).
  { intros c. unfold request. destruct (service (logger s)).
    - destruct (Hfail _ Hn) as [e ->]. exists e. reflexivity.
    - eexists. reflexivity. }
  destruct u as [data|loc st|loc st en d]; cbn [deliver_direct];
    try apply Hreq.
  unfold _log_outage_end_direct, values_get, bind.
  destruct (Hreq ValuesGet) as [e He].
  destruct (request E ValuesGet s) as [r s1]; cbn [fst] in He; subst r.
  exists e. reflexivity.
Qed.

(** The loop of [_process_failed_uploads] when every delivery is
    refused: the entries that reach their fifth retry are the ones to
    remove. *)
Lemma process_loop_refused n0 :
  (forall n, n0 <= n -> exists e, api_outcome E n = Failure e) ->
  forall todo done successful s,
  n0 <= length (calls (world s)) ->
  exists s',
    process_loop E done todo successful s =
    (Ok (successful
         ++ filter (fun u => (5 <=? retry_count u)%nat) (map bump todo)), s')
    /\ length (calls (world s)) <= length (calls (world s')).
Proof.
  intros Hfail. induction todo as [|u rest IH]; intros done successful s Hn.
  - exists s. cbn. rewrite app_nil_r. auto.
  - cbn [process_loop]. fold (bump u).
    cbv beta iota zeta delta [bind modify try_except ret].
    set (s0 := set_logger (set_failed_uploads (done ++ bump u :: rest)) s).
    assert (Hn0 : n0 <= length (calls (world s0))) by exact Hn.
    pose proof (deliver_direct_calls (upload (bump u)) s0) as Hc.
    destruct (deliver_direct_refused_from n0 (upload (bump u)) s0 Hfail Hn0)
      as [e He].
    destruct (deliver_direct E (upload (bump u)) s0) as [r s1];
      cbn [fst snd] in *. subst r.
    assert (Hs : length (calls (world s)) <= length (calls (world s1)))
      by exact Hc.
    cbn [map filter].
    destruct (5 <=? retry_count (bump u))%nat.
    + destruct (IH (done ++ [bump u]) (successful ++ [bump u]) s1)
        as (s' & Hrun & Hc'); [lia|].
      exists s'. rewrite Hrun. rewrite <- app_assoc. split; [reflexivity|lia].
    + destruct (IH (done ++ [bump u]) successful s1)
        as (s' & Hrun & Hc'); [lia|].
      exists s'. rewrite Hrun. split; [reflexivity|lia].
Qed.

End Refused.

(** X12.  When the service refuses every request from now on, one pass over
    the queue of failed uploads raises the retry count of every entry and
    drops the entries that have now been tried five times; the other
    entries stay, in order. *)
Theorem refused_queue_ages (E : Environment) (s : LState) :
  (forall n, length (calls (world s)) <= n ->
     exists e, api_outcome E n = Failure e) ->
  failed_uploads (logger (snd (_process_failed_uploads E s)))
  = filter (fun u => (retry_count u <? 5)%nat)
           (map bump (failed_uploads (logger s))).
Proof.
  intros Hfail. unfold _process_failed_uploads.
  cbv beta iota zeta delta [bind gets modify ret].
  destruct (failed_uploads (logger s)) as [|u q] eqn:Hq.
  - cbn [snd]. exact Hq.
  - destruct (process_loop_refused E _ Hfail (u :: q) [] [] s (le_n _))
      as (s' & Hrun & _).
    destruct (process_loop_spec E (u :: q) [] [] s)
      as (s2 & S2 & Hrun2 & _ & _ & Hq2 & _).
    rewrite Hrun in Hrun2. inversion Hrun2; subst.
    rewrite Hrun.
    cbn [snd logger set_logger failed_uploads set_failed_uploads].
    rewrite Hq2.
    pose proof (remove_uploads_filter
                  (fun u => (5 <=? retry_count u)%nat) (map bump (u :: q)) []
                  (Forall_nil _)) as Hrm.
    cbn [app] in Hrm |- *. rewrite Hrm. apply filter_ext. intros a.
    rewrite Nat.ltb_antisym. reflexivity.
Qed.

Lemma refused_queue_ages_witness :
  let E := env_with (fun _ => Failure (HttpError 500)) in
  let a := mkFailed "2024-01-01T05:00:00.000001"
                    (OutageStart "house1" "2024-01-01T10:00:00+00:00") 4 in
  let b := mkFailed "2024-01-01T05:01:00.000001"
                    (OutageStart "house1" "2024-01-01T10:09:00+00:00") 1 in
  failed_uploads
    (logger (snd (_process_failed_uploads E
                    (mkLState (mkLogger true None [a; b]) empty_world))))
  = [bump b].
Proof.
  cbn zeta.
  rewrite (refused_queue_ages
             (env_with (fun _ => Failure (HttpError 500)))
             (mkLState
                (mkLogger true None
                   [mkFailed "2024-01-01T05:00:00.000001"
                      (OutageStart "house1" "2024-01-01T10:00:00+00:00") 4;
                    mkFailed "2024-01-01T05:01:00.000001"
                      (OutageStart "house1" "2024-01-01T10:09:00+00:00") 1])
                empty_world)).
  - reflexivity.
  - intros n _. exists (HttpError 500). reflexivity.
Defined.

(** *** Entries never stay longer than five passes *)

Lemma remove_first_In (x y : FailedUpload) (l : list FailedUpload) :
  In y (Py.remove_first FailedUpload_eq_dec x l) -> In y l.
Proof.
  induction l as [|z l IH]; cbn [Py.remove_first]; [auto|].
  destruct (FailedUpload_eq_dec x z); [right; assumption|].
  intros [->|H]; [left; reflexivity | right; apply IH, H].
Qed.

Lemma remove_uploads_In (y : FailedUpload) : forall successful queue,
  In y (remove_uploads successful queue) -> In y queue.
Proof.
  unfold remove_uploads.
  induction successful as [|x successful IH]; intros queue H; [exact H|].
  cbn [fold_left] in H. apply IH in H. apply (remove_first_In x), H.
Qed.

(** Whatever the service answers, an entry that is still queued after
    a pass was queued before it, with a retry count one lower. *)
Lemma _process_failed_uploads_bumps E s u :
  In u (failed_uploads (logger (snd (_process_failed_uploads E s)))) ->
  exists v, In v (failed_uploads (logger s)) /\ u = bump v.
Proof.
  unfold _process_failed_uploads.
  cbv beta iota zeta delta [bind gets modify ret].
  destruct (failed_uploads (logger s)) as [|x q] eqn:Hq.
  - cbn [snd]. rewrite Hq. intros [].
  - destruct (process_loop_spec E (x :: q) [] [] s)
      as (s' & S' & -> & _ & _ & Hq' & _).
    cbn [snd logger set_logger failed_uploads set_failed_uploads].
    rewrite Hq'. cbn [app]. intros H.
    apply remove_uploads_In, in_map_iff in H as (v & <- & Hv).
    exists v. auto.
Qed.

(** X13.  No entry outlives five passes over the queue, whatever the service
    answers: after [k] passes in a row every entry that is still queued
    has been retried at least [k] times, and an entry is dropped, sent
    or not, when its count reaches 5; so after five passes the queue is
    empty. *)
Theorem queue_entries_age_out (E : Environment) (k : nat) (s : LState) :
  Forall (fun u => k <= retry_count u)
         (failed_uploads (logger (process_rounds E k s)))
  /\ (5 <= k -> failed_uploads (logger (process_rounds E k s)) = []).
Proof.
  assert (Hage : forall k,
            Forall (fun u => k <= retry_count u)
                   (failed_uploads (logger (process_rounds E k s)))).
  { clear k. induction k as [|k IH].
    - apply Forall_forall. intros; lia.
    - change (process_rounds E (S k) s)
        with (snd (_process_failed_uploads E (process_rounds E k s))).
      apply Forall_forall. intros u Hin.
      apply _process_failed_uploads_bumps in Hin as (v & Hv & ->).
      rewrite Forall_forall in IH. specialize (IH v Hv).
      unfold bump, set_retry_count. cbn [retry_count]. lia. }
  split; [apply Hage|].
  intros Hk. specialize (Hage k).
  destruct k as [|k]; [lia|].
  change (process_rounds E (S k) s)
    with (snd (_process_failed_uploads E (process_rounds E k s))) in *.
  destruct (_process_failed_uploads_spec E (process_rounds E k s))
    as (s' & Hrun & _ & _ & _ & Hlt).
  rewrite Hrun in *. cbn [snd] in *.
  destruct (failed_uploads (logger s')) as [|u q]; [reflexivity|].
  inversion Hage; inversion Hlt; subst. lia.
Qed.

Lemma queue_entries_age_out_witness :
  let E := env_with (fun n => if Nat.even n then Failure (HttpError 500)
                              else Success) in
  let a := mkFailed "2024-01-01T05:00:00.000001"
                    (OutageStart "house1" "2024-01-01T10:00:00+00:00") 0 in
  failed_uploads
    (logger (process_rounds E 5
               (mkLState (mkLogger true None [a; a; a]) empty_world))) = [].
Proof.
  cbn zeta.
  apply (queue_entries_age_out
           (env_with (fun n => if Nat.even n then Failure (HttpError 500)
                               else Success))
           5).
  lia.
Defined.

(** ** Records that the recovery skips *)

Section Skip.
Variable E : Environment.

Lemma recover_record_skip record s :
  already_uploaded record (logger (r_lstate s)) = true ->
  recover_record E record s = (Ok tt, s).
Proof.
  intros H. unfold recover_record, try_except, bind, gets.
  rewrite H. reflexivity.
Qed.

Lemma recover_loop_skip : forall records s,
  Forall (fun r => already_uploaded r (logger (r_lstate s)) = true) records ->
  recover_loop E records s = (Ok tt, s).
Proof.
  induction records as [|r records IH]; intros s Hall; [reflexivity|].
  inversion Hall as [|? ? Hr Hrest]; subst.
  cbn [recover_loop]. unfold bind.
  rewrite (recover_record_skip r s Hr). apply IH, Hrest.
Qed.

End Skip.

(** X14.  A backup file that holds only records older than the last
    successful upload is replayed without a single request: the
    recovery returns its counters at zero and leaves the logger, the
    sheets and the clock as they were. *)
Theorem uploaded_records_are_skipped
    (E : Environment) (backup : list CheckResult) (s : LState) :
  Forall (fun r => already_uploaded r (logger s) = true) backup ->
  recover_from_backup E backup s = (Ok no_stats, s).
Proof.
  intros Hall. destruct backup as [|r backup]; [reflexivity|].
  unfold recover_from_backup.
  rewrite (recover_loop_skip E).
  - destruct s; reflexivity.
  - cbn [r_lstate].
    apply (Permutation_Forall (sorted_perm timestamp (r :: backup))).
    exact Hall.
Qed.

Lemma uploaded_records_are_skipped_witness :
  let l := mkLogger true
             (Some (mkDatetime 1704103200000000 "2024-01-01T10:00:00.000001"))
             [] in
  let r0 := comprehensive_check env_ok house1 0 in
  recover_from_backup env_ok [r0; r0] (mkLState l empty_world)
  = (Ok no_stats, mkLState l empty_world).
Proof.
  cbn zeta.
  apply (uploaded_records_are_skipped env_ok).
  repeat constructor.
Defined.

(** ** A recovery that has never uploaded before *)

Section Oldest.
Variable E : Environment.
Hypothesis not_expired : forall n, credentials_expired E n = false.

(** The first record that the recovery delivers. *)
Lemma recover_record_first record s st oo :
  service (logger s) = true ->
  failed_uploads (logger s) = [] ->
  last_successful_upload (logger s) = None ->
  api_outcome E (length (calls (world s))) = Success ->
  connected record <> None ->
  status_change record = None ->
  exists s',
    recover_record E record (mkRState s st oo)
    = (Ok tt, mkRState s' (mkStats (connectivity_checks st + 1)
                                   (outages_started st)
                                   (outages_completed st) (errors st)) oo)
    /\ logger s' =
       set_last_successful_upload
         (Some (local_now E (clock_reads (world s)))) (logger s)
    /\ calls (world s') =
       calls (world s) ++ [first_request E (ConnectivityCheck record)]
    /\ checks_sheet (world s') =
       checks_sheet (world s) ++ [connectivity_row E record]
    /\ outages_sheet (world s') = outages_sheet (world s).
Proof.
  intros Hs Hq Hlsu Hok Hc Hsc.
  destruct (retry_loop_transient E not_expired (ConnectivityCheck record)
              2 2 eq_refl ltac:(lia) 0 2 0 s ltac:(lia) eq_refl Hs Hq)
    as (s1 & Hrun & Hl & Hcalls & _ & H1 & H2).
  { intros i Hi. lia. }
  { rewrite Nat.add_0_r. exact Hok. }
  unfold recover_record, try_except, already_uploaded.
  cbv beta iota zeta delta [bind gets modify ret].
  cbn [r_lstate]. rewrite Hlsu.
  destruct (connected record) as [b|]; [|congruence].
  unfold lift_logger, _execute_with_retry. cbn [r_lstate].
  change (_log_connectivity_check_direct E record)
    with (deliver_direct E (ConnectivityCheck record)).
  rewrite Hrun. cbn [recovery_stats ongoing_outages r_lstate count_check].
  rewrite Hsc. rewrite sleep_ok by reflexivity.
  cbn [recovery_stats ongoing_outages r_lstate].
  eexists; split; [reflexivity|].
  cbn [logger world set_world add_sleep calls checks_sheet outages_sheet
       r_lstate count_check].
  rewrite Hl, Hcalls, H1, H2. repeat split; reflexivity.
Qed.

End Oldest.

(** X15.  A recovery by a logger that has not uploaded anything yet delivers
    the oldest record of the backup and, if the local clock then reads
    later than the timestamps of the other records, no other: the
    upload of the first record sets [last_successful_upload], and every
    record with a smaller timestamp string is skipped as already
    uploaded.  The counters report one connectivity check and no
    error. *)
Theorem recovery_uploads_oldest_record_only
    (E : Environment) (backup : list CheckResult)
    (first : CheckResult) (rest : list CheckResult) (s : LState) :
  (forall n, credentials_expired E n = false) ->
  service (logger s) = true ->
  failed_uploads (logger s) = [] ->
  last_successful_upload (logger s) = None ->
  api_outcome E (length (calls (world s))) = Success ->
  Py.sorted timestamp backup = first :: rest ->
  Forall (fun r =>
            connected r <> None /\ status_change r = None
            /\ Py.truthy (timestamp r) = true
            /\ String.ltb (timestamp r)
                 (dt_iso (local_now E (clock_reads (world s)))) = true)
         backup ->
  let out := recover_from_backup E backup s in
  fst out = Ok (mkStats 1 0 0 0)
  /\ calls (world (snd out)) =
     calls (world s) ++ [first_request E (ConnectivityCheck first)]
  /\ checks_sheet (world (snd out)) =
     checks_sheet (world s) ++ [connectivity_row E first]
  /\ last_successful_upload (logger (snd out)) =
     Some (local_now E (clock_reads (world s))).
Proof.
  intros Hexp Hs Hq Hlsu Hok Hsorted Hall; cbn zeta.
  assert (Hall' : Forall (fun r =>
            connected r <> None /\ status_change r = None
            /\ Py.truthy (timestamp r) = true
            /\ String.ltb (timestamp r)
                 (dt_iso (local_now E (clock_reads (world s)))) = true)
            (first :: rest)).
  { rewrite <- Hsorted.
    apply (Permutation_Forall (sorted_perm timestamp backup)), Hall. }
  inversion Hall' as [|? ? (Hc & Hsc & _ & _) Hrest]; subst.
  destruct backup as [|r0 backup]; [discriminate Hsorted|].
  unfold recover_from_backup. rewrite Hsorted.
  cbn [recover_loop]. unfold bind.
  destruct (recover_record_first E Hexp first s no_stats [] Hs Hq Hlsu Hok
              Hc Hsc)
    as (s' & -> & Hl & Hcalls & H1 & H2).
  rewrite recover_loop_skip.
  - cbn [fst snd recovery_stats r_lstate no_stats connectivity_checks
         outages_started outages_completed errors Nat.add].
    rewrite Hl, Hcalls, H1. repeat split; reflexivity.
  - cbn [r_lstate]. rewrite Hl.
    eapply Forall_impl; [|exact Hrest].
    intros r (_ & _ & Ht & Hlt). unfold already_uploaded.
    cbn [last_successful_upload set_last_successful_upload].
    rewrite Ht, Hlt. reflexivity.
Qed.

Lemma recovery_uploads_oldest_record_only_witness :
  let r := comprehensive_check env_east house1 in
  fst (recover_from_backup env_east [r 2; r 0; r 1]
         (mkLState fresh_logger empty_world))
  = Ok (mkStats 1 0 0 0).
Proof.
  cbn zeta.
  apply (recovery_uploads_oldest_record_only env_east
           [comprehensive_check env_east house1 2;
            comprehensive_check env_east house1 0;
            comprehensive_check env_east house1 1]
           (comprehensive_check env_east house1 0)
           [comprehensive_check env_east house1 1;
            comprehensive_check env_east house1 2]
           (mkLState fresh_logger empty_world)
           (fun _ => eq_refl) eq_refl eq_refl eq_refl eq_refl eq_refl).
  repeat constructor; discriminate.
Defined.

(** ** The cooldown of the backup recovery *)

Lemma cooldown_over_spec (t d : datetime) :
  cooldown_over t (Some d) = true <-> (300000000 < dt_us t - dt_us d)%Z.
Proof.
  unfold cooldown_over, Qgt_bool, total_seconds.
  rewrite negb_true_iff, <- not_true_iff_false, Qle_bool_iff.
  rewrite Qred_correct. unfold Qle. cbn [Qnum Qden].
  lia.
Qed.

(** X16.  A recovery that ran less than 300 seconds ago, or exactly 300
    seconds ago, keeps the next one from running: the monitor reads the
    clock and does nothing else, even though connectivity was restored
    and a backup file is waiting.  Once more than 300 seconds have
    passed, or when no recovery has run yet, a backup file that holds
    records is replayed through the logger; the monitor then notes the
    time of this recovery and clears its
    [connectivity_restored_recently] flag. *)
Theorem backup_recovery_cooldown
    (E : Environment) (s : MState) (l : GoogleSheetsLogger) :
  sheets_logger (monitor s) = Some l ->
  connectivity_restored_recently (monitor s) = true ->
  let t := local_now E (clock_reads (m_world s)) in
  let s' := snd (attempt_backup_recovery E s) in
  (forall d,
     last_backup_recovery (monitor s) = Some d ->
     (dt_us t - dt_us d <= 300000000)%Z ->
     s' = set_m_world (tick_clock (m_world s)) s)
  /\ (forall r rs,
        backup_file s = Some (JsonList (r :: rs)) ->
        (last_backup_recovery (monitor s) = None
         \/ exists d, last_backup_recovery (monitor s) = Some d
                      /\ (300000000 < dt_us t - dt_us d)%Z) ->
        let out := recover_from_backup E (r :: rs)
                     (mkLState l (tick_clock (m_world s))) in
        last_backup_recovery (monitor s') = Some t
        /\ connectivity_restored_recently (monitor s') = false
        /\ sheets_logger (monitor s') = Some (logger (snd out))
        /\ m_world s' = world (snd out)
        /\ backup_file s' = backup_file s).
Proof.
  intros Hl Hflag; cbn zeta. split.
  - intros d Hlast Hd.
    unfold attempt_backup_recovery.
    cbv beta iota zeta delta [bind gets try_except m_now ret].
    rewrite Hl. cbn [monitor set_m_world].
    rewrite Hflag, Hlast. cbn [andb].
    destruct (cooldown_over _ (Some d)) eqn:Hc; [|reflexivity].
    apply cooldown_over_spec in Hc. lia.
  - intros r rs Hfile Hlast.
    assert (Hc : cooldown_over (local_now E (clock_reads (m_world s)))
                   (last_backup_recovery (monitor s)) = true).
    { destruct Hlast as [->|(d & -> & Hd)]; [reflexivity|].
      apply cooldown_over_spec, Hd. }
    destruct s as [[ls ost crr lbr sl] w bf wr fo lg cy].
    cbn [monitor m_world backup_file sheets_logger last_backup_recovery
         connectivity_restored_recently] in *.
    subst sl crr bf.
    unfold attempt_backup_recovery.
    cbv beta iota zeta delta [bind gets try_except m_now ret log modify].
    cbn -[recover_from_backup cooldown_over].
    rewrite Hc. cbn -[recover_from_backup].
    unfold call_logger. cbn -[recover_from_backup].
    destruct (recover_from_backup E (r :: rs)
                (mkLState l (tick_clock w))) as [[stats|e] ls'] eqn:Hrec.
    + cbn. repeat split; reflexivity.
    + exfalso. unfold recover_from_backup in Hrec.
      destruct (recover_loop E _ _) in Hrec. discriminate Hrec.
Qed.

Lemma backup_recovery_cooldown_witness :
  let record := comprehensive_check env_ok house1 0 in
  let waiting last :=
    mkMState (mkMonitor (Some true) None true last (Some fresh_logger))
             empty_world (Some (JsonList [record])) true false [] 1 in
  calls (m_world (snd (attempt_backup_recovery env_ok
                         (waiting (Some (mkDatetime 1704084900000000
                                           "2024-01-01T04:55:00.000001"))))))
  = []
  /\ last_backup_recovery
       (monitor (snd (attempt_backup_recovery env_ok (waiting None))))
     = Some (clock_west 0).
Proof.
  cbn zeta. split.
  - rewrite (proj1 (backup_recovery_cooldown env_ok
               (mkMState
                  (mkMonitor (Some true) None true
                     (Some (mkDatetime 1704084900000000
                              "2024-01-01T04:55:00.000001"))
                     (Some fresh_logger))
                  empty_world
                  (Some (JsonList [comprehensive_check env_ok house1 0]))
                  true false [] 1)
               fresh_logger eq_refl eq_refl)
             (mkDatetime 1704084900000000 "2024-01-01T04:55:00.000001")
             eq_refl).
    + reflexivity.
    + cbn. lia.
  - apply (proj2 (backup_recovery_cooldown env_ok
               (mkMState
                  (mkMonitor (Some true) None true None (Some fresh_logger))
                  empty_world
                  (Some (JsonList [comprehensive_check env_ok house1 0]))
                  true false [] 1)
               fresh_logger eq_refl eq_refl)
             (comprehensive_check env_ok house1 0) [] eq_refl).
    left. reflexivity.
Defined.

(** ** The configuration check *)

(** X17.  [validate_config] accepts a configuration exactly when it prints no
    complaint, and exactly when the spreadsheet id is not empty, the
    three timeouts and the check interval are greater than 0, and there
    is at least one target of each kind.  A check cycle under an
    accepted configuration therefore holds at least one result of each
    of the three kinds of probe. *)
Theorem validate_config_accepts
    (E : Environment) (c : Settings) (cycle : nat) :
  (fst (validate_config c) = true <-> snd (validate_config c) = [])
  /\ (fst (validate_config c) = true <->
      GOOGLE_SPREADSHEET_ID c <> ""
      /\ (0 < PING_TIMEOUT (probes c))%Z
      /\ (0 < HTTP_TIMEOUT (probes c))%Z
      /\ (0 < DNS_TIMEOUT (probes c))%Z
      /\ (0 < CHECK_INTERVAL c)%Z
      /\ PING_TARGETS (probes c) <> []
      /\ HTTP_TARGETS (probes c) <> []
      /\ DNS_SERVERS (probes c) <> [])
  /\ (fst (validate_config c) = true ->
      let r := comprehensive_check E (probes c) cycle in
      ping_results r <> [] /\ http_results r <> [] /\ dns_results r <> []).
Proof.
  unfold validate_config, complain, comprehensive_check.
  destruct c as [[loc pt ht dt pts hts dss] ci id].
  cbn [probes CHECK_INTERVAL GOOGLE_SPREADSHEET_ID PING_TIMEOUT HTTP_TIMEOUT
       DNS_TIMEOUT PING_TARGETS HTTP_TARGETS DNS_SERVERS LOCATION_ID
       ping_results http_results dns_results].
  destruct id;
    destruct (Z.leb_spec pt 0), (Z.leb_spec ht 0), (Z.leb_spec dt 0),
             (Z.leb_spec ci 0);
    destruct pts, hts, dss; cbn;
    (split; [split; congruence|]);
    (split;
     [split;
      [ intros; try discriminate; repeat split; (lia || congruence)
      | intros (? & ? & ? & ? & ? & ? & ? & ?); try lia; try congruence ]
     | intros; try discriminate; repeat split; congruence ]).
Qed.

Lemma validate_config_accepts_witness :
  fst (validate_config (mkSettings house1 60 "sheet-id")) = true.
Proof.
  apply (proj1 (proj2 (validate_config_accepts env_ok
                         (mkSettings house1 60 "sheet-id") 0))).
  cbn. repeat split; (lia || discriminate).
Defined.

(** ** The monitor over many cycles *)

Section Cycles.
Variable E : Environment.
Variable aware : bool.

Lemma log_upload_pending u s :
  queue_length s <= 100 -> queue_length (snd (log_upload E u s)) <= 100.
Proof.
  intros Hq. unfold log_upload, try_except, _execute_with_retry.
  pose proof (retry_loop_queue E (deliver_direct E u) 3 2
                (deliver_direct_queue E u) 3 0 s) as Hrun.
  destruct (retry_loop E (deliver_direct E u) 3 2 3 0 s) as [[[]|e] s1];
    cbn [snd] in *; [lia|].
  rewrite _store_failed_upload_spec. cbn [snd]. unfold queue_length in *.
  cbn [logger failed_uploads set_failed_uploads].
  rewrite length_app. cbn [length].
  destruct (100 <=? length (failed_uploads (logger s1)))%nat eqn:Hfull.
  - rewrite last_n_length. lia.
  - apply Nat.leb_gt in Hfull. lia.
Qed.

(** What a call through [self.sheets_logger] leaves alone. *)
Lemma call_logger_frame {A} l (m : M LState A) s :
  let s' := snd (call_logger l m s) in
  cycle s' = cycle s /\ writable s' = writable s
  /\ backup_file s' = backup_file s
  /\ tracker s' = tracker s
  /\ pending s' = failed_uploads (logger (snd (m (mkLState l (m_world s))))).
Proof.
  cbn zeta. unfold call_logger.
  destruct (m (mkLState l (m_world s))) as [r ls]. cbn. auto.
Qed.

Lemma if_sheets_logger_log_upload_pending u s :
  exists s',
    if_sheets_logger (log_upload E u) s = (Ok tt, s')
    /\ cycle s' = cycle s /\ writable s' = writable s
    /\ backup_file s' = backup_file s
    /\ tracker s' = tracker s
    /\ connectivity_restored_recently (monitor s')
       = connectivity_restored_recently (monitor s)
    /\ (length (pending s) <= 100 -> length (pending s') <= 100).
Proof.
  unfold if_sheets_logger, pending.
  destruct (sheets_logger (monitor s)) as [l|] eqn:Hl.
  - unfold call_logger.
    pose proof (log_upload_pending u (mkLState l (m_world s))) as Hq.
    destruct (log_upload_ok E u (mkLState l (m_world s))) as [ls H].
    rewrite H in *. eexists; split; [reflexivity|].
    cbn. repeat split; auto.
  - exists s. rewrite Hl. repeat split; auto.
Qed.

Ltac logger_call u :=
  match goal with
  | |- context [if_sheets_logger (log_upload E u) ?s0] =>
      let s1 := fresh "s1" in
      destruct (if_sheets_logger_log_upload_pending u s0)
        as (s1 & -> & Hcy & Hwr & Hbf & Htr & Hfl & Hpe);
      unfold tracker, pending in Htr, Hpe;
      cbn [cycle writable backup_file monitor set_monitor
           add_log sheets_logger set_outage_start_time
           set_connectivity_restored_recently set_last_status
           connectivity_restored_recently last_status outage_start_time]
        in Hcy, Hwr, Hbf, Htr, Hfl, Hpe;
      injection Htr as Hls Host
  end.

Ltac frame_done :=
  repeat match goal with
         | |- _ /\ _ => split
         | |- _ -> _ => intro
         end;
  unfold pending in *;
  cbn [monitor set_monitor add_log sheets_logger set_outage_start_time
       set_connectivity_restored_recently set_last_status
       outage_start_time] in *;
  eauto; try congruence;
  try match goal with
      | Hst : outage_start_time (monitor ?s) = Some _,
        H1 : outage_start_time (monitor ?s) = Some _ |- _ =>
          rewrite Hst in H1; eauto
      end;
  try (exfalso;
       repeat match goal with
              | H : forall st, Some ?x = Some st -> well_formed _ _ st |- _ =>
                  specialize (H _ eq_refl)
              | H : well_formed _ _ _ |- _ => destruct H as (? & ? & ? & ?)
              | H : Bool.eqb _ _ = false |- _ => apply eqb_false_iff in H
              end;
       congruence).

(** One call of the tracker, seen from the loop. *)
Lemma detect_status_change_cycle config v t s :
  exists r s',
    detect_status_change E config v t s = (r, s')
    /\ cycle s' = cycle s /\ writable s' = writable s
    /\ backup_file s' = backup_file s
    /\ (length (pending s) <= 100 -> length (pending s') <= 100)
    /\ (parsable_start E aware s -> well_formed E aware t ->
        parsable_start E aware s' /\ exists sc, r = Ok sc).
Proof.
  unfold detect_status_change, parse_timestamp, log_outage_start,
    log_outage_end, parsable_start.
  cbv beta iota zeta delta [bind gets modify ret raise log when try_except].
  destruct (last_status (monitor s)) as [[|]|] eqn:Hlast.
  - destruct v; cbn [andb negb].
    + do 2 eexists; split; [reflexivity|]. cbn. frame_done.
    + logger_call (OutageStart (LOCATION_ID config) t).
      do 2 eexists; split; [reflexivity|]. cbn. frame_done.
  - destruct v; cbn [andb negb].
    + cbn [outage_start_time monitor set_monitor
           set_connectivity_restored_recently].
      destruct (outage_start_time (monitor s)) as [st|] eqn:Hst.
      * destruct (Py.truthy st) eqn:Htruthy.
        -- destruct (fromisoformat E (Py.replace_Z st)) as [a|] eqn:Ha.
           ++ destruct (fromisoformat E (Py.replace_Z t)) as [b|] eqn:Hb.
              ** unfold subtract.
                 destruct (Bool.eqb (i_aware b) (i_aware a)) eqn:Hsame;
                   cbv beta iota zeta delta
                       [bind gets modify ret raise log when try_except].
                 --- logger_call (OutageEnd (LOCATION_ID config) st t
                                   (total_seconds (i_us b - i_us a))).
                     do 2 eexists; split; [reflexivity|]. cbn. frame_done.
                 --- do 2 eexists; split; [reflexivity|]. cbn. frame_done.
              ** do 2 eexists; split; [reflexivity|]. cbn. frame_done.
           ++ do 2 eexists; split; [reflexivity|]. cbn. frame_done.
        -- do 2 eexists; split; [reflexivity|]. cbn. frame_done.
      * do 2 eexists; split; [reflexivity|]. cbn. frame_done.
    + do 2 eexists; split; [reflexivity|]. cbn. frame_done.
  - do 2 eexists; split; [reflexivity|]. cbn. frame_done.
Qed.

Lemma save_local_backup_frame data s :
  let s' := snd (save_local_backup data s) in
  fst (save_local_backup data s) = Ok tt
  /\ monitor s' = monitor s /\ m_world s' = m_world s
  /\ writable s' = writable s /\ cycle s' = cycle s
  /\ (forall l, buffered s = Some l -> writable s = true ->
       buffered s' = Some (Py.last_n 1000 (l ++ [data]))).
Proof.
  cbn zeta.
  assert (Hframe : fst (save_local_backup data s) = Ok tt
            /\ monitor (snd (save_local_backup data s)) = monitor s
            /\ m_world (snd (save_local_backup data s)) = m_world s
            /\ writable (snd (save_local_backup data s)) = writable s
            /\ cycle (snd (save_local_backup data s)) = cycle s).
  { unfold save_local_backup, load_and_append.
    cbv beta iota zeta delta [bind gets modify ret raise log try_except when].
    destruct (backup_file s) as [[l| | |]|]; destruct (writable s) eqn:Hw;
      try destruct (fails_after_open s) eqn:Hfo;
      cbn; rewrite ?Hw, ?Hfo; cbn; rewrite ?Hw; repeat split; reflexivity. }
  destruct Hframe as (H1 & H2 & H3 & H4 & H5).
  repeat split; auto.
  intros l Hb Hw.
  rewrite (save_local_backup_list data s l Hb Hw), saved_list. reflexivity.
Qed.

Lemma attempt_backup_recovery_frame s :
  let s' := snd (attempt_backup_recovery E s) in
  cycle s' = cycle s /\ writable s' = writable s
  /\ tracker s' = tracker s
  /\ length (pending s') <= length (pending s).
Proof.
  cbn zeta.
  destruct s as [[ls ost crr lbr [l|]] w bf wr fo lg cy];
    [|repeat split; apply le_n].
  unfold attempt_backup_recovery, m_now.
  cbv beta iota zeta delta [bind gets modify ret raise log try_except].
  cbn [monitor m_world set_m_world sheets_logger
       connectivity_restored_recently last_backup_recovery backup_file].
  destruct (crr && _); [|repeat split; apply le_n].
  destruct bf as [[[|r backup]|[|]| |]|];
    try (repeat split; apply le_n).
  cbn -[call_logger recover_from_backup].
  match goal with |- context [call_logger l ?m ?s0] =>
    destruct (call_logger_frame l m s0) as (Hcy & Hwr & _ & Htr & Hpe);
    pose proof (recover_from_backup_queue E (r :: backup)
                  (mkLState l (m_world s0))) as Hq;
    destruct (call_logger l m s0) as [[st|e] s1] end;
    cbn [snd] in *; unfold tracker, pending, queue_length in *;
    cbn in *; rewrite Hpe; repeat split; auto.
Qed.

Lemma timestamp_with_status_change sc r :
  timestamp (with_status_change sc r) = timestamp r.
Proof. destruct sc; reflexivity. Qed.

(** One check cycle, seen from the loop. *)
Lemma run_check_cycle config s :
  exists r s',
    run_check E config s = (Ok r, s')
    /\ cycle s' = S (cycle s) /\ writable s' = writable s
    /\ (length (pending s) <= 100 -> length (pending s') <= 100)
    /\ (parsable_start E aware s -> well_formed E aware (utc_now E (cycle s)) ->
        parsable_start E aware s'
        /\ exists result,
             r = Some result
             /\ timestamp result = utc_now E (cycle s)
             /\ (forall l, buffered s = Some l -> writable s = true ->
                   buffered s' = Some (Py.last_n 1000 (l ++ [result])))).
Proof.
  unfold run_check, try_except.
  cbv beta iota zeta delta [bind gets modify].
  destruct (detect_status_change_cycle config
              (match connected (comprehensive_check E config (cycle s)) with
               | Some b => b | None => false end)
              (timestamp (comprehensive_check E config (cycle s)))
              (next_cycle s))
    as (r & s1 & Hd & Hcy1 & Hwr1 & Hbf1 & Hpe1 & Hok1).
  rewrite Hd. clear Hd.
  change (timestamp (comprehensive_check E config (cycle s)))
    with (utc_now E (cycle s)) in Hok1.
  cbn [cycle writable backup_file next_cycle] in Hcy1, Hwr1, Hbf1.
  change (pending (next_cycle s)) with (pending s) in Hpe1.
  change (parsable_start E aware (next_cycle s)) with (parsable_start E aware s) in Hok1.
  destruct r as [sc|e].
  - set (result := with_status_change sc
                     (comprehensive_check E config (cycle s))).
    destruct (save_local_backup_frame result s1)
      as (Hr2 & Hm2 & Hw2 & Hwr2 & Hcy2 & Hb2).
    destruct (save_local_backup result s1) as [r2 s2];
      cbn [fst snd] in *; subst r2.
    unfold log_connectivity_check.
    destruct (if_sheets_logger_log_upload_pending
                (ConnectivityCheck result) s2)
      as (s3 & -> & Hcy3 & Hwr3 & Hbf3 & Htr3 & Hfl3 & Hpe3).
    unfold when.
    assert (Hp2 : pending s2 = pending s1)
      by (unfold pending; rewrite Hm2; reflexivity).
    assert (Hfinal : forall s4,
              cycle s4 = cycle s3 -> writable s4 = writable s3 ->
              tracker s4 = tracker s3 ->
              backup_file s4 = backup_file s3 ->
              length (pending s4) <= length (pending s3) ->
              cycle s4 = S (cycle s) /\ writable s4 = writable s
              /\ (length (pending s) <= 100 -> length (pending s4) <= 100)
              /\ (parsable_start E aware s -> well_formed E aware (utc_now E (cycle s)) ->
                  parsable_start E aware s4
                  /\ exists result0,
                       Some result = Some result0
                       /\ timestamp result0 = utc_now E (cycle s)
                       /\ (forall l, buffered s = Some l ->
                             writable s = true ->
                             buffered s4
                             = Some (Py.last_n 1000 (l ++ [result0]))))).
    { intros s4 Hcy4 Hwr4 Htr4 Hbf4 Hpe4.
      split; [congruence|]. split; [congruence|]. split.
      - intros Hp. rewrite Hp2 in Hpe3. specialize (Hpe1 Hp).
        specialize (Hpe3 Hpe1). lia.
      - intros Hps Hwf. destruct (Hok1 Hps Hwf) as [Hps1 _]. split.
        + unfold parsable_start, tracker in *. intros st Hst.
          apply Hps1.
          assert (Ho : outage_start_time (monitor s4)
                       = outage_start_time (monitor s1)).
          { injection Htr4 as _ H4. injection Htr3 as _ H3.
            rewrite H4, H3, Hm2. reflexivity. }
          rewrite <- Ho. exact Hst.
        + exists result. split; [reflexivity|]. split.
          * apply timestamp_with_status_change.
          * intros l Hb Hw.
            unfold buffered in *. rewrite Hbf4, Hbf3.
            apply Hb2; [rewrite Hbf1; exact Hb | congruence]. }
    destruct (connectivity_restored_recently (monitor s3)).
    + pose proof (attempt_backup_recovery_returns E s3) as Hret.
      pose proof (attempt_backup_recovery_backup_file E s3) as Hfile.
      destruct (attempt_backup_recovery_frame s3)
        as (Hcy4 & Hwr4 & Htr4 & Hpe4).
      destruct (attempt_backup_recovery E s3) as [r4 s4];
        cbn [fst snd] in *; subst r4.
      unfold log, modify, ret. do 2 eexists; split; [reflexivity|].
      apply Hfinal; auto.
    + unfold log, modify, ret. do 2 eexists; split; [reflexivity|].
      apply Hfinal; auto.
  - unfold log, modify, ret. do 2 eexists; split; [reflexivity|].
    cbn [cycle writable add_log].
    split; [congruence|]. split; [congruence|]. split.
    + intros Hp. apply Hpe1, Hp.
    + intros Hps Hwf. destruct (Hok1 Hps Hwf) as [_ [sc Hsc]].
      discriminate Hsc.
Qed.

End Cycles.

Section Loop.
Variable E : Environment.
Variable aware : bool.
Variable c : Settings.






End Loop.





(** X20.  A negative check interval stops the monitor after its first check:
    the first [time.sleep] raises, and [run_continuous] logs the error
    and raises it again; no pass of the loop is counted and no second
    check is made. *)
Theorem negative_interval_stops_monitor
    (E : Environment) (c : Settings) (passes : nat) (a : Agent) :
  (CHECK_INTERVAL c < 0)%Z ->
  let out := run_continuous E c passes a in
  fst out = Raise (Exception "sleep length must be non-negative")
  /\ cycle (a_state (snd out)) = S (cycle (a_state a))
  /\ check_count (snd out) = check_count a
  /\ exists lg,
       logged (a_state (snd out))
       = lg ++ [(ERROR, "Monitor stopped due to error")].
Proof.
  intros Hci; cbn zeta. destruct a as [s count].
  assert (Hsleep : forall s0,
            interval_sleep c s0
            = (Raise (Exception "sleep length must be non-negative"), s0)).
  { intros s0. unfold interval_sleep.
    destruct (Z.ltb_spec (CHECK_INTERVAL c) 0); [reflexivity | lia]. }
  unfold run_continuous, lift_monitor.
  cbv beta iota zeta delta [bind log modify ret try_except raise].
  cbn [a_state check_count].
  set (s0 := add_log INFO "Check interval" _).
  destruct (run_check_cycle E true (probes c) s0)
    as (r & s1 & -> & Hcy1 & _).
  change (cycle s0) with (cycle s) in Hcy1.
  destruct passes as [|k]; cbn [loop]; unfold loop_pass, lift_monitor;
    cbv beta iota zeta delta [bind ret]; cbn [a_state check_count];
    rewrite Hsleep; cbn [fst snd a_state check_count cycle add_log logged];
    (split; [reflexivity|]); (split; [exact Hcy1|]);
    (split; [reflexivity|]); eexists; reflexivity.
Qed.

Lemma negative_interval_stops_monitor_witness :
  let c := mkSettings house1 (-1) "sheet-id" in
  cycle (a_state (snd (run_continuous env_ok c 5
                         (mkAgent fresh_state None)))) = 1.
Proof.
  cbn zeta.
  apply (negative_interval_stops_monitor env_ok
           (mkSettings house1 (-1) "sheet-id") 5 (mkAgent fresh_state None)).
  cbn. lia.
Defined.
